(** * SMS dispatch and history service (server.js)

    A shallow embedding of the request handlers of [server.js] that the
    specification talks about: the send workflow ([POST /api/sms/send]) with
    its dispatch stub [sendSMSCommand], the guarded model deletion
    ([DELETE /api/models/:id]) and the history listing
    ([GET /api/sms/history]) with its dynamic predicate.

    Beside them: the rate limit, [connectWithRetry], the other routes of
    the registry of models and commands with their listings, the sample
    data of [initializeDatabase], and the legacy table with its route and
    with [scripts/init-db.js].

    Conventions of the model.
    - A JavaScript string is a [string]: a sequence of code units, here the
      code units below 256 (and no NUL, which the store takes in no text).
      [String.length] is the [.length] of the source.
    - A JavaScript number that the handlers compute with (ids, counts) is
      an integer [Z].  The [page] and the [limit] of the history listing
      are texts of the query string, which the handler hands to the
      arithmetic of the engine, to [parseInt] and to the store: the
      arithmetic is an interface, [Double.Arithmetic], whose laws are the
      exactness of the operations on doubles at the integers below 2^53.
    - [async]/[await] is sequential: every handler is a function from the
      request, the store and the outcomes of the random draws and of the
      store to a response and a new store.  An exception is an [exn]; a
      [try]/[catch] is a [match] on an [outcome].
    - The tables are the ones [initializeDatabase] creates.  The store's own
      reading of text (integers, timestamps, [ILIKE], the order of equal
      sort keys) is an interface, [Store.Postgres]; the order it puts text
      in is another, [Listings.Collation].  The [WHERE] clause of the
      history listing reaches the store as the text the handler writes,
      and the store reads its conditions in it.  A statement fails for
      what its text and parameters are (a parameter the store cannot read,
      a constraint of the schema); the insert of the send workflow may also
      fail for a reason of the store's own, which the environment of the
      request gives. *)

From Stdlib Require Import ZArith QArith String Ascii List Lia DecimalString.
From Stdlib Require Import Sorting.Sorted Sorting.Permutation.
From Stdlib Require DecimalZ DecimalPos.
From stdpp Require Import base option list gmap.
Import ListNotations.

#[local] Open Scope string_scope.
#[local] Open Scope Z_scope.

(** ** JavaScript values, text and exceptions *)
Module Js.

(** What [express.json()] hands to a handler: a JSON value.  Numbers are the
    integers (see the conventions above). *)
#[warnings="-register-all"]
Inductive json : Type :=
| JNull
| JBool (b : bool)
| JNum (z : Z)
| JStr (s : string)
| JArr (items : list json)
| JObj (fields : list (string * json)).

(** A property of [req.body], [req.query] or [req.params]: [None] is
    [undefined]. *)
Definition field (A : Type) : Type := option A.

(** [ToBoolean]: what [if (v)] and [!v] test. *)
Definition truthy (v : json) : bool :=
  match v with
  | JNull => false
  | JBool b => b
  | JNum z => negb (Z.eqb z 0)
  | JStr s => negb (String.eqb s "")
  | JArr _ => true
  | JObj _ => true
  end.

(** A query-string value is a string; the empty string is falsy. *)
Definition truthy_text (v : field string) : bool :=
  match v with
  | None => false
  | Some s => negb (String.eqb s "")
  end.

(** Exceptions.  The text of a [TypeError] is the engine's. *)
Inductive exn : Type :=
| TypeError (message : string)
| StoreError (message : string).

Definition message (e : exn) : string :=
  match e with
  | TypeError m => m
  | StoreError m => m
  end.

(** The result of running a block that may throw. *)
Inductive outcome (A : Type) : Type :=
| Return (a : A)
| Throw (e : exn).
Arguments Return {A} a.
Arguments Throw {A} e.

(** A block that reads and writes a state [S] and may throw: the state it
    had reached when it threw is kept, as the effects of a JavaScript block
    are when an exception leaves it. *)
Definition prog (S A : Type) : Type := S -> outcome A * S.

Definition ret {S A : Type} (a : A) : prog S A := fun s => (Return a, s).

Definition throw {S A : Type} (e : exn) : prog S A := fun s => (Throw e, s).

Definition bind {S A B : Type} (m : prog S A) (k : A -> prog S B) : prog S B :=
  fun s =>
    match m s with
    | (Return a, s') => k a s'
    | (Throw e, s') => (Throw e, s')
    end.

Notation "'let*' x ':=' m 'in' k" := (bind m (fun x => k))
  (at level 10, x pattern, m at level 100, k at level 200).

(** [try { body } catch (error) { handler }]. *)
Definition try_catch {S A : Type} (body : prog S A) (handler : exn -> prog S A) : prog S A :=
  fun s =>
    match body s with
    | (Return a, s') => (Return a, s')
    | (Throw e, s') => handler e s'
    end.

(** A step that does not touch the state. *)
Definition lift {S A : Type} (o : outcome A) : prog S A := fun s => (o, s).

(** *** Text *)

Definition code (a : ascii) : N := N_of_ascii a.

(** [WhiteSpace] and [LineTerminator] among the code units of the model:
    TAB, LF, VT, FF, CR, SP and NBSP.  It is what [trim] strips and what
    [\s] matches. *)
Definition isWhiteSpace (a : ascii) : bool :=
  let c := code a in
  (((9 <=? c) && (c <=? 13)) || (c =? 32) || (c =? 160))%N.

(** [\d]. *)
Definition isDigit (a : ascii) : bool :=
  let c := code a in ((48 <=? c) && (c <=? 57))%N.

Fixpoint trimStart (s : string) : string :=
  match s with
  | EmptyString => EmptyString
  | String a r => if isWhiteSpace a then trimStart r else s
  end.

Fixpoint trimEnd (s : string) : string :=
  match s with
  | EmptyString => EmptyString
  | String a r =>
      match trimEnd r with
      | EmptyString => if isWhiteSpace a then EmptyString else String a EmptyString
      | r' => String a r'
      end
  end.

(** [String.prototype.trim]. *)
Definition trim (s : string) : string := trimEnd (trimStart s).

(** The receiver of [v.trim()], for a value [v] of the request: only a
    string has the method, and on anything else the call throws a
    [TypeError].  [name] is the expression the source calls it on. *)
Definition trim_receiver (name : string) (v : json) : outcome string :=
  match v with
  | JStr s => Return s
  | JNull => Throw (TypeError "Cannot read properties of null (reading 'trim')")
  | _ => Throw (TypeError (name ++ ".trim is not a function"))
  end.

(** [v.trim()]. *)
Definition call_trim (name : string) (v : json) : outcome string :=
  match trim_receiver name v with
  | Return s => Return (trim s)
  | Throw e => Throw e
  end.

(** [Array.prototype.join]. *)
Fixpoint join (sep : string) (l : list string) : string :=
  match l with
  | [] => ""
  | [x] => x
  | x :: r => x ++ sep ++ join sep r
  end.

(** [String(n)] for an integer, as a template literal inserts it. *)
Definition show (z : Z) : string := NilZero.string_of_int (Z.to_int z).

(** [s.substr(start, len)]. *)
Definition substr (start len : nat) (s : string) : string := substring start len s.

Definition dquote : string := String (ascii_of_nat 34) EmptyString.

(** A JavaScript number where the source may leave the integers. *)
Inductive number : Type :=
| Finite (z : Z)
| Infinity
| NaN.

End Js.

(** ** The numbers of JavaScript *)
Module Double.
Import Js.

(** The integers on which the operations of the handlers are exact: the
    ones between -2^53 and 2^53. *)
Definition safe (z : Z) : Prop := -9007199254740992 < z < 9007199254740992.

(** What the model takes from the engine as given: the doubles, with the
    double of an integer (the nearest one, for an integer that is not
    safe), [Infinity], [ToNumber] of a string, [-], [*], [/], [Math.ceil],
    [<] and [Number.prototype.toString].  The laws are the exactness of
    the operations on the safe integers; nothing is said of a fraction, of
    a text that is no decimal numeral, or of a product that is a negative
    zero. *)
Class Arithmetic : Type := {
  double : Type;
  of_integer : Z -> double;
  infinity : double;
  StringToNumber : string -> double;
  minus : double -> double -> double;
  times : double -> double -> double;
  over : double -> double -> double;
  ceil : double -> double;
  less : double -> double -> bool;
  toString : double -> string;
  numeral_exact :
    forall z, 0 <= z -> safe z -> StringToNumber (show z) = of_integer z;
  minus_exact :
    forall a b, safe a -> safe b -> safe (a - b) ->
                minus (of_integer a) (of_integer b) = of_integer (a - b);
  times_exact :
    forall a b, safe a -> safe b -> safe (a * b) ->
                (0 <= a /\ 0 <= b) \/ a * b <> 0 ->
                times (of_integer a) (of_integer b) = of_integer (a * b);
  ceil_over_exact :
    forall a b, 0 <= a -> safe a -> 0 < b -> safe b ->
                ceil (over (of_integer a) (of_integer b)) = of_integer (- (- a / b));
  over_zero :
    forall a, 0 < a -> safe a -> over (of_integer a) (of_integer 0) = infinity;
  ceil_infinity : ceil infinity = infinity;
  infinity_apart : forall z, safe z -> of_integer z <> infinity;
  less_exact :
    forall a b, safe a -> safe b -> less (of_integer a) (of_integer b) = (a <? b);
  toString_exact : forall z, safe z -> toString (of_integer z) = show z
}.

End Double.

(** ** The dispatch stub: [sendSMSCommand] *)
Module Dispatch.
Import Js.

(** What one call draws from its environment: the value of the first
    [Math.random()], of [Date.now()], and the base-36 text of the second
    [Math.random()]. *)
Record draws : Type := {
  random_outcome : Q;
  date_now : Z;
  random_text : string
}.

(** The record the stub returns; a property the source leaves out is
    [None].  [cost] is the number 0.05. *)
Record sms_result : Type := {
  success : bool;
  details : string;
  messageId : option string;
  cost : option Q;
  errorCode : option string
}.

(** The double [0.1]: 3602879701896397 / 2^55. *)
Definition one_tenth : Q := 3602879701896397 # 36028797018963968.

(** The body of the [try] block. *)
Definition attempt (d : draws) (phoneNumber command modelName : string) : outcome sms_result :=
  let success := negb (Qle_bool (random_outcome d) one_tenth) in
  if success then
    Return {| success := true;
              details := "Command " ++ dquote ++ command ++ dquote
                         ++ " sent successfully to " ++ modelName ++ " device";
              messageId := Some ("msg_" ++ show (date_now d) ++ "_"
                                 ++ substr 2 9 (random_text d));
              cost := Some (5 # 100);
              errorCode := None |}
  else
    Return {| success := false;
              details := "SMS delivery failed - network error";
              messageId := None;
              cost := None;
              errorCode := Some "NETWORK_ERROR" |}.

(** [async function sendSMSCommand(phoneNumber, command, modelName)]: the
    [try] block and its [catch]. *)
Definition sendSMSCommand (d : draws) (phoneNumber command modelName : string) : outcome sms_result :=
  match attempt d phoneNumber command modelName with
  | Return r => Return r
  | Throw error =>
      Return {| success := false;
                details := message error;
                messageId := None;
                cost := None;
                errorCode := Some "UNKNOWN_ERROR" |}
  end.

End Dispatch.

(** ** The store: the tables of [initializeDatabase] and the statements the
    handlers send *)
Module Store.
Import Js.

(** [device_models]; the key [id] is the key of the map.  Here and in
    [commands] the two timestamps, which none of these handlers reads, are
    left out. *)
Record device_model : Type := {
  dm_name : string;
  dm_description : option string
}.

(** [commands]. *)
Record command : Type := {
  c_id : Z;
  c_model_id : option Z;
  c_command_text : string;
  c_description : option string
}.

(** [sms_history], with [status] and [sent_at] as the send workflow writes
    them, never null. *)
Record sms_history_row : Type := {
  h_id : Z;
  phone_number : string;
  model_id : option Z;
  command_text : string;
  status : string;
  sent_at : Z;
  h_details : option string;
  notes : option string;
  response_data : Dispatch.sms_result
}.

(** The three tables of the current workflow ([sms_messages], the legacy
    table, is not read or written by these handlers). *)
Record db : Type := {
  device_models : gmap Z device_model;
  commands : list command;
  sms_history : list sms_history_row
}.

(** A row of [sms_history h LEFT JOIN device_models m ON h.model_id = m.id]:
    [id] is the primary key of [device_models], so a history row has one
    joined row, with the model's columns or with nulls. *)
Definition joined : Type := sms_history_row * option device_model.

Definition left_join (d : db) (h : sms_history_row) : joined :=
  (h, match model_id h with
      | Some k => device_models d !! k
      | None => None
      end).

Definition sent_at_desc (a b : joined) : Prop := sent_at (fst b) <= sent_at (fst a).

(** What the model takes from PostgreSQL as given: how it reads an integer
    and a timestamp from text, [text ILIKE pattern], and the order
    [ORDER BY h.sent_at DESC] puts rows in (rows with equal [sent_at] in an
    order of the store's choosing). *)
Class Postgres : Type := {
  integer_in : string -> option Z;
  timestamp_in : string -> option Z;
  ilike : string -> string -> bool;
  order_by_sent_at_desc : list joined -> list joined;
  order_by_permutation : forall l, Permutation (order_by_sent_at_desc l) l;
  order_by_sorted : forall l, StronglySorted sent_at_desc (order_by_sent_at_desc l)
}.

Definition in_int4 (z : Z) : bool := (-2147483648 <=? z) && (z <=? 2147483647).
Definition in_int8 (z : Z) : bool :=
  (-9223372036854775808 <=? z) && (z <=? 9223372036854775807).

Definition invalid_integer : exn := StoreError "invalid input syntax for type integer".
Definition integer_out_of_range : exn := StoreError "value is out of range for type integer".

(** A value of the request bound to an [INTEGER] parameter: [null] is NULL,
    a number and a string are read as an integer, anything else is sent as
    a text that is no integer. *)
Definition int4_value `{Postgres} (v : json) : outcome (option Z) :=
  match v with
  | JNull => Return None
  | JNum z => if in_int4 z then Return (Some z) else Throw integer_out_of_range
  | JStr s =>
      match integer_in s with
      | Some z => if in_int4 z then Return (Some z) else Throw integer_out_of_range
      | None => Throw invalid_integer
      end
  | _ => Throw invalid_integer
  end.

(** *** The statements of the model registry *)

(** [SELECT COUNT( * ) FROM commands WHERE model_id = $1]. *)
Definition count_commands `{Postgres} (id : json) (d : db) : outcome Z * db :=
  match int4_value id with
  | Throw e => (Throw e, d)
  | Return None => (Return 0, d)
  | Return (Some k) =>
      (Return (Z.of_nat (length (List.filter
         (fun c => match c_model_id c with Some m => Z.eqb m k | None => false end)
         (commands d)))), d)
  end.

Definition references (k : Z) (h : sms_history_row) : bool :=
  match model_id h with
  | Some m => Z.eqb m k
  | None => false
  end.

Definition foreign_key_violation : exn :=
  StoreError "update or delete on table device_models violates foreign key constraint sms_history_model_id_fkey on table sms_history".

(** [DELETE FROM device_models WHERE id = $1 RETURNING *].
    [commands.model_id] is declared [REFERENCES device_models(id) ON DELETE
    CASCADE]: the model's commands go with it.  [sms_history.model_id] is
    declared [REFERENCES device_models(id)] with no action: while a history
    row references the model the statement is refused. *)
Definition delete_device_model `{Postgres} (id : json) (d : db)
  : outcome (list (Z * device_model)) * db :=
  match int4_value id with
  | Throw e => (Throw e, d)
  | Return None => (Return [], d)
  | Return (Some k) =>
      match device_models d !! k with
      | None => (Return [], d)
      | Some m =>
          if existsb (references k) (sms_history d) then (Throw foreign_key_violation, d)
          else (Return [(k, m)],
                {| device_models := delete k (device_models d);
                   commands := List.filter
                     (fun c => match c_model_id c with Some x => negb (Z.eqb x k) | None => true end)
                     (commands d);
                   sms_history := sms_history d |})
      end
  end.

(** [SELECT name FROM device_models WHERE id = $1]. *)
Definition select_model_name `{Postgres} (id : json) (d : db) : outcome (list string) * db :=
  match int4_value id with
  | Throw e => (Throw e, d)
  | Return None => (Return [], d)
  | Return (Some k) =>
      (Return match device_models d !! k with
              | Some m => [dm_name m]
              | None => []
              end, d)
  end.

(** *** The insert of the send workflow *)

(** What the store contributes to one insert: whether the statement fails
    for a reason of the store's own (a lost connection, say), the [id] the
    sequence hands out and the value of [NOW()]. *)
Record insertion : Type := {
  fault : option string;
  fresh_id : Z;
  now : Z
}.

Definition value_too_long (n : nat) : exn :=
  StoreError ("value too long for type character varying(" ++ show (Z.of_nat n) ++ ")").

(** A text stored in a [VARCHAR(n)] column: a longer text is refused,
    unless all that exceeds [n] characters is spaces, which are cut off. *)
Definition varchar (n : nat) (s : string) : outcome string :=
  if (String.length s <=? n)%nat then Return s
  else if forallb (fun a => (code a =? 32)%N)
            (list_ascii_of_string (substring n (String.length s - n) s))
       then Return (substring 0 n s)
       else Throw (value_too_long n).

Definition missing_model : exn :=
  StoreError "insert or update on table sms_history violates foreign key constraint sms_history_model_id_fkey".

Definition model_exists (d : db) (k : option Z) : bool :=
  match k with
  | Some m => match device_models d !! m with Some _ => true | None => false end
  | None => true
  end.

(** [INSERT INTO sms_history (phone_number, model_id, command_text, status,
    sent_at, details, notes, response_data) VALUES ($1, $2, $3, $4, NOW(),
    $5, $6, $7) RETURNING *]: [phone_number] and [status] are
    [VARCHAR(20)], [command_text] is [VARCHAR(255)], [model_id] references
    [device_models]. *)
Definition insert_sms_history `{Postgres} (i : insertion)
    (phone : string) (modelId : json) (commandText status : string)
    (details notes : option string) (response : Dispatch.sms_result) (d : db)
  : outcome (list sms_history_row) * db :=
  match fault i with
  | Some m => (Throw (StoreError m), d)
  | None =>
      match int4_value modelId, varchar 20 phone, varchar 255 commandText, varchar 20 status with
      | Return k, Return phone', Return text', Return status' =>
          if negb (model_exists d k) then (Throw missing_model, d)
          else
            let row := {| h_id := fresh_id i; phone_number := phone'; model_id := k;
                          command_text := text'; status := status'; sent_at := now i;
                          h_details := details; notes := notes; response_data := response |} in
            (Return [row],
             {| device_models := device_models d; commands := commands d;
                sms_history := (sms_history d ++ [row])%list |})
      | Throw e, _, _, _ => (Throw e, d)
      | _, Throw e, _, _ => (Throw e, d)
      | _, _, Throw e, _ => (Throw e, d)
      | _, _, _, Throw e => (Throw e, d)
      end
  end.

(** *** The statements of the history listing *)

(** The tests the history handler puts in its [WHERE] clause. *)
Inductive column_test : Type :=
| StatusEq
| ModelIdEq
| PhoneLike
| SentFrom
| SentTo
| SearchLike.

(** One condition of the clause: a test and the number [n] of the
    placeholder [$n] it names. *)
Record condition : Type := {
  test : column_test;
  placeholder : nat
}.

(** The text of a condition, as the handler writes it. *)
Definition sql (c : condition) : string :=
  let p := "$" ++ show (Z.of_nat (placeholder c)) in
  match test c with
  | StatusEq => "h.status = " ++ p
  | ModelIdEq => "h.model_id = " ++ p
  | PhoneLike => "h.phone_number ILIKE " ++ p
  | SentFrom => "h.sent_at >= " ++ p
  | SentTo => "h.sent_at <= " ++ p
  | SearchLike =>
      "(h.command_text ILIKE " ++ p ++ " OR h.notes ILIKE " ++ p
      ++ " OR m.name ILIKE " ++ p ++ ")"
  end.

(** A value of the parameter array, as the driver sends it: a text.  A
    string of the request goes as it is, a number as its [toString]. *)
Inductive param : Type :=
| PText (s : string).

Definition param_text (p : param) : string :=
  match p with
  | PText s => s
  end.

(** A parameter read as an integer. *)
Definition param_integer `{Postgres} (p : param) : option Z := integer_in (param_text p).

(** [$n] of a parameter array: the value at position [n - 1]. *)
Definition parameter (params : list param) (n : nat) : outcome param :=
  match n with
  | O => Throw (StoreError "there is no parameter $0")
  | S i =>
      match params !! i with
      | Some p => Return p
      | None => Throw (StoreError "there is no parameter of that number")
      end
  end.

(** *** The clause, as the store reads its text

    The store of the model reads the clauses in the spelling the handler
    writes them in, and takes any other text for a syntax error. *)

(** What follows [literal] at the head of a text. *)
Fixpoint after (literal s : string) : option string :=
  match literal with
  | EmptyString => Some s
  | String a l =>
      match s with
      | String b r => if Ascii.eqb a b then after l r else None
      | EmptyString => None
      end
  end.

(** The digits at the head of a text, and what follows them. *)
Fixpoint digits (s : string) : string * string :=
  match s with
  | EmptyString => (EmptyString, EmptyString)
  | String a r =>
      if isDigit a then let (ds, rest) := digits r in (String a ds, rest)
      else (EmptyString, s)
  end.

(** [$n] at the head of a text: its number, and what follows it. *)
Definition placeholder_in (s : string) : option (nat * string) :=
  match after "$" s with
  | None => None
  | Some r =>
      let (ds, rest) := digits r in
      match NilZero.uint_of_string ds with
      | Some u => Some (Z.to_nat (Z.of_uint u), rest)
      | None => None
      end
  end.

(** A column, an operator and a placeholder. *)
Definition compared (literal : string) (t : column_test) (s : string)
  : option (condition * string) :=
  match after literal s with
  | None => None
  | Some r =>
      match placeholder_in r with
      | Some (n, rest) => Some ({| test := t; placeholder := n |}, rest)
      | None => None
      end
  end.

(** The three [ILIKE] of the search, on one placeholder. *)
Definition searched (s : string) : option (condition * string) :=
  match compared "(h.command_text ILIKE " SearchLike s with
  | None => None
  | Some (c, r1) =>
      match compared " OR h.notes ILIKE " SearchLike r1 with
      | None => None
      | Some (c2, r2) =>
          match compared " OR m.name ILIKE " SearchLike r2 with
          | None => None
          | Some (c3, r3) =>
              match after ")" r3 with
              | None => None
              | Some rest =>
                  if ((placeholder c =? placeholder c2)
                      && (placeholder c =? placeholder c3))%nat
                  then Some (c, rest) else None
              end
          end
      end
  end.

Definition or_else {A : Type} (x y : option A) : option A :=
  match x with
  | Some a => Some a
  | None => y
  end.

(** One condition at the head of a text. *)
Definition condition_in (s : string) : option (condition * string) :=
  or_else (compared "h.status = " StatusEq s)
    (or_else (compared "h.model_id = " ModelIdEq s)
       (or_else (compared "h.phone_number ILIKE " PhoneLike s)
          (or_else (compared "h.sent_at >= " SentFrom s)
             (or_else (compared "h.sent_at <= " SentTo s)
                (searched s))))).

(** Conditions with [AND] between them, up to the end of the text; every
    condition takes a character at least, so that [fuel] need not exceed
    the length of the text. *)
Fixpoint conditions_in (fuel : nat) (s : string) : option (list condition) :=
  match fuel with
  | O => None
  | S fuel' =>
      match condition_in s with
      | None => None
      | Some (c, rest) =>
          match rest with
          | EmptyString => Some [c]
          | _ =>
              match after " AND " rest with
              | Some r => option_map (cons c) (conditions_in fuel' r)
              | None => None
              end
          end
      end
  end.

(** The conditions of a [WHERE] clause; none when there is no clause. *)
Definition where_in (s : string) : option (list condition) :=
  match s with
  | EmptyString => Some []
  | _ =>
      match after "WHERE " s with
      | Some r => conditions_in (String.length r) r
      | None => None
      end
  end.

Definition syntax_error : exn := StoreError "syntax error in the WHERE clause".

(** *** The clause, as the store evaluates it *)

(** A condition with its parameter read at the type of its column. *)
Inductive bound : Type :=
| BStatus (s : string)
| BModelId (k : Z)
| BPhone (pattern : string)
| BFrom (t : Z)
| BTo (t : Z)
| BSearch (pattern : string).

Definition invalid_timestamp : exn := StoreError "invalid input syntax for type timestamp".

Definition bind_condition `{Postgres} (params : list param) (c : condition) : outcome bound :=
  match parameter params (placeholder c) with
  | Throw e => Throw e
  | Return p =>
      match test c with
      | StatusEq => Return (BStatus (param_text p))
      | ModelIdEq =>
          match param_integer p with
          | Some k => if in_int4 k then Return (BModelId k) else Throw integer_out_of_range
          | None => Throw invalid_integer
          end
      | PhoneLike => Return (BPhone (param_text p))
      | SentFrom =>
          match timestamp_in (param_text p) with
          | Some t => Return (BFrom t)
          | None => Throw invalid_timestamp
          end
      | SentTo =>
          match timestamp_in (param_text p) with
          | Some t => Return (BTo t)
          | None => Throw invalid_timestamp
          end
      | SearchLike => Return (BSearch (param_text p))
      end
  end.

Fixpoint bind_where `{Postgres} (params : list param) (conditions : list condition)
  : outcome (list bound) :=
  match conditions with
  | [] => Return []
  | c :: rest =>
      match bind_condition params c with
      | Throw e => Throw e
      | Return b =>
          match bind_where params rest with
          | Throw e => Throw e
          | Return bs => Return (b :: bs)
          end
      end
  end.

(** A test on a nullable column is not true on a null. *)
Definition like_nullable `{Postgres} (text : option string) (pattern : string) : bool :=
  match text with
  | Some t => ilike t pattern
  | None => false
  end.

(** Whether a condition is true of a joined row. *)
Definition satisfies `{Postgres} (b : bound) (r : joined) : bool :=
  let h := fst r in
  match b with
  | BStatus s => String.eqb (status h) s
  | BModelId k => match model_id h with Some m => Z.eqb m k | None => false end
  | BPhone pattern => ilike (phone_number h) pattern
  | BFrom t => t <=? sent_at h
  | BTo t => sent_at h <=? t
  | BSearch pattern =>
      ilike (command_text h) pattern
      || like_nullable (notes h) pattern
      || like_nullable (option_map dm_name (snd r)) pattern
  end.

(** The conditions joined with [AND]. *)
Definition where_true `{Postgres} (bs : list bound) (r : joined) : bool :=
  forallb (fun b => satisfies b r) bs.

(** The highest placeholder of a statement is the number of parameters it
    takes; the store refuses an array of another length. *)
Definition highest (placeholders : list nat) : nat := fold_right Nat.max O placeholders.

Definition wrong_arity : exn :=
  StoreError "bind message supplies a different number of parameters than the statement requires".

(** A parameter of [LIMIT] or [OFFSET]: a [bigint] that is not negative. *)
Definition row_count `{Postgres} (params : list param) (n : nat) : outcome nat :=
  match parameter params n with
  | Throw e => Throw e
  | Return p =>
      match param_integer p with
      | None => Throw invalid_integer
      | Some z =>
          if negb (in_int8 z) then Throw (StoreError "value is out of range for type bigint")
          else if z <? 0 then Throw (StoreError "LIMIT or OFFSET must not be negative")
          else Return (Z.to_nat z)
      end
  end.

Inductive icon : Type := IconSent | IconFailed | IconPending | IconUnknown.

(** The [CASE] of the select list. *)
Definition status_icon (s : string) : icon :=
  if String.eqb s "sent" then IconSent
  else if String.eqb s "failed" then IconFailed
  else if String.eqb s "pending" then IconPending
  else IconUnknown.

(** A row of the listing: [h.*], [m.name as model_name] and [status_icon]. *)
Record history_item : Type := {
  item : sms_history_row;
  model_name : option string;
  item_icon : icon
}.

Definition to_item (r : joined) : history_item :=
  {| item := fst r; model_name := option_map dm_name (snd r);
     item_icon := status_icon (status (fst r)) |}.

(** The rows of the join that the [WHERE] clause keeps. *)
Definition matching `{Postgres} (bs : list bound) (d : db) : list joined :=
  List.filter (where_true bs) (map (left_join d) (sms_history d)).

(** [SELECT h.*, m.name as model_name, CASE ... END as status_icon FROM
    sms_history h LEFT JOIN device_models m ON h.model_id = m.id <where>
    ORDER BY h.sent_at DESC LIMIT $l OFFSET $o]. *)
Definition select_history `{Postgres} (whereClause : string)
    (limitParam offsetParam : nat) (params : list param) (d : db)
  : outcome (list history_item) * db :=
  match where_in whereClause with
  | None => (Throw syntax_error, d)
  | Some conditions =>
      if negb (length params
               =? highest (limitParam :: offsetParam :: map placeholder conditions))%nat
      then (Throw wrong_arity, d)
      else
        match bind_where params conditions with
        | Throw e => (Throw e, d)
        | Return bs =>
            match row_count params limitParam with
            | Throw e => (Throw e, d)
            | Return l =>
                match row_count params offsetParam with
                | Throw e => (Throw e, d)
                | Return o =>
                    (Return (map to_item
                       (take l (drop o (order_by_sent_at_desc (matching bs d))))), d)
                end
            end
        end
  end.

(** [SELECT COUNT( * ) FROM sms_history h LEFT JOIN device_models m ON
    h.model_id = m.id <where>]. *)
Definition count_history `{Postgres} (whereClause : string)
    (params : list param) (d : db) : outcome Z * db :=
  match where_in whereClause with
  | None => (Throw syntax_error, d)
  | Some conditions =>
      if negb (length params =? highest (map placeholder conditions))%nat
      then (Throw wrong_arity, d)
      else
        match bind_where params conditions with
        | Throw e => (Throw e, d)
        | Return bs => (Return (Z.of_nat (length (matching bs d))), d)
        end
  end.

End Store.

(** ** The send workflow: [POST /api/sms/send] *)
Module Send.
Import Js Store.

(** [req.body], destructured.  [notes], when present, is a string. *)
Record body : Type := {
  phoneNumbers : field json;
  modelId : field json;
  commandText : field json;
  notes : field string
}.

(** An entry of [results] and an entry of [errors]. *)
Record result_entry : Type := {
  r_phone : string;
  r_status : string;
  r_id : Z;
  r_details : string
}.

Record error_entry : Type := {
  e_phone : string;
  e_error : string
}.

(** The responses of the handler, by status. *)
Inductive response : Type :=
| BadRequest (error : string) (invalidPhones : field (list json))
| NotFound (error : string)
| Completed (success : bool) (message : string) (total sent failed : Z)
    (results : list result_entry) (errors : field (list error_entry))
| InternalError (error : string) (cause : exn).

Definition status_code (r : response) : Z :=
  match r with
  | BadRequest _ _ => 400
  | NotFound _ => 404
  | Completed _ _ _ _ _ _ _ => 200
  | InternalError _ _ => 500
  end.

(** The state a request runs on: the store, and a record (kept by the
    model, not by the source) of the calls made to the dispatch stub. *)
Record state : Type := {
  store : db;
  dispatched : list (string * string * string)
}.

(** A statement sent to the store from within the handler. *)
Definition query {A : Type} (q : db -> outcome A * db) : prog state A :=
  fun s => let (r, d) := q (store s) in (r, {| store := d; dispatched := dispatched s |}).

(** [/^[\d\+\-\(\)\s]{10,20}$/.test(s)]. *)
Definition phone_char (a : ascii) : bool :=
  isDigit a
  || (code a =? 43)%N || (code a =? 45)%N || (code a =? 40)%N || (code a =? 41)%N
  || isWhiteSpace a.

Definition phoneRegex_test (s : string) : bool :=
  (10 <=? String.length s)%nat && (String.length s <=? 20)%nat
  && forallb phone_char (list_ascii_of_string s).

(** [phoneNumbers.filter(phone => !phoneRegex.test(phone.trim()))]: the
    elements in their order; the first element without [trim] throws. *)
Fixpoint invalid_phones (phones : list json) : outcome (list json) :=
  match phones with
  | [] => Return []
  | phone :: rest =>
      match call_trim "phone" phone with
      | Throw e => Throw e
      | Return t =>
          match invalid_phones rest with
          | Throw e => Throw e
          | Return bad => Return (if phoneRegex_test t then bad else phone :: bad)
          end
      end
  end.

(** The environment of a request: for the phone number at position [i] of
    the array, what the call [sendSMSCommand(cleanPhone, commandText,
    modelName)] of its turn returns or throws, and what the store
    contributes to its insert.  With the stub of the source the call is
    [stub draws_at], for the draws of the run; the loop is written for any
    outcome of the call, so that what it does with an exception of the
    call can be told. *)
Record world : Type := {
  dispatch : nat -> string -> string -> string -> outcome Dispatch.sms_result;
  insertion_at : nat -> insertion
}.

(** The dispatch stub of the source, drawing as [draws_at] says. *)
Definition stub (draws_at : nat -> Dispatch.draws)
  : nat -> string -> string -> string -> outcome Dispatch.sms_result :=
  fun i => Dispatch.sendSMSCommand (draws_at i).

Definition call_dispatch (w : world) (i : nat) (phone command modelName : string)
  : prog state Dispatch.sms_result :=
  fun s => (dispatch w i phone command modelName,
            {| store := store s;
               dispatched := (dispatched s ++ [(phone, command, modelName)])%list |}).

(** [v || null]. *)
Definition or_null (v : field string) : option string :=
  match v with
  | Some s => if String.eqb s "" then None else Some s
  | None => None
  end.

Definition status_of (r : Dispatch.sms_result) : string :=
  if Dispatch.success r then "sent" else "failed".

(** The two arrays the loop fills. *)
Record lists : Type := {
  results : list result_entry;
  errors : list error_entry
}.

(** The body of the loop, for the element [phone] at position [i]. *)
Definition send_one `{Postgres} (w : world) (modelId : json) (commandText : string)
    (notes : field string) (modelName : string) (i : nat) (phone : json) (acc : lists)
  : prog state lists :=
  try_catch
    (let* cleanPhone := lift (call_trim "phone" phone) in
     let* smsResult := call_dispatch w i cleanPhone commandText modelName in
     let* result := query (insert_sms_history (insertion_at w i)
                             cleanPhone modelId (trim commandText) (status_of smsResult)
                             (or_null (Some (Dispatch.details smsResult))) (or_null notes)
                             smsResult) in
     match result with
     | row :: _ =>
         ret {| results := (results acc ++
                  [{| r_phone := cleanPhone; r_status := status_of smsResult;
                      r_id := h_id row; r_details := Dispatch.details smsResult |}])%list;
                errors := errors acc |}
     | [] => throw (TypeError "Cannot read properties of undefined (reading 'id')")
     end)
    (fun error =>
       let* p := lift (call_trim "phone" phone) in
       ret {| results := results acc;
              errors := (errors acc ++ [{| e_phone := p; e_error := message error |}])%list |}).

(** [for (const phone of phoneNumbers) { ... }]. *)
Fixpoint send_all `{Postgres} (w : world) (modelId : json) (commandText : string)
    (notes : field string) (modelName : string) (i : nat) (phones : list json) (acc : lists)
  : prog state lists :=
  match phones with
  | [] => ret acc
  | phone :: rest =>
      let* acc' := send_one w modelId commandText notes modelName i phone acc in
      send_all w modelId commandText notes modelName (S i) rest acc'
  end.

Definition count_status (s : string) (l : list result_entry) : Z :=
  Z.of_nat (length (List.filter (fun r => String.eqb (r_status r) s) l)).

(** The response after the loop. *)
Definition summary (phones : list json) (l : lists) : response :=
  let successCount := count_status "sent" (results l) in
  let failCount := count_status "failed" (results l) + Z.of_nat (length (errors l)) in
  Completed (0 <? successCount)
    ("SMS processing completed. Sent: " ++ show successCount ++ ", Failed: " ++ show failCount)
    (Z.of_nat (length phones)) successCount failCount
    (results l)
    (if (0 <? length (errors l))%nat then Some (errors l) else None).

(** The handler, from the first check to the outer [catch]. *)
Definition handler `{Postgres} (w : world) (b : body) : prog state response :=
  try_catch
    (match phoneNumbers b with
     | Some (JArr (first :: others)) =>
         let phones := first :: others in
         match modelId b, commandText b with
         | Some m, Some c =>
             if negb (truthy m) || negb (truthy c) then
               ret (BadRequest "Model ID and command text are required" None)
             else
               let* text := lift (trim_receiver "commandText" c) in
               if (String.length (trim text) =? 0)%nat then
                 ret (BadRequest "Model ID and command text are required" None)
               else
                 let* invalidPhones := lift (invalid_phones phones) in
                 if (0 <? length invalidPhones)%nat then
                   ret (BadRequest "Invalid phone numbers detected" (Some invalidPhones))
                 else
                   let* modelCheck := query (select_model_name m) in
                   match modelCheck with
                   | [] => ret (NotFound "Model not found")
                   | modelName :: _ =>
                       let* l := send_all w m text (notes b) modelName 0 phones
                                   {| results := []; errors := [] |} in
                       ret (summary phones l)
                   end
         | _, _ => ret (BadRequest "Model ID and command text are required" None)
         end
     | _ => ret (BadRequest "Phone numbers array is required" None)
     end)
    (fun error => ret (InternalError "Failed to send SMS" error)).

(** The request, run on a store: the response and the state afterwards. *)
Definition post `{Postgres} (w : world) (b : body) (d : db) : response * state :=
  match handler w b {| store := d; dispatched := [] |} with
  | (Return r, s) => (r, s)
  | (Throw e, s) => (InternalError "Failed to send SMS" e, s)
  end.

End Send.

(** ** Deleting a model: [DELETE /api/models/:id] *)
Module Models.
Import Js Store.

Inductive response : Type :=
| Conflict (error suggestion : string)
| NotFound (error : string)
| Deleted (message : string) (data : Z * device_model)
| InternalError (error : string).

Definition status_code (r : response) : Z :=
  match r with
  | Conflict _ _ => 409
  | NotFound _ => 404
  | Deleted _ _ => 200
  | InternalError _ => 500
  end.

(** The handler; [id] is [req.params.id], a string. *)
Definition handler `{Postgres} (id : string) : prog db response :=
  try_catch
    (let* commandCount := count_commands (JStr id) in
     if 0 <? commandCount then
       ret (Conflict
              ("Cannot delete model. It has " ++ show commandCount ++ " associated commands.")
              "Delete all commands first or use force delete.")
     else
       let* result := delete_device_model (JStr id) in
       match result with
       | [] => ret (NotFound "Model not found")
       | row :: _ => ret (Deleted "Model deleted successfully" row)
       end)
    (fun error => ret (InternalError "Failed to delete model")).

Definition delete `{Postgres} (id : string) (d : db) : response * db :=
  match handler id d with
  | (Return r, d') => (r, d')
  | (Throw e, d') => (InternalError "Failed to delete model", d')
  end.

End Models.

(** ** The rate limit: the middleware over [requestCounts] *)
Module RateLimit.

(** A value of the map [requestCounts]. *)
Record clientData : Type := {
  count : Z;
  resetTime : Z
}.

Definition RATE_LIMIT_WINDOW : Z := 60000.
Definition RATE_LIMIT_MAX : Z := 100.

(** What the middleware does with a request: [next()], or the 429 answer. *)
Inductive verdict : Type :=
| Next
| TooManyRequests (error message : string).

Definition status_code (v : verdict) : option Z :=
  match v with
  | Next => None
  | TooManyRequests _ _ => Some 429
  end.

(** The middleware, for a request of [req.ip = ip] that arrives when
    [Date.now()] is [now]. *)
Definition rateLimit (ip : string) (now : Z) (requestCounts : gmap string clientData)
  : verdict * gmap string clientData :=
  match requestCounts !! ip with
  | None =>
      (Next, <[ip := {| count := 1; resetTime := now + RATE_LIMIT_WINDOW |}]> requestCounts)
  | Some clientData =>
      if resetTime clientData <? now then
        (Next, <[ip := {| count := 1; resetTime := now + RATE_LIMIT_WINDOW |}]> requestCounts)
      else
        let counted := {| count := count clientData + 1; resetTime := resetTime clientData |} in
        (if RATE_LIMIT_MAX <? count counted
         then TooManyRequests "Too many requests" "Rate limit exceeded. Please try again later."
         else Next,
         <[ip := counted]> requestCounts)
  end.

(** The requests the server takes, one after the other: each with its
    address and its time, answered with its address and its verdict. *)
Fixpoint serve (requests : list (string * Z)) (requestCounts : gmap string clientData)
  : list (string * verdict) * gmap string clientData :=
  match requests with
  | [] => ([], requestCounts)
  | (ip, now) :: rest =>
      let (v, counted) := rateLimit ip now requestCounts in
      let (vs, final) := serve rest counted in
      ((ip, v) :: vs, final)
  end.

(** The requests, and the answers, of one address. *)
Definition from {A : Type} (ip : string) (l : list (string * A)) : list (string * A) :=
  List.filter (fun r => String.eqb (fst r) ip) l.

Definition admitted (v : verdict) : bool :=
  match v with
  | Next => true
  | TooManyRequests _ _ => false
  end.

(** A window that is over at the time [t], or that never began. *)
Definition expired (c : option clientData) (t : Z) : Prop :=
  match c with
  | Some data => resetTime data < t
  | None => True
  end.

End RateLimit.

(** ** The start of the server: [connectWithRetry] *)
Module Startup.

(** What a run of [connectWithRetry] does, in order: an attempt that
    connects (the client is released at once), an attempt that fails with
    the count it logs as left, the wait before the next attempt, and the
    end of the process. *)
Inductive event : Type :=
| Connected
| Released
| Failed (retriesLeft : nat)
| Wait (ms : Z)
| Exit (code : Z).

(** The [while (retries)] loop; [connect i] tells whether the call of
    [pool.connect()] number [i] of the process resolves.  After
    [process.exit(1)] nothing runs. *)
Fixpoint retry (retries : nat) (connect : nat -> bool) (i : nat) : list event :=
  match retries with
  | O => []
  | S remaining =>
      if connect i then [Connected; Released]
      else
        Failed remaining ::
        (if (remaining =? 0)%nat then [Exit 1]
         else Wait 5000 :: retry remaining connect (S i))
  end.

Definition connectWithRetry (connect : nat -> bool) : list event := retry 5 connect 0.

(** The milliseconds a run waits, and the calls of [pool.connect()] it
    makes. *)
Fixpoint waited (es : list event) : Z :=
  match es with
  | [] => 0
  | Wait ms :: rest => ms + waited rest
  | _ :: rest => waited rest
  end.

Fixpoint attempts (es : list event) : nat :=
  match es with
  | [] => O
  | Connected :: rest => S (attempts rest)
  | Failed _ :: rest => S (attempts rest)
  | _ :: rest => attempts rest
  end.

(** The first of the [n] calls from number [i] on that resolves, counted
    from [i]. *)
Fixpoint first_success (n : nat) (connect : nat -> bool) (i : nat) : option nat :=
  match n with
  | O => None
  | S n' => if connect i then Some O else option_map S (first_success n' connect (S i))
  end.

End Startup.

(** ** The registry of models and commands: [POST /api/models],
    [PUT /api/models/:id], [POST /api/commands], [PUT /api/commands/:id]
    and [DELETE /api/commands/:id] *)
Module Registry.
Import Js Store.

(** *** What the store refuses, and the code it refuses it with *)

Definition unique_violation (constraint : string) : exn :=
  StoreError ("duplicate key value violates unique constraint "
              ++ dquote ++ constraint ++ dquote).

Definition missing_model_of_command : exn :=
  StoreError "insert or update on table commands violates foreign key constraint commands_model_id_fkey".

(** [error.code === '23505']: whether the exception is a unique violation
    of the store.  An exception of the engine has no [code]; an error of
    the store carries its SQLSTATE, and the model, whose errors are their
    messages, tells this one by how PostgreSQL words it. *)
Definition is_unique_violation (error : exn) : bool :=
  match error with
  | TypeError _ => false
  | StoreError m => String.prefix "duplicate key value violates unique constraint" m
  end.

(** *** The statements on [device_models] *)

(** [UNIQUE] of [device_models.name]: whether a row, other than the row
    [except], has the name. *)
Definition name_taken (n : string) (except : option Z) (d : db) : bool :=
  existsb (fun row : Z * device_model =>
             String.eqb (dm_name (snd row)) n
             && match except with
                | Some k => negb (fst row =? k)
                | None => true
                end)
    (map_to_list (device_models d)).

(** [INSERT INTO device_models (name, description, created_at) VALUES ($1,
    $2, NOW()) RETURNING *]; [fresh] is the [id] the sequence hands out.
    [name] is [VARCHAR(100) UNIQUE NOT NULL], [id] the primary key. *)
Definition insert_device_model (fresh : Z) (name : string) (description : option string)
    (d : db) : outcome (list (Z * device_model)) * db :=
  match varchar 100 name with
  | Throw e => (Throw e, d)
  | Return name' =>
      match device_models d !! fresh with
      | Some _ => (Throw (unique_violation "device_models_pkey"), d)
      | None =>
          if name_taken name' None d
          then (Throw (unique_violation "device_models_name_key"), d)
          else
            let m := {| dm_name := name'; dm_description := description |} in
            (Return [(fresh, m)],
             {| device_models := <[fresh := m]> (device_models d);
                commands := commands d;
                sms_history := sms_history d |})
      end
  end.

(** [UPDATE device_models SET name = $1, description = $2, updated_at =
    NOW() WHERE id = $3 RETURNING *]. *)
Definition update_device_model `{Postgres} (name : string) (description : option string)
    (id : json) (d : db) : outcome (list (Z * device_model)) * db :=
  match int4_value id, varchar 100 name with
  | Throw e, _ => (Throw e, d)
  | _, Throw e => (Throw e, d)
  | Return None, Return _ => (Return [], d)
  | Return (Some k), Return name' =>
      match device_models d !! k with
      | None => (Return [], d)
      | Some _ =>
          if name_taken name' (Some k) d
          then (Throw (unique_violation "device_models_name_key"), d)
          else
            let m := {| dm_name := name'; dm_description := description |} in
            (Return [(k, m)],
             {| device_models := <[k := m]> (device_models d);
                commands := commands d;
                sms_history := sms_history d |})
      end
  end.

(** [SELECT id FROM device_models WHERE id = $1]. *)
Definition select_model_id `{Postgres} (id : json) (d : db) : outcome (list Z) * db :=
  match int4_value id with
  | Throw e => (Throw e, d)
  | Return None => (Return [], d)
  | Return (Some k) =>
      (Return match device_models d !! k with
              | Some _ => [k]
              | None => []
              end, d)
  end.

(** *** The statements on [commands] *)

(** [UNIQUE(model_id, command_text)]: two rows with the text and the model
    of each other; a null [model_id] equals none. *)
Definition same_key (a b : command) : bool :=
  String.eqb (c_command_text a) (c_command_text b)
  && match c_model_id a, c_model_id b with
     | Some x, Some y => x =? y
     | _, _ => false
     end.

Definition has_id (k : Z) (c : command) : bool := c_id c =? k.

(** [INSERT INTO commands (model_id, command_text, description, created_at)
    VALUES ($1, $2, $3, NOW()) RETURNING *]. *)
Definition insert_command `{Postgres} (fresh : Z) (modelId : json) (text : string)
    (description : option string) (d : db) : outcome (list command) * db :=
  match int4_value modelId, varchar 255 text with
  | Throw e, _ => (Throw e, d)
  | _, Throw e => (Throw e, d)
  | Return k, Return text' =>
      let c := {| c_id := fresh; c_model_id := k; c_command_text := text';
                  c_description := description |} in
      if existsb (has_id fresh) (commands d)
      then (Throw (unique_violation "commands_pkey"), d)
      else if existsb (same_key c) (commands d)
      then (Throw (unique_violation "commands_model_id_command_text_key"), d)
      else if negb (model_exists d k) then (Throw missing_model_of_command, d)
      else (Return [c],
            {| device_models := device_models d;
               commands := (commands d ++ [c])%list;
               sms_history := sms_history d |})
  end.

(** A row of [commands] with [command_text] and [description] set. *)
Definition rewritten (text : string) (description : option string) (c : command) : command :=
  {| c_id := c_id c; c_model_id := c_model_id c; c_command_text := text;
     c_description := description |}.

(** [UPDATE commands SET command_text = $1, description = $2, updated_at =
    NOW() WHERE id = $3 RETURNING *]. *)
Definition update_command `{Postgres} (text : string) (description : option string)
    (id : json) (d : db) : outcome (list command) * db :=
  match int4_value id, varchar 255 text with
  | Throw e, _ => (Throw e, d)
  | _, Throw e => (Throw e, d)
  | Return None, Return _ => (Return [], d)
  | Return (Some k), Return text' =>
      if existsb (fun c => has_id k c
                           && existsb (fun other => negb (has_id k other)
                                                    && same_key (rewritten text' description c) other)
                                (commands d))
           (commands d)
      then (Throw (unique_violation "commands_model_id_command_text_key"), d)
      else (Return (map (rewritten text' description) (List.filter (has_id k) (commands d))),
            {| device_models := device_models d;
               commands := map (fun c => if has_id k c then rewritten text' description c else c)
                             (commands d);
               sms_history := sms_history d |})
  end.

(** [DELETE FROM commands WHERE id = $1 RETURNING *]. *)
Definition delete_command `{Postgres} (id : json) (d : db) : outcome (list command) * db :=
  match int4_value id with
  | Throw e => (Throw e, d)
  | Return None => (Return [], d)
  | Return (Some k) =>
      (Return (List.filter (has_id k) (commands d)),
       {| device_models := device_models d;
          commands := List.filter (fun c => negb (has_id k c)) (commands d);
          sms_history := sms_history d |})
  end.

(** *** The handlers *)

(** [req.body] of the two model routes and of the two command routes.  A
    description, when present, is a string. *)
Record model_body : Type := {
  name : field json;
  description : field string
}.

Record command_body : Type := {
  modelId : field json;
  commandText : field json;
  commandDescription : field string
}.

(** The responses, by status; [data] is [result.rows[0]]. *)
Inductive response (A : Type) : Type :=
| BadRequest (error : string)
| NotFound (error : string)
| Conflict (error : string)
| Created (message : string) (data : option A)
| Done (message : string) (data : option A)
| InternalError (error : string).
Arguments BadRequest {A} error.
Arguments NotFound {A} error.
Arguments Conflict {A} error.
Arguments Created {A} message data.
Arguments Done {A} message data.
Arguments InternalError {A} error.

Definition status_code {A : Type} (r : response A) : Z :=
  match r with
  | BadRequest _ => 400
  | NotFound _ => 404
  | Conflict _ => 409
  | Created _ _ => 201
  | Done _ _ => 200
  | InternalError _ => 500
  end.

(** The end of a handler: the answer of the block that ran. *)
Definition answer {A : Type} (failed : string) (run : outcome (response A) * db)
  : response A * db :=
  match run with
  | (Return r, d) => (r, d)
  | (Throw _, d) => (InternalError failed, d)
  end.

(** [POST /api/models].  The two calls [name.trim()] of the source give
    the same text. *)
Definition post_model_handler (fresh : Z) (b : model_body)
  : prog db (response (Z * device_model)) :=
  try_catch
    (match name b with
     | Some n =>
         if negb (truthy n) then ret (BadRequest "Model name is required")
         else
           let* trimmed := lift (call_trim "name" n) in
           if (String.length trimmed =? 0)%nat then ret (BadRequest "Model name is required")
           else
             let* result := insert_device_model fresh trimmed
                              (Send.or_null (description b)) in
             ret (Created "Model added successfully" (head result))
     | None => ret (BadRequest "Model name is required")
     end)
    (fun error =>
       if is_unique_violation error then ret (Conflict "Model name already exists")
       else ret (InternalError "Failed to add model")).

Definition post_model (fresh : Z) (b : model_body) (d : db)
  : response (Z * device_model) * db :=
  answer "Failed to add model" (post_model_handler fresh b d).

(** [PUT /api/models/:id]; [id] is [req.params.id], a string. *)
Definition put_model_handler `{Postgres} (id : string) (b : model_body)
  : prog db (response (Z * device_model)) :=
  try_catch
    (match name b with
     | Some n =>
         if negb (truthy n) then ret (BadRequest "Model name is required")
         else
           let* trimmed := lift (call_trim "name" n) in
           if (String.length trimmed =? 0)%nat then ret (BadRequest "Model name is required")
           else
             let* result := update_device_model trimmed (Send.or_null (description b))
                              (JStr id) in
             match result with
             | [] => ret (NotFound "Model not found")
             | row :: _ => ret (Done "Model updated successfully" (Some row))
             end
     | None => ret (BadRequest "Model name is required")
     end)
    (fun error =>
       if is_unique_violation error then ret (Conflict "Model name already exists")
       else ret (InternalError "Failed to update model")).

Definition put_model `{Postgres} (id : string) (b : model_body) (d : db)
  : response (Z * device_model) * db :=
  answer "Failed to update model" (put_model_handler id b d).

(** [POST /api/commands]. *)
Definition post_command_handler `{Postgres} (fresh : Z) (b : command_body)
  : prog db (response command) :=
  try_catch
    (match modelId b, commandText b with
     | Some m, Some c =>
         if negb (truthy m) || negb (truthy c)
         then ret (BadRequest "Model ID and command text are required")
         else
           let* trimmed := lift (call_trim "commandText" c) in
           if (String.length trimmed =? 0)%nat
           then ret (BadRequest "Model ID and command text are required")
           else
             let* modelCheck := select_model_id m in
             match modelCheck with
             | [] => ret (NotFound "Model not found")
             | _ :: _ =>
                 let* result := insert_command fresh m trimmed
                                  (Send.or_null (commandDescription b)) in
                 ret (Created "Command added successfully" (head result))
             end
     | _, _ => ret (BadRequest "Model ID and command text are required")
     end)
    (fun error =>
       if is_unique_violation error then ret (Conflict "Command already exists for this model")
       else ret (InternalError "Failed to add command")).

Definition post_command `{Postgres} (fresh : Z) (b : command_body) (d : db)
  : response command * db :=
  answer "Failed to add command" (post_command_handler fresh b d).

(** [PUT /api/commands/:id]; its [catch] has one answer. *)
Definition put_command_handler `{Postgres} (id : string) (b : command_body)
  : prog db (response command) :=
  try_catch
    (match commandText b with
     | Some c =>
         if negb (truthy c) then ret (BadRequest "Command text is required")
         else
           let* trimmed := lift (call_trim "commandText" c) in
           if (String.length trimmed =? 0)%nat then ret (BadRequest "Command text is required")
           else
             let* result := update_command trimmed (Send.or_null (commandDescription b))
                              (JStr id) in
             match result with
             | [] => ret (NotFound "Command not found")
             | row :: _ => ret (Done "Command updated successfully" (Some row))
             end
     | None => ret (BadRequest "Command text is required")
     end)
    (fun error => ret (InternalError "Failed to update command")).

Definition put_command `{Postgres} (id : string) (b : command_body) (d : db)
  : response command * db :=
  answer "Failed to update command" (put_command_handler id b d).

(** [DELETE /api/commands/:id]. *)
Definition delete_command_handler `{Postgres} (id : string) : prog db (response command) :=
  try_catch
    (let* result := delete_command (JStr id) in
     match result with
     | [] => ret (NotFound "Command not found")
     | row :: _ => ret (Done "Command deleted successfully" (Some row))
     end)
    (fun error => ret (InternalError "Failed to delete command")).

Definition delete_command_request `{Postgres} (id : string) (d : db)
  : response command * db :=
  answer "Failed to delete command" (delete_command_handler id d).

End Registry.

(** ** The listings of the registry: [GET /api/models],
    [GET /api/models/:modelId/commands] and [GET /api/commands] *)
Module Listings.
Import Js Store.

(** What the listings take from PostgreSQL as given: the order
    [ORDER BY] puts rows in by text columns, under the collation of the
    database.  [key] gives the columns of the clause. *)
Class Collation : Type := {
  order_by_text : forall A : Type, (A -> list string) -> list A -> list A;
  order_by_text_permutation :
    forall (A : Type) (key : A -> list string) (l : list A),
      Permutation (order_by_text A key l) l
}.
Arguments order_by_text {_ A} key l.

(** *** [parseInt] *)

(** The value of a digit in the radix 10 or 16. *)
Definition digit_of (radix : Z) (a : ascii) : option Z :=
  let c := Z.of_N (code a) in
  if (48 <=? c) && (c <=? 57) then Some (c - 48)
  else if (radix =? 16) && (97 <=? c) && (c <=? 102) then Some (c - 87)
  else if (radix =? 16) && (65 <=? c) && (c <=? 70) then Some (c - 55)
  else None.

(** The digits at the head of a text. *)
Fixpoint leading (radix : Z) (s : string) : list Z :=
  match s with
  | EmptyString => []
  | String a r =>
      match digit_of radix a with
      | Some v => v :: leading radix r
      | None => []
      end
  end.

Definition is_x (a : ascii) : bool := ((code a =? 120) || (code a =? 88))%N.

(** [parseInt(s)] without a radix: white space, a sign, [0x] or [0X] for
    the radix 16, and the digits up to the first character that is none;
    [NaN] when there is no digit. *)
Definition parseInt (s : string) : number :=
  let t := trimStart s in
  let signed :=
    match t with
    | String a r =>
        if (code a =? 45)%N then (-1, r)
        else if (code a =? 43)%N then (1, r)
        else (1, t)
    | EmptyString => (1, t)
    end in
  let prefixed :=
    match snd signed with
    | String a (String x r) => if (code a =? 48)%N && is_x x then (16, r) else (10, snd signed)
    | _ => (10, snd signed)
    end in
  match leading (fst prefixed) (snd prefixed) with
  | [] => NaN
  | digits => Finite (fst signed * fold_left (fun acc v => acc * fst prefixed + v) digits 0)
  end.

(** *** The statements *)

(** A row of the first listing: [m.*] and [command_count], a [bigint],
    which the driver hands over as its decimal text. *)
Record model_item : Type := {
  mi_id : Z;
  mi_model : device_model;
  command_count : string
}.

(** A row of the other two: [c.*] and [m.name as model_name]. *)
Record command_item : Type := {
  ci_command : command;
  ci_model_name : string
}.

Definition of_model (k : Z) (c : command) : bool :=
  match c_model_id c with
  | Some m => m =? k
  | None => false
  end.

(** [SELECT m.*, COUNT(c.id) as command_count FROM device_models m LEFT
    JOIN commands c ON m.id = c.model_id GROUP BY m.id ORDER BY m.name]. *)
Definition select_models `{Collation} (d : db) : outcome (list model_item) * db :=
  (Return (order_by_text (fun r => [dm_name (mi_model r)])
             (map (fun row : Z * device_model =>
                     {| mi_id := fst row; mi_model := snd row;
                        command_count :=
                          show (Z.of_nat (length (List.filter (of_model (fst row))
                                                    (commands d)))) |})
                (map_to_list (device_models d)))), d).

(** The rows of [commands c JOIN device_models m ON c.model_id = m.id]
    for a command: one when its model is there, none otherwise. *)
Definition join_model (d : db) (c : command) : list command_item :=
  match c_model_id c with
  | Some k =>
      match device_models d !! k with
      | Some m => [{| ci_command := c; ci_model_name := dm_name m |}]
      | None => []
      end
  | None => []
  end.

(** [SELECT c.*, m.name as model_name FROM commands c JOIN device_models m
    ON c.model_id = m.id WHERE c.model_id = $1 ORDER BY c.command_text]. *)
Definition select_commands_of `{Postgres} `{Collation} (id : json) (d : db)
  : outcome (list command_item) * db :=
  match int4_value id with
  | Throw e => (Throw e, d)
  | Return None => (Return [], d)
  | Return (Some k) =>
      (Return (order_by_text (fun r => [c_command_text (ci_command r)])
                 (flat_map (join_model d) (List.filter (of_model k) (commands d)))), d)
  end.

(** [SELECT c.*, m.name as model_name FROM commands c JOIN device_models m
    ON c.model_id = m.id ORDER BY m.name, c.command_text]. *)
Definition select_commands `{Collation} (d : db) : outcome (list command_item) * db :=
  (Return (order_by_text (fun r => [ci_model_name r; c_command_text (ci_command r)])
             (flat_map (join_model d) (commands d))), d).

(** *** The handlers *)

Inductive response (A : Type) : Type :=
| Listed (data : list A) (count : Z) (modelId : field number)
| InternalError (error : string).
Arguments Listed {A} data count modelId.
Arguments InternalError {A} error.

Definition status_code {A : Type} (r : response A) : Z :=
  match r with
  | Listed _ _ _ => 200
  | InternalError _ => 500
  end.

Definition answer {A : Type} (failed : string) (run : outcome (response A) * db)
  : response A :=
  match run with
  | (Return r, _) => r
  | (Throw _, _) => InternalError failed
  end.

(** [GET /api/models]. *)
Definition get_models_handler `{Collation} : prog db (response model_item) :=
  try_catch
    (let* result := select_models in
     ret (Listed result (Z.of_nat (length result)) None))
    (fun error => ret (InternalError "Failed to fetch models")).

Definition get_models `{Collation} (d : db) : response model_item :=
  answer "Failed to fetch models" (get_models_handler d).

(** [GET /api/models/:modelId/commands]; [modelId] is
    [req.params.modelId], a string. *)
Definition get_commands_of_handler `{Postgres} `{Collation} (modelId : string)
  : prog db (response command_item) :=
  try_catch
    (let* result := select_commands_of (JStr modelId) in
     ret (Listed result (Z.of_nat (length result)) (Some (parseInt modelId))))
    (fun error => ret (InternalError "Failed to fetch commands")).

Definition get_commands_of `{Postgres} `{Collation} (modelId : string) (d : db)
  : response command_item :=
  answer "Failed to fetch commands" (get_commands_of_handler modelId d).

(** [GET /api/commands]. *)
Definition get_commands_handler `{Collation} : prog db (response command_item) :=
  try_catch
    (let* result := select_commands in
     ret (Listed result (Z.of_nat (length result)) None))
    (fun error => ret (InternalError "Failed to fetch commands")).

Definition get_commands `{Collation} (d : db) : response command_item :=
  answer "Failed to fetch commands" (get_commands_handler d).

End Listings.

(** ** The history listing: [GET /api/sms/history] *)
Module History.
Import Js Double Store.

(** [req.query], destructured.  A parameter, when present, is a string (a
    parameter given once, without brackets): a filter, and [page] and
    [limit] as well. *)
Record query : Type := {
  page : field string;
  limit : field string;
  status : field string;
  modelId : field string;
  phoneNumber : field string;
  dateFrom : field string;
  dateTo : field string;
  search : field string
}.

(** The three variables the handler builds the clause in. *)
Record builder : Type := {
  conditions : list condition;
  params : list param;
  paramCount : nat
}.

Definition start : builder := {| conditions := []; params := []; paramCount := 0 |}.

(** One [if (v) { paramCount++; conditions.push(...); params.push(...) }]
    block: [t] is the test it pushes, [value] what it binds for [v]. *)
Definition push (t : column_test) (value : string -> string) (v : field string) (b : builder)
  : builder :=
  match v with
  | Some s =>
      if truthy_text v then
        let n := S (paramCount b) in
        {| conditions := (conditions b ++ [{| test := t; placeholder := n |}])%list;
           params := (params b ++ [PText (value s)])%list;
           paramCount := n |}
      else b
  | None => b
  end.

Definition as_is (s : string) : string := s.

(** [`%${s}%`]. *)
Definition contains (s : string) : string := "%" ++ s ++ "%".

(** The six blocks, in the order of the source. *)
Definition build (q : query) : builder :=
  push SearchLike contains (search q)
    (push SentTo as_is (dateTo q)
       (push SentFrom as_is (dateFrom q)
          (push PhoneLike contains (phoneNumber q)
             (push ModelIdEq as_is (modelId q)
                (push StatusEq as_is (status q) start))))).

(** [whereClause]. *)
Definition whereClause (b : builder) : string :=
  if (0 <? length (conditions b))%nat
  then "WHERE " ++ join " AND " (map sql (conditions b))
  else "".

(** [page] and [limit] after [const { page = 1, limit = 50, ... } =
    req.query]: the text of the request or, without one, the default, which
    is a number.  The handler reads such a value three times over.

    [ToNumber] of it, for [-], [*], [/], [<] and [>]. *)
Definition as_number `{Arithmetic} (v : field string) (default : Z) : double :=
  match v with
  | Some s => StringToNumber s
  | None => of_integer default
  end.

(** What the driver sends for it in the parameter array: a string as it
    is, a number as its [toString]. *)
Definition as_parameter `{Arithmetic} (v : field string) (default : Z) : param :=
  match v with
  | Some s => PText s
  | None => PText (toString (of_integer default))
  end.

(** [parseInt] of it; of a number, [parseInt] reads the [toString]. *)
Definition as_integer `{Arithmetic} (v : field string) (default : Z) : number :=
  match v with
  | Some s => Listings.parseInt s
  | None => Listings.parseInt (toString (of_integer default))
  end.

Record pagination `{Arithmetic} : Type := {
  p_page : number;
  p_limit : number;
  total : Z;
  pages : double;
  hasNext : bool;
  hasPrev : bool
}.

(** The page, with the request it answers (the source echoes its six
    filters), or the 500 answer. *)
Inductive response `{Arithmetic} : Type :=
| Listing (data : list history_item) (pages : pagination) (filters : query)
| InternalError (error : string).

(** The handler.  [total] is [parseInt] of the decimal text of a count. *)
Definition handler `{Postgres} `{Arithmetic} (q : query) : prog db response :=
  try_catch
    (let offset :=
       times (minus (as_number (page q) 1) (of_integer 1)) (as_number (limit q) 50) in
     let b := build q in
     let all_params :=
       (params b ++ [as_parameter (limit q) 50; PText (toString offset)])%list in
     let limitParam := (paramCount b + 1)%nat in
     let offsetParam := (paramCount b + 2)%nat in
     let* result := select_history (whereClause b) limitParam offsetParam all_params in
     let* total := count_history (whereClause b) (take (paramCount b) all_params) in
     ret (Listing result
            {| p_page := as_integer (page q) 1;
               p_limit := as_integer (limit q) 50;
               total := total;
               pages := ceil (over (of_integer total) (as_number (limit q) 50));
               hasNext := less (times (as_number (page q) 1) (as_number (limit q) 50))
                               (of_integer total);
               hasPrev := less (of_integer 1) (as_number (page q) 1) |}
            q))
    (fun error => ret (InternalError "Failed to fetch SMS history")).

Definition get `{Postgres} `{Arithmetic} (q : query) (d : db) : response :=
  match handler q d with
  | (Return r, _) => r
  | (Throw e, _) => InternalError "Failed to fetch SMS history"
  end.

End History.

(** ** The legacy table: [POST /api/sms] and [scripts/init-db.js] *)
Module Legacy.
Import Js Store.

(** [sms_messages], without its two timestamps. *)
Record sms_message : Type := {
  m_id : Z;
  m_phone : string;
  m_message : string;
  m_sender : option string;
  m_status : option string
}.

Definition has_id (k : Z) (m : sms_message) : bool := m_id m =? k.

(** [INSERT INTO sms_messages (phone, message, sender, created_at) VALUES
    ($1, $2, $3, NOW()) RETURNING *]: [phone] is [VARCHAR(20)], [sender]
    is [VARCHAR(100)], [status] defaults to 'sent'. *)
Definition insert_sms_message (fresh : Z) (phone message sender : string)
    (t : list sms_message) : outcome (list sms_message) * list sms_message :=
  match varchar 20 phone, varchar 100 sender with
  | Throw e, _ => (Throw e, t)
  | _, Throw e => (Throw e, t)
  | Return phone', Return sender' =>
      if existsb (has_id fresh) t
      then (Throw (Registry.unique_violation "sms_messages_pkey"), t)
      else
        let row := {| m_id := fresh; m_phone := phone'; m_message := message;
                      m_sender := Some sender'; m_status := Some "sent" |} in
        (Return [row], (t ++ [row])%list)
  end.

(** [req.body] of the route; a property, when present, is a string. *)
Record body : Type := {
  phone : field string;
  message : field string;
  sender : field string
}.

Inductive response : Type :=
| BadRequest (error : string)
| Created (message : string) (data : option sms_message)
| InternalError (error : string).

Definition status_code (r : response) : Z :=
  match r with
  | BadRequest _ => 400
  | Created _ _ => 201
  | InternalError _ => 500
  end.

(** [sender || 'system']. *)
Definition or_system (v : field string) : string :=
  match v with
  | Some s => if String.eqb s "" then "system" else s
  | None => "system"
  end.

(** [POST /api/sms]. *)
Definition handler (fresh : Z) (b : body) : prog (list sms_message) response :=
  try_catch
    (match phone b, message b with
     | Some p, Some m =>
         if negb (truthy_text (Some p)) || negb (truthy_text (Some m))
         then ret (BadRequest "Phone and message are required")
         else
           let* result := insert_sms_message fresh p m (or_system (sender b)) in
           ret (Created "SMS sent successfully" (head result))
     | _, _ => ret (BadRequest "Phone and message are required")
     end)
    (fun error => ret (InternalError "Failed to send SMS")).

Definition post (fresh : Z) (b : body) (t : list sms_message)
  : response * list sms_message :=
  match handler fresh b t with
  | (Return r, t') => (r, t')
  | (Throw _, t') => (InternalError "Failed to send SMS", t')
  end.

(** *** [scripts/init-db.js] *)

(** The rows of its [INSERT INTO sms_messages (phone, message, sender)]. *)
Definition sample_messages : list (string * string * string) :=
  [("+5511999999999", "Welcome to SMS App!", "system");
   ("+5511888888888", "Your account has been created successfully.", "system")].

(** The rows of an [INSERT ... ON CONFLICT DO NOTHING], from the row [i]
    on.  The primary key is the one unique index of the table: a row is
    passed over when its [id] is in use.  (The texts are literals that fit
    their columns.) *)
Fixpoint rows_or_nothing (rows : list (string * string * string)) (i : nat) (ids : nat -> Z)
    (t : list sms_message) : list sms_message :=
  match rows with
  | [] => t
  | (p, m, s) :: rest =>
      if existsb (has_id (ids i)) t then rows_or_nothing rest (S i) ids t
      else
        rows_or_nothing rest (S i) ids
          (t ++ [{| m_id := ids i; m_phone := p; m_message := m; m_sender := Some s;
                    m_status := Some "sent" |}])%list
  end.

(** [initDatabase], on a store that has the table: the count that its
    second [console.log] prints ([COUNT( * )] is a [bigint], handed over as
    its decimal text) and the table it leaves.  None of its statements
    fails, so that its [catch] is not reached. *)
Definition initDatabase (ids : nat -> Z) (t : list sms_message) : string * list sms_message :=
  let seeded := rows_or_nothing sample_messages 0 ids t in
  (show (Z.of_nat (length seeded)), seeded).

(** [n] runs of the script, the run [r] with the ids [ids r]. *)
Fixpoint runs (n : nat) (ids : nat -> nat -> Z) (r : nat) (t : list sms_message)
  : list sms_message :=
  match n with
  | O => t
  | S n' => runs n' ids (S r) (snd (initDatabase (ids r) t))
  end.

End Legacy.

(** ** The sample data of [initializeDatabase] *)
Module Seed.
Import Js Store Registry.

(** A character of the source above the ASCII range, by its code unit. *)
Definition latin (n : nat) : string := String (ascii_of_nat n) EmptyString.

(** The rows of the [INSERT INTO device_models]. *)
Definition sample_models : list (string * string) :=
  [("TK103", "Rastreador GPS TK103 - Modelo b" ++ latin 225 ++ "sico");
   ("TK102", "Rastreador GPS TK102 - Modelo compacto");
   ("GT06", "Rastreador GPS GT06 - Modelo avan" ++ latin 231 ++ "ado");
   ("ST901", "Rastreador GPS ST901 - Modelo profissional");
   ("TK303", "Rastreador GPS TK303 - Modelo veicular");
   ("GT02A", "Rastreador GPS GT02A - Modelo pessoal")].

Definition sampleCommands : list (string * list string) :=
  [("TK103", ["RESET123456"; "STATUS123456"; "GPRS123456"; "APN123456"]);
   ("TK102", ["begin123456"; "end123456"; "check123456"; "fix060s123456"]);
   ("GT06", ["RESET#"; "STATUS#"; "GPRS#"; "SERVER#"]);
   ("ST901", ["*123456*000#"; "*123456*001#"; "*123456*002#"; "*123456*003#"])].

(** What the two sequences hand out during a run: the [id] for the row
    [i] of the model statement, and the [id] for the command [i] of the
    sample [j]. *)
Record sequences : Type := {
  model_ids : nat -> Z;
  command_ids : nat -> nat -> Z
}.

(** The rows of an [INSERT INTO device_models (name, description) VALUES
    ... ON CONFLICT (name) DO NOTHING], from the row [i] on: a row whose
    name a model has is passed over, the others are inserted with the [id]
    of their turn.  (The names are literals that fit the column.) *)
Fixpoint values_or_nothing (rows : list (string * string)) (i : nat) (ids : nat -> Z)
    (d : db) : outcome db :=
  match rows with
  | [] => Return d
  | (n, description) :: rest =>
      if name_taken n None d then values_or_nothing rest (S i) ids d
      else
        match device_models d !! ids i with
        | Some _ => Throw (unique_violation "device_models_pkey")
        | None =>
            values_or_nothing rest (S i) ids
              {| device_models :=
                   <[ids i := {| dm_name := n; dm_description := Some description |}]>
                     (device_models d);
                 commands := commands d;
                 sms_history := sms_history d |}
        end
  end.

(** The statement: all of its rows, or none when one of them is refused. *)
Definition insert_sample_models (ids : nat -> Z) (d : db) : outcome unit * db :=
  match values_or_nothing sample_models 0 ids d with
  | Return d' => (Return tt, d')
  | Throw e => (Throw e, d)
  end.

(** [SELECT id FROM device_models WHERE name = $1]. *)
Definition select_id_by_name (n : string) (d : db) : outcome (list Z) * db :=
  (Return (map fst (List.filter (fun row : Z * device_model => String.eqb (dm_name (snd row)) n)
                      (map_to_list (device_models d)))), d).

(** [INSERT INTO commands (model_id, command_text, description) VALUES ($1,
    $2, $3) ON CONFLICT (model_id, command_text) DO NOTHING]. *)
Definition insert_command_or_nothing (fresh modelId : Z) (text description : string)
    (d : db) : outcome unit * db :=
  match varchar 255 text with
  | Throw e => (Throw e, d)
  | Return text' =>
      let c := {| c_id := fresh; c_model_id := Some modelId; c_command_text := text';
                  c_description := Some description |} in
      if existsb (same_key c) (commands d) then (Return tt, d)
      else if existsb (has_id fresh) (commands d)
      then (Throw (unique_violation "commands_pkey"), d)
      else if negb (model_exists d (Some modelId)) then (Throw missing_model_of_command, d)
      else (Return tt,
            {| device_models := device_models d;
               commands := (commands d ++ [c])%list;
               sms_history := sms_history d |})
  end.

(** [for (const command of commands) { ... }], from the command [i] on. *)
Fixpoint seed_commands (ids : nat -> Z) (model : string) (modelId : Z)
    (commands : list string) (i : nat) : prog db unit :=
  match commands with
  | [] => ret tt
  | command :: rest =>
      let* _ := insert_command_or_nothing (ids i) modelId command
                  ("Comando " ++ command ++ " para " ++ model) in
      seed_commands ids model modelId rest (S i)
  end.

(** [for (const { model, commands } of sampleCommands) { ... }], from the
    sample [j] on. *)
Fixpoint seed_samples (ids : nat -> nat -> Z) (samples : list (string * list string))
    (j : nat) : prog db unit :=
  match samples with
  | [] => ret tt
  | (model, commands) :: rest =>
      let* modelResult := select_id_by_name model in
      let* _ := match modelResult with
                | modelId :: _ => seed_commands (ids j) model modelId commands 0
                | [] => ret tt
                end in
      seed_samples ids rest (S j)
  end.

(** [initializeDatabase], on a store that has the tables: the statements
    [CREATE TABLE IF NOT EXISTS] and [CREATE INDEX IF NOT EXISTS] leave it
    as it is.  The [catch] throws the error again. *)
Definition initializeDatabase (s : sequences) : prog db unit :=
  try_catch
    (let* _ := insert_sample_models (model_ids s) in
     seed_samples (command_ids s) sampleCommands 0)
    (fun error => throw error).

End Seed.

(** ** What the properties of a send with the stub are stated with *)
Module StubSpec.
Import Js Store Send.

(** Whether the call of the stub at position [i] delivers: its draw is
    above the double 0.1. *)
Definition delivers (draws_at : nat -> Dispatch.draws) (i : nat) : bool :=
  negb (Qle_bool (Dispatch.random_outcome (draws_at i)) Dispatch.one_tenth).

(** The number of the [n] calls from position [i] on that deliver. *)
Definition delivered_among (draws_at : nat -> Dispatch.draws) (i n : nat) : Z :=
  Z.of_nat (length (List.filter (delivers draws_at) (seq i n))).

End StubSpec.

(** ** What the properties of the registry are stated with *)
Module RegistrySpec.
Import Js Store Registry.

(** No two models of a name. *)
Definition unique_names (d : db) : Prop :=
  forall (i j : Z) (a b : device_model),
    device_models d !! i = Some a -> device_models d !! j = Some b ->
    dm_name a = dm_name b -> i = j.

(** A name as the handlers hand it to the store: not empty, and with no
    white space at either end. *)
Definition trimmed (n : string) : Prop := n <> "" /\ trim n = n.

Definition trimmed_names (d : db) : Prop :=
  forall (k : Z) (m : device_model), device_models d !! k = Some m -> trimmed (dm_name m).

(** Every command and every history row that names a model names one of
    [device_models]. *)
Definition intact (d : db) : Prop :=
  Forall (fun c => model_exists d (c_model_id c) = true) (commands d)
  /\ Forall (fun h => model_exists d (model_id h) = true) (sms_history d).

(** A request the handler did not carry out. *)
Definition refused {A : Type} (r : response A) : bool :=
  match r with
  | Created _ _ => false
  | Done _ _ => false
  | _ => true
  end.

(** The store with the model [m] written at the key [k], and the store
    with [l] for its [commands]. *)
Definition with_model (k : Z) (m : device_model) (d : db) : db :=
  {| device_models := <[k := m]> (device_models d);
     commands := commands d; sms_history := sms_history d |}.

Definition with_commands (l : list command) (d : db) : db :=
  {| device_models := device_models d; commands := l; sms_history := sms_history d |}.

(** The row a model request names, and the row a command request names for
    the model [k]. *)
Definition model_named (s : string) (b : model_body) : device_model :=
  {| dm_name := trim s; dm_description := Send.or_null (description b) |}.

Definition command_written (fresh k : Z) (s : string) (b : command_body) : command :=
  {| c_id := fresh; c_model_id := Some k; c_command_text := trim s;
     c_description := Send.or_null (commandDescription b) |}.

(** Whether the row [k] of [commands], with the text [text], would have
    the model and the text of another row. *)
Definition collides (k : Z) (text : string) (description : option string) (d : db) : bool :=
  existsb (fun c => has_id k c
                    && existsb (fun other => negb (has_id k other)
                                             && same_key (rewritten text description c) other)
                         (commands d))
    (commands d).

(** [commands] with the row [k] rewritten, and without the row [k]. *)
Definition rewrite_at (k : Z) (text : string) (description : option string)
    (l : list command) : list command :=
  map (fun c => if has_id k c then rewritten text description c else c) l.

Definition without (k : Z) (l : list command) : list command :=
  List.filter (fun c => negb (has_id k c)) l.

(** The three properties of a store above, as tests. *)
Definition unique_names_check (d : db) : bool :=
  forallb (fun row : Z * device_model =>
             negb (name_taken (dm_name (snd row)) (Some (fst row)) d))
    (map_to_list (device_models d)).

Definition trimmed_names_check (d : db) : bool :=
  forallb (fun row : Z * device_model =>
             negb (String.eqb (dm_name (snd row)) "")
             && String.eqb (trim (dm_name (snd row))) (dm_name (snd row)))
    (map_to_list (device_models d)).

Definition intact_check (d : db) : bool :=
  forallb (fun c => model_exists d (c_model_id c)) (commands d)
  && forallb (fun h => model_exists d (model_id h)) (sms_history d).

End RegistrySpec.

(** ** What the properties of the listings are stated with *)
Module ListingsSpec.
Import Js Store Listings.

(** Whether the join with [device_models] keeps a command. *)
Definition joins (d : db) (c : command) : bool :=
  match join_model d c with
  | [] => false
  | _ :: _ => true
  end.

(** The key and the columns of a listed model. *)
Definition row_of (it : model_item) : Z * device_model := (mi_id it, mi_model it).

Definition data_of {A : Type} (r : response A) : list A :=
  match r with
  | Listed data _ _ => data
  | InternalError _ => []
  end.

End ListingsSpec.

(** ** A collation to run the listings with: the order of the code units *)
Module ByteOrder.
Import Js.

Fixpoint text_leb (a b : string) : bool :=
  match a, b with
  | EmptyString, _ => true
  | String _ _, EmptyString => false
  | String x r, String y r' =>
      if (code x <? code y)%N then true
      else if (code y <? code x)%N then false
      else text_leb r r'
  end.

(** The columns of an [ORDER BY] clause, one after the other. *)
Fixpoint keys_leb (a b : list string) : bool :=
  match a, b with
  | [], _ => true
  | _ :: _, [] => false
  | x :: r, y :: r' => if String.eqb x y then keys_leb r r' else text_leb x y
  end.

Fixpoint insert_by {A : Type} (key : A -> list string) (x : A) (l : list A) : list A :=
  match l with
  | [] => [x]
  | y :: r => if keys_leb (key x) (key y) then x :: l else y :: insert_by key x r
  end.

Definition sort_by {A : Type} (key : A -> list string) (l : list A) : list A :=
  fold_right (insert_by key) [] l.

End ByteOrder.

(** ** What the properties of the sample data are stated with *)
Module SeedSpec.
Import Js Store Registry Seed.

(** Whether a model has the name [n], and whether a command of such a
    model has the text. *)
Definition has_model (n : string) (d : db) : bool := name_taken n None d.

Definition has_command (model text : string) (d : db) : bool :=
  existsb (fun c => String.eqb (c_command_text c) text
                    && match c_model_id c with
                       | Some k =>
                           match device_models d !! k with
                           | Some m => String.eqb (dm_name m) model
                           | None => false
                           end
                       | None => false
                       end)
    (commands d).

(** The store has the six models and the sixteen commands. *)
Definition seeded (d : db) : bool :=
  forallb (fun row => has_model (fst row) d) sample_models
  && forallb (fun sample => forallb (fun text => has_command (fst sample) text d) (snd sample))
       sampleCommands.

(** What a run may do to a store: add models, append commands. *)
Definition grown (d d' : db) : Prop :=
  (forall k m, device_models d !! k = Some m -> device_models d' !! k = Some m)
  /\ (exists added, commands d' = (commands d ++ added)%list)
  /\ sms_history d' = sms_history d.

(** The key a sample's commands are looked for with: a command of the
    model [k] with the text. *)
Definition keyed (k : Z) (text : string) : command :=
  {| c_id := 0; c_model_id := Some k; c_command_text := text; c_description := None |}.

(** Nothing is left for a run to insert. *)
Definition settled_sample (d : db) (sample : string * list string) : bool :=
  match fst (select_id_by_name (fst sample) d) with
  | Return (k :: _) =>
      forallb (fun text => existsb (same_key (keyed k text)) (commands d)) (snd sample)
  | _ => true
  end.

Definition settled (d : db) : bool :=
  forallb (fun row => has_model (fst row) d) sample_models
  && forallb (settled_sample d) sampleCommands.

(** The two halves of [grown]: a store with models added, and a store with
    commands appended. *)
Definition more_models (d d' : db) : Prop :=
  commands d' = commands d /\ sms_history d' = sms_history d
  /\ forall k m, device_models d !! k = Some m -> device_models d' !! k = Some m.

Definition more_commands (d d' : db) : Prop :=
  device_models d' = device_models d /\ sms_history d' = sms_history d
  /\ exists added, commands d' = (commands d ++ added)%list.

(** The texts of the samples fit [command_text]. *)
Definition texts_fit (samples : list (string * list string)) : Prop :=
  Forall (fun sample => Forall (fun text => (String.length text <= 255)%nat) (snd sample))
    samples.

(** No command has the [id]. *)
Definition unused (z : Z) (d : db) : Prop := existsb (has_id z) (commands d) = false.

End SeedSpec.

(** ** What the properties are stated with *)

(** The send workflow, read number by number. *)
Module SendSpec.
Import Js Store Send.

(** A phone number the pattern accepts, after trimming. *)
Definition valid (number : string) : bool := phoneRegex_test (trim number).

Definition is_string (v : json) : bool :=
  match v with
  | JStr _ => true
  | _ => false
  end.

(** The store with rows appended to [sms_history]. *)
Definition add_rows (d : db) (rows : list sms_history_row) : db :=
  {| device_models := device_models d; commands := commands d;
     sms_history := (sms_history d ++ rows)%list |}.

(** What becomes of the number at position [i] of an accepted request,
    for the model [k] named [modelName]: its [try] block is left by an
    exception (of the dispatch stub, of the store, or for a command text
    the column refuses), or it stores a row and reports an entry. *)
Inductive fate : Type :=
| Failed (e : exn)
| Stored (entry : result_entry) (row : sms_history_row).

Definition fate_of (w : world) (k : Z) (commandText : string) (notes : field string)
    (modelName : string) (i : nat) (number : string) : fate :=
  match dispatch w i (trim number) commandText modelName with
  | Throw e => Failed e
  | Return r =>
      match fault (insertion_at w i) with
      | Some m => Failed (StoreError m)
      | None =>
          match varchar 255 (trim commandText) with
          | Throw e => Failed e
          | Return text' =>
              Stored
                {| r_phone := trim number; r_status := status_of r;
                   r_id := fresh_id (insertion_at w i); r_details := Dispatch.details r |}
                {| h_id := fresh_id (insertion_at w i); phone_number := trim number;
                   model_id := Some k; command_text := text'; status := status_of r;
                   sent_at := now (insertion_at w i);
                   h_details := or_null (Some (Dispatch.details r));
                   Store.notes := or_null notes; response_data := r |}
          end
      end
  end.

Fixpoint fates (w : world) (k : Z) (commandText : string) (notes : field string)
    (modelName : string) (i : nat) (numbers : list string) : list (string * fate) :=
  match numbers with
  | [] => []
  | number :: rest =>
      (number, fate_of w k commandText notes modelName i number)
      :: fates w k commandText notes modelName (S i) rest
  end.

Definition stored_entries (fs : list (string * fate)) : list result_entry :=
  flat_map (fun nf => match snd nf with Stored e _ => [e] | Failed _ => [] end) fs.

Definition stored_rows (fs : list (string * fate)) : list sms_history_row :=
  flat_map (fun nf => match snd nf with Stored _ r => [r] | Failed _ => [] end) fs.

Definition failures (fs : list (string * fate)) : list error_entry :=
  flat_map (fun nf => match snd nf with
                      | Failed e => [{| e_phone := trim (fst nf); e_error := message e |}]
                      | Stored _ _ => []
                      end) fs.

(** A request that passes validation and model resolution: a non-empty
    array of strings, each one valid, a model id that resolves to [model],
    and a command text that is a string with more than blanks. *)
Definition passes `{Postgres} (b : body) (d : db) (numbers : list string) (m : json)
    (text : string) (k : Z) (model : device_model) : Prop :=
  phoneNumbers b = Some (JArr (map JStr numbers)) /\
  numbers <> [] /\
  forallb valid numbers = true /\
  modelId b = Some m /\ truthy m = true /\
  commandText b = Some (JStr text) /\ trim text <> "" /\
  int4_value m = Return (Some k) /\
  device_models d !! k = Some model.

(** The number of [sms_history] rows a request created. *)
Definition rows_created (before : db) (after : state) : Z :=
  Z.of_nat (length (sms_history (store after))) - Z.of_nat (length (sms_history before)).

(** The number of entries of the [errors] property of a response. *)
Definition errors_reported (r : response) : Z :=
  match r with
  | Completed _ _ _ _ _ _ (Some errors) => Z.of_nat (length errors)
  | _ => 0
  end.

End SendSpec.

(** The model registry. *)
Module ModelsSpec.
Import Js Store Models.

(** The commands that reference the model [k]. *)
Definition commands_of (k : Z) (d : db) : list command :=
  List.filter (fun c => match c_model_id c with Some m => Z.eqb m k | None => false end)
    (commands d).

(** Whether some [sms_history] row references the model [k]. *)
Definition in_history (k : Z) (d : db) : bool := existsb (references k) (sms_history d).

End ModelsSpec.

(** The history listing: the clause as it is specified, and the clause as
    the store reads it. *)
Module HistorySpec.
Import Js Double Store History.

(** A filter the request supplies: a parameter that is present and not the
    empty string. *)
Definition one (t : column_test) (v : field string) : list (column_test * string) :=
  match v with
  | Some s => if truthy_text v then [(t, s)] else []
  | None => []
  end.

(** The filters a request supplies, each with its value. *)
Definition supplied (q : query) : list (column_test * string) :=
  one StatusEq (status q) ++ one ModelIdEq (modelId q) ++ one PhoneLike (phoneNumber q)
  ++ one SentFrom (dateFrom q) ++ one SentTo (dateTo q) ++ one SearchLike (search q).

(** What is bound for a filter: its value, within [%] for the two
    substring tests. *)
Definition bound_text (t : column_test) (s : string) : string :=
  match t with
  | PhoneLike | SearchLike => contains s
  | _ => s
  end.

(** The clauses of a list of filters: the test of each, on the
    placeholders [$n], [$n+1], ... *)
Fixpoint numbered (n : nat) (ts : list column_test) : list condition :=
  match ts with
  | [] => []
  | t :: r => {| test := t; placeholder := n |} :: numbered (S n) r
  end.

Definition clauses (fs : list (column_test * string)) : list condition :=
  numbered 1 (map fst fs).

Definition values (fs : list (column_test * string)) : list param :=
  map (fun f => PText (bound_text (fst f) (snd f))) fs.

(** The [AND] of the clauses; no text when there is none. *)
Definition conjunction (fs : list (column_test * string)) : string :=
  match fs with
  | [] => ""
  | _ => "WHERE " ++ join " AND " (map sql (clauses fs))
  end.

(** A builder that holds the clauses and the values of a list of filters. *)
Definition holds (b : builder) (fs : list (column_test * string)) : Prop :=
  conditions b = clauses fs /\ params b = values fs /\ paramCount b = length fs.

(** A filter of the request, read at the type of its column. *)
Definition read `{Postgres} (f : column_test * string) : outcome bound :=
  bind_condition [PText (bound_text (fst f) (snd f))] {| test := fst f; placeholder := 1 |}.

Fixpoint read_all `{Postgres} (fs : list (column_test * string)) : outcome (list bound) :=
  match fs with
  | [] => Return []
  | f :: r =>
      match read f with
      | Throw e => Throw e
      | Return b =>
          match read_all r with
          | Throw e => Throw e
          | Return bs => Return (b :: bs)
          end
      end
  end.

(** The text the handler binds to [LIMIT], and the one it binds to
    [OFFSET], the [toString] of [(page - 1) * limit]. *)
Definition limit_text `{Arithmetic} (q : query) : string :=
  param_text (as_parameter (limit q) 50).

Definition offset_text `{Arithmetic} (q : query) : string :=
  toString (times (minus (as_number (page q) 1) (of_integer 1)) (as_number (limit q) 50)).

(** The numbers the store reads in them. *)
Definition limit_of `{Postgres} `{Arithmetic} (q : query) : option Z :=
  integer_in (limit_text q).

Definition offset_of `{Postgres} `{Arithmetic} (q : query) : option Z :=
  integer_in (offset_text q).

(** A number the store takes for [LIMIT] or [OFFSET]. *)
Definition countable (z : Z) : bool := in_int8 z && (0 <=? z).

(** The page of a request whose filters the store has read as [bs], whose
    limit it has read as [l] and whose offset as [o]. *)
Definition listing `{Postgres} `{Arithmetic} (q : query) (d : db) (bs : list bound) (l o : Z)
  : response :=
  Listing
    (map to_item
       (take (Z.to_nat l) (drop (Z.to_nat o) (order_by_sent_at_desc (matching bs d)))))
    {| p_page := as_integer (page q) 1;
       p_limit := as_integer (limit q) 50;
       total := Z.of_nat (length (matching bs d));
       pages := ceil (over (of_integer (Z.of_nat (length (matching bs d))))
                           (as_number (limit q) 50));
       hasNext := less (times (as_number (page q) 1) (as_number (limit q) 50))
                       (of_integer (Z.of_nat (length (matching bs d))));
       hasPrev := less (of_integer 1) (as_number (page q) 1) |}
    q.

(** The request is for the page [p]: the arithmetic of the engine and
    [parseInt] both read [p] in [page] (1 when the request has none). *)
Definition page_is `{Arithmetic} (q : query) (p : Z) : Prop :=
  as_number (page q) 1 = of_integer p /\ as_integer (page q) 1 = Finite p.

(** The request is for pages of [l] rows: the arithmetic of the engine,
    [parseInt] and the store all read [l] in [limit] (50 when the request
    has none). *)
Definition limit_is `{Postgres} `{Arithmetic} (q : query) (l : Z) : Prop :=
  as_number (limit q) 50 = of_integer l /\ as_integer (limit q) 50 = Finite l /\
  limit_of q = Some l.

(** [q'] supplies every filter that [q] supplies, with the same value:
    [q'] is [q] with filters added. *)
Definition extends (q q' : query) : Prop :=
  forall f, In f (supplied q) -> In f (supplied q').

(** Rows by [sent_at], the latest first. *)
Definition latest_first (a b : history_item) : Prop := sent_at (item b) <= sent_at (item a).

(** What a supplied filter asks of a row of the listing. *)
Definition meets `{Postgres} (f : column_test * string) (it : history_item) : Prop :=
  let h := item it in
  match fst f with
  | StatusEq => Store.status h = snd f
  | ModelIdEq => exists k, integer_in (snd f) = Some k /\ model_id h = Some k
  | PhoneLike => ilike (phone_number h) ("%" ++ snd f ++ "%") = true
  | SentFrom => exists t, timestamp_in (snd f) = Some t /\ t <= sent_at h
  | SentTo => exists t, timestamp_in (snd f) = Some t /\ sent_at h <= t
  | SearchLike =>
      ilike (command_text h) ("%" ++ snd f ++ "%") = true
      \/ (exists n, notes h = Some n /\ ilike n ("%" ++ snd f ++ "%") = true)
      \/ (exists n, model_name it = Some n /\ ilike n ("%" ++ snd f ++ "%") = true)
  end.

(** The store can read the filters of the request that are not text: the
    model id as an [INTEGER], the two dates as timestamps. *)
Definition readable `{Postgres} (q : query) : Prop :=
  (forall s, In (ModelIdEq, s) (supplied q) ->
             exists k, integer_in s = Some k /\ in_int4 k = true) /\
  (forall s, In (SentFrom, s) (supplied q) -> exists t, timestamp_in s = Some t) /\
  (forall s, In (SentTo, s) (supplied q) -> exists t, timestamp_in s = Some t).

End HistorySpec.

(** ** A store to run the handlers on

    The parts of an instance of [Store.Postgres] for the examples: integers
    in decimal syntax, timestamps written as ISO dates ([YYYY-MM-DD], read
    as microseconds since 1970-01-01), [ILIKE] on the ASCII letters, and a
    stable sort; the parts of an instance of [Double.Arithmetic]; then
    sample tables, environments and requests. *)
Module Reference.
Import Js Store.

Definition digit_value (a : ascii) : Z := Z.of_N (code a) - 48.

Fixpoint digits_value (acc : Z) (l : list ascii) : Z :=
  match l with
  | [] => acc
  | a :: r => digits_value (10 * acc + digit_value a) r
  end.

Definition natural_in (l : list ascii) : option Z :=
  match l with
  | [] => None
  | _ => if forallb isDigit l then Some (digits_value 0 l) else None
  end.

(** An optional sign and digits, with blanks around them. *)
Definition decimal_in (s : string) : option Z :=
  match list_ascii_of_string (trim s) with
  | "-"%char :: r => option_map Z.opp (natural_in r)
  | "+"%char :: r => natural_in r
  | l => natural_in l
  end.

Definition leap (y : Z) : bool :=
  ((y mod 4 =? 0) && negb (y mod 100 =? 0)) || (y mod 400 =? 0).

Definition days_in_month (y m : Z) : Z :=
  if m =? 2 then (if leap y then 29 else 28)
  else if (m =? 4) || (m =? 6) || (m =? 9) || (m =? 11) then 30
  else 31.

(** Days from 1970-01-01 to the civil date. *)
Definition days_from_civil (y m d : Z) : Z :=
  let y' := if m <=? 2 then y - 1 else y in
  let era := y' / 400 in
  let yoe := y' - era * 400 in
  let doy := (153 * (if 2 <? m then m - 3 else m + 9) + 2) / 5 + d - 1 in
  let doe := yoe * 365 + yoe / 4 - yoe / 100 + doy in
  era * 146097 + doe - 719468.

Definition date_in (s : string) : option Z :=
  match list_ascii_of_string s with
  | [y1; y2; y3; y4; "-"%char; m1; m2; "-"%char; d1; d2] =>
      if forallb isDigit [y1; y2; y3; y4; m1; m2; d1; d2] then
        let y := digits_value 0 [y1; y2; y3; y4] in
        let m := digits_value 0 [m1; m2] in
        let d := digits_value 0 [d1; d2] in
        if (1 <=? m) && (m <=? 12) && (1 <=? d) && (d <=? days_in_month y m)
        then Some (days_from_civil y m d * 86400000000)
        else None
      else None
  | _ => None
  end.

Definition lower (a : ascii) : ascii :=
  let c := code a in
  if ((65 <=? c) && (c <=? 90))%N then ascii_of_N (c + 32) else a.

(** [LIKE]: [%] is any run, [_] any one character, a backslash takes the
    next character as it is. *)
Fixpoint like (pattern text : list ascii) : bool :=
  match pattern with
  | [] => match text with [] => true | _ => false end
  | "%"%char :: p =>
      (fix any (t : list ascii) : bool :=
         like p t || match t with [] => false | _ :: t' => any t' end) text
  | "_"%char :: p => match text with [] => false | _ :: t => like p t end
  | "\"%char :: c :: p =>
      match text with [] => false | a :: t => Ascii.eqb a c && like p t end
  | c :: p =>
      match text with [] => false | a :: t => Ascii.eqb a c && like p t end
  end.

Definition ilike_ascii (text pattern : string) : bool :=
  like (map lower (list_ascii_of_string pattern)) (map lower (list_ascii_of_string text)).

Fixpoint insert_desc (x : joined) (l : list joined) : list joined :=
  match l with
  | [] => [x]
  | y :: r => if sent_at (fst y) <=? sent_at (fst x) then x :: l else y :: insert_desc x r
  end.

Definition sort_desc (l : list joined) : list joined := fold_right insert_desc [] l.

(** *** An engine: the fractions, exact

    The numbers of this engine are the fractions and the two infinities;
    its operations round nothing.  On the safe integers it computes what a
    JavaScript engine computes. *)

Inductive exact : Type :=
| Fraction (q : Q)
| Infinite (negative : bool)
| NotANumber.

Definition integer (z : Z) : exact := Fraction (z # 1).

Definition is_zero (q : Q) : bool := Qnum q =? 0.

Definition is_negative (q : Q) : bool := Qnum q <? 0.

Definition exact_minus (x y : exact) : exact :=
  match x, y with
  | Fraction a, Fraction b => Fraction (a - b)
  | Fraction _, Infinite s => Infinite (negb s)
  | Infinite s, Fraction _ => Infinite s
  | Infinite s, Infinite t => if Bool.eqb s t then NotANumber else Infinite s
  | _, _ => NotANumber
  end.

Definition exact_times (x y : exact) : exact :=
  match x, y with
  | Fraction a, Fraction b => Fraction (a * b)
  | Fraction a, Infinite s | Infinite s, Fraction a =>
      if is_zero a then NotANumber else Infinite (xorb s (is_negative a))
  | Infinite s, Infinite t => Infinite (xorb s t)
  | _, _ => NotANumber
  end.

Definition exact_over (x y : exact) : exact :=
  match x, y with
  | Fraction a, Fraction b =>
      if is_zero b then (if is_zero a then NotANumber else Infinite (is_negative a))
      else Fraction (a / b)
  | Fraction _, Infinite _ => integer 0
  | Infinite s, Fraction b => Infinite (xorb s (is_negative b))
  | _, _ => NotANumber
  end.

Definition exact_ceil (x : exact) : exact :=
  match x with
  | Fraction q => integer (- (- Qnum q / Z.pos (Qden q)))
  | _ => x
  end.

Definition exact_less (x y : exact) : bool :=
  match x, y with
  | Fraction a, Fraction b => negb (Qle_bool b a)
  | Fraction _, Infinite s => negb s
  | Infinite s, Fraction _ => s
  | Infinite s, Infinite t => s && negb t
  | _, _ => false
  end.

(** An integer in the decimal digits; a fraction that is none as its two
    integers, a text that is no numeral to any reader of the model. *)
Definition exact_toString (x : exact) : string :=
  match x with
  | Fraction q =>
      if Qnum q mod Z.pos (Qden q) =? 0 then show (Qnum q / Z.pos (Qden q))
      else show (Qnum q) ++ "/" ++ show (Z.pos (Qden q))
  | Infinite false => "Infinity"
  | Infinite true => "-Infinity"
  | NotANumber => "NaN"
  end.

(** The number of a run of decimal digits. *)
Definition natural (ds : string) : Z :=
  match NilEmpty.uint_of_string ds with
  | Some u => Z.of_uint u
  | None => 0
  end.

(** [m] times ten to the power [e]. *)
Definition scaled (m e : Z) : Q :=
  if 0 <=? e then (m * 10 ^ e) # 1 else m # Z.to_pos (10 ^ (- e)).

Definition is_e (a : ascii) : bool := ((code a =? 101) || (code a =? 69))%N.

(** The exponent part of a decimal literal, up to the end of the text. *)
Definition exponent_in (s : string) : option Z :=
  match s with
  | EmptyString => Some 0
  | String e r =>
      if is_e e then
        let signed :=
          match r with
          | String "-" r' => (-1, r')
          | String "+" r' => (1, r')
          | _ => (1, r)
          end in
        match digits (snd signed) with
        | (String d ds, EmptyString) => Some (fst signed * natural (String d ds))
        | _ => None
        end
      else None
  end.

(** [StrUnsignedDecimalLiteral] without [Infinity]: digits with a point
    among them or not, and an exponent or not. *)
Definition unsigned_decimal (s : string) : option Q :=
  let (whole, r1) := digits s in
  let (fraction, r2) :=
    match r1 with
    | String "." r => digits r
    | _ => (EmptyString, r1)
    end in
  match (whole ++ fraction)%string with
  | EmptyString => None
  | mantissa =>
      match exponent_in r2 with
      | Some e => Some (scaled (natural mantissa) (e - Z.of_nat (String.length fraction)))
      | None => None
      end
  end.

(** The value of a digit in a radix up to 16. *)
Definition digit_in (radix : Z) (a : ascii) : option Z :=
  let c := Z.of_N (code a) in
  let v := if (48 <=? c) && (c <=? 57) then c - 48
           else if (97 <=? c) && (c <=? 102) then c - 87
           else if (65 <=? c) && (c <=? 70) then c - 55
           else radix in
  if v <? radix then Some v else None.

Fixpoint number_in (radix acc : Z) (s : string) : option Z :=
  match s with
  | EmptyString => Some acc
  | String a r =>
      match digit_in radix a with
      | Some v => number_in radix (radix * acc + v) r
      | None => None
      end
  end.

(** The radix that the letter after a leading [0] announces. *)
Definition radix_of (a : ascii) : option Z :=
  let c := code a in
  if ((c =? 120) || (c =? 88))%N then Some 16
  else if ((c =? 111) || (c =? 79))%N then Some 8
  else if ((c =? 98) || (c =? 66))%N then Some 2
  else None.

(** [NonDecimalIntegerLiteral]: [0x], [0o] or [0b] and digits. *)
Definition nondecimal (s : string) : option Z :=
  match s with
  | String "0" (String x (String a r)) =>
      match radix_of x with
      | Some radix => number_in radix 0 (String a r)
      | None => None
      end
  | _ => None
  end.

(** [StringToNumber]: white space around a numeric literal; no literal at
    all is 0, a text that is no literal is [NaN]. *)
Definition exact_of_string (s : string) : exact :=
  let t := trim s in
  match t with
  | EmptyString => integer 0
  | _ =>
      match nondecimal t with
      | Some z => integer z
      | None =>
          let signed :=
            match t with
            | String "-" r => (true, r)
            | String "+" r => (false, r)
            | _ => (false, t)
            end in
          if String.eqb (snd signed) "Infinity" then Infinite (fst signed)
          else match unsigned_decimal (snd signed) with
               | Some q => Fraction (if fst signed then - q else q)
               | None => NotANumber
               end
      end
  end.

(** *** Sample data *)

Definition tk103 : device_model :=
  {| dm_name := "TK103"; dm_description := Some "GPS tracker" |}.

Definition gt06 : device_model :=
  {| dm_name := "GT06"; dm_description := None |}.

Definition delivered : Dispatch.sms_result :=
  {| Dispatch.success := true; Dispatch.details := "sent";
     Dispatch.messageId := Some "msg_1_abc"; Dispatch.cost := Some (5 # 100);
     Dispatch.errorCode := None |}.

Definition undelivered : Dispatch.sms_result :=
  {| Dispatch.success := false; Dispatch.details := "SMS delivery failed - network error";
     Dispatch.messageId := None; Dispatch.cost := None;
     Dispatch.errorCode := Some "NETWORK_ERROR" |}.

Definition row (id : Z) (phone : string) (model : option Z) (text status : string) (at_ : Z)
    (r : Dispatch.sms_result) : sms_history_row :=
  {| h_id := id; phone_number := phone; model_id := model; command_text := text;
     status := status; sent_at := at_; h_details := None; notes := None;
     response_data := r |}.

(** Two models, the first with a command; three history rows, two of them
    for the second model. *)
Definition sample : db :=
  {| device_models := <[1 := tk103]> (<[2 := gt06]> ∅);
     commands := [{| c_id := 1; c_model_id := Some 1; c_command_text := "RESET123456";
                     c_description := None |}];
     sms_history := [row 1 "+5511999999999" (Some 2) "STATUS123456" "sent" 100 delivered;
                     row 2 "+5511888888888" (Some 2) "STATUS123456" "failed" 200 undelivered;
                     row 3 "+5511777777777" None "RESET123456" "failed" 300 undelivered] |}.

(** A store with a model that nothing references. *)
Definition fresh : db :=
  {| device_models := <[7 := tk103]> ∅; commands := []; sms_history := [] |}.

(** The draws of the stub: the call at position 1 fails to deliver, the
    others deliver. *)
Definition draws_at (i : nat) : Dispatch.draws :=
  {| Dispatch.random_outcome := if (i =? 1)%nat then 1 # 20 else 1 # 2;
     Dispatch.date_now := 1700000000000 + Z.of_nat i;
     Dispatch.random_text := "0.4fzyo82mvyr" |}.

(** The source's stub on a store that takes every insert. *)
Definition calm : Send.world :=
  {| Send.dispatch := Send.stub draws_at;
     Send.insertion_at := fun i =>
       {| fault := None; fresh_id := 10 + Z.of_nat i; now := 1000 + Z.of_nat i |} |}.

(** The same, on a store that loses the connection during the insert at
    position 0. *)
Definition flaky : Send.world :=
  {| Send.dispatch := Send.stub draws_at;
     Send.insertion_at := fun i =>
       {| fault := if (i =? 0)%nat then Some "Connection terminated unexpectedly" else None;
          fresh_id := 10 + Z.of_nat i; now := 1000 + Z.of_nat i |} |}.

(** A command text of 256 characters. *)
Definition long_command : string := string_of_list_ascii (repeat "A"%char 256).

Definition request (phones : list json) (text : string) : Send.body :=
  {| Send.phoneNumbers := Some (JArr phones); Send.modelId := Some (JNum 1);
     Send.commandText := Some (JStr text); Send.notes := None |}.

(** *** Requests *)

Definition two_numbers : list string := ["+5511999999999"; " +5511888888888 "].

Definition one_bad : list string := ["+5511999999999"; "abc"; "12"].

(** [?status=failed]. *)
Definition failed_only : History.query :=
  {| History.page := None; History.limit := None; History.status := Some "failed";
     History.modelId := None; History.phoneNumber := None; History.dateFrom := None;
     History.dateTo := None; History.search := None |}.

(** [?status=failed&modelId=2]. *)
Definition failed_of_model_2 : History.query :=
  {| History.page := None; History.limit := None; History.status := Some "failed";
     History.modelId := Some "2"; History.phoneNumber := None; History.dateFrom := None;
     History.dateTo := None; History.search := None |}.

(** A request without filters, but for the model id when there is one. *)
Definition paged (page limit modelId : field string) : History.query :=
  {| History.page := page; History.limit := limit; History.status := None;
     History.modelId := modelId; History.phoneNumber := None; History.dateFrom := None;
     History.dateTo := None; History.search := None |}.

(** Eight history rows, six of them for the second model and five of
    those failed; [sent_at] is in microseconds, all on 1970-01-01. *)
Definition archive : db :=
  {| device_models := <[1 := tk103]> (<[2 := gt06]> ∅);
     commands := [];
     sms_history := [row 1 "+5511999999999" (Some 2) "STATUS123456" "failed" 100 undelivered;
                     row 2 "+5511999999999" (Some 2) "STATUS123456" "failed" 200 undelivered;
                     row 3 "+5511999999999" (Some 2) "STATUS123456" "sent" 300 delivered;
                     row 4 "+5511888888888" (Some 2) "STATUS123456" "failed" 400 undelivered;
                     row 5 "+5511888888888" (Some 1) "RESET123456" "failed" 500 undelivered;
                     row 6 "+5511777777777" None "RESET123456" "failed" 600 undelivered;
                     row 7 "+5511999999999" (Some 2) "STATUS123456" "failed" 700 undelivered;
                     row 8 "+5511999999999" (Some 2) "STATUS123456" "failed" 800 undelivered] |}.

(** [?status=failed&modelId=2&phoneNumber=5511&dateFrom=1970-01-01&dateTo=1970-01-02&search=status&page=2&limit=2]. *)
Definition failed_of_model_2_page_2 : History.query :=
  {| History.page := Some "2"; History.limit := Some "2"; History.status := Some "failed";
     History.modelId := Some "2"; History.phoneNumber := Some "5511";
     History.dateFrom := Some "1970-01-01"; History.dateTo := Some "1970-01-02";
     History.search := Some "status" |}.

End Reference.

(** ** Requests of the examples beside the three handlers *)
Module Samples.

Definition office : string := "203.0.113.7".
Definition visitor : string := "198.51.100.4".

(** A map in which the window of [office] ended at 900. *)
Definition stale : gmap string RateLimit.clientData :=
  <[office := {| RateLimit.count := 250; RateLimit.resetTime := 900 |}]> ∅.

(** 120 requests, one every 500 ms from 1500 on: the last arrives at
    61000. *)
Definition burst : list Z := map (fun k => 1000 + 500 * Z.of_nat k) (seq 1 120).

(** 100 requests of [office] with requests of [visitor] between them. *)
Definition morning : list (string * Z) :=
  flat_map (fun k => [(office, 300 * Z.of_nat k); (visitor, 300 * Z.of_nat k + 7)]) (seq 0 100).

(** A send request for two valid numbers, by model id. *)
Definition asking (m : Js.json) : Send.body :=
  {| Send.phoneNumbers := Some (Js.JArr (map Js.JStr Reference.two_numbers));
     Send.modelId := Some m;
     Send.commandText := Some (Js.JStr "STATUS123456");
     Send.notes := None |}.

(** Bodies of the model routes and of the command routes. *)
Definition model_request (n : Js.json) : Registry.model_body :=
  {| Registry.name := Some n; Registry.description := Some "" |}.

Definition command_request (m : Js.json) (text : string) : Registry.command_body :=
  {| Registry.modelId := Some m; Registry.commandText := Some (Js.JStr text);
     Registry.commandDescription := None |}.

(** The rows the two requests above name. *)
Definition st901 : Store.device_model :=
  {| Store.dm_name := "ST901"; Store.dm_description := None |}.

Definition status_of_gt06 : Store.command :=
  {| Store.c_id := 50; Store.c_model_id := Some 2; Store.c_command_text := "STATUS#";
     Store.c_description := None |}.

(** The store of the examples with a second command for its first model. *)
Definition crowded : Store.db :=
  {| Store.device_models := Store.device_models Reference.sample;
     Store.commands :=
       (Store.commands Reference.sample
        ++ [{| Store.c_id := 2; Store.c_model_id := Some 1;
               Store.c_command_text := "STATUS123456"; Store.c_description := None |}])%list;
     Store.sms_history := Store.sms_history Reference.sample |}.

(** Sequences for [initializeDatabase]: ids from 100 and from 1000 on; the
    second hands out a different [id] at every turn of every sample. *)
Definition counting : Seed.sequences :=
  {| Seed.model_ids := fun i => 100 + Z.of_nat i;
     Seed.command_ids := fun j i => 1000 + 10 * Z.of_nat j + Z.of_nat i |}.

Definition pairing : Seed.sequences :=
  {| Seed.model_ids := fun i => 100 + Z.of_nat i;
     Seed.command_ids := fun j i => 1000 + Z.pos (encode (j, i)) |}.

(** The two rows of [GET /api/models] on the store of the examples. *)
Definition listed_tk103 : Listings.model_item :=
  {| Listings.mi_id := 1; Listings.mi_model := Reference.tk103;
     Listings.command_count := "1" |}.

Definition listed_gt06 : Listings.model_item :=
  {| Listings.mi_id := 2; Listings.mi_model := Reference.gt06;
     Listings.command_count := "0" |}.



(** Ids for the runs of [init-db.js]: a different one at every turn. *)
Definition paired (r i : nat) : Z := Z.pos (encode (r, i)).

End Samples.

(** * Properties *)

(** ** The store of the examples is a store *)
Module ReferenceStore.
Import Js Store Reference.

Lemma insert_desc_permutation (x : joined) (l : list joined) :
  Permutation (insert_desc x l) (x :: l).
Proof.
  induction l as [|y r IH]; simpl; [reflexivity|].
  destruct (sent_at (fst y) <=? sent_at (fst x)); [reflexivity|].
  rewrite IH. apply perm_swap.
Qed.

Lemma sort_desc_permutation (l : list joined) : Permutation (sort_desc l) l.
Proof.
  induction l as [|x r IH]; simpl; [reflexivity|].
  rewrite insert_desc_permutation. now apply perm_skip.
Qed.

Lemma insert_desc_sorted (x : joined) (l : list joined) :
  StronglySorted sent_at_desc l -> StronglySorted sent_at_desc (insert_desc x l).
Proof.
  induction 1 as [|y r Hr IH Hy]; simpl.
  - repeat constructor.
  - destruct (Z.leb_spec (sent_at (fst y)) (sent_at (fst x))) as [Hle|Hgt].
    + constructor; [now constructor|].
      constructor; [exact Hle|].
      eapply Forall_impl; [exact Hy|].
      unfold sent_at_desc. intros a Ha. lia.
    + constructor; [exact IH|].
      rewrite List.Forall_forall.
      intros a Ha.
      apply (Permutation_in _ (insert_desc_permutation x r)) in Ha.
      destruct Ha as [<-|Ha].
      * unfold sent_at_desc. lia.
      * rewrite List.Forall_forall in Hy. now apply Hy.
Qed.

Lemma sort_desc_sorted (l : list joined) : StronglySorted sent_at_desc (sort_desc l).
Proof.
  induction l as [|x r IH]; simpl; [constructor|].
  now apply insert_desc_sorted.
Qed.

#[export] Instance store : Postgres := {|
  integer_in := decimal_in;
  timestamp_in := date_in;
  ilike := ilike_ascii;
  order_by_sent_at_desc := sort_desc;
  order_by_permutation := sort_desc_permutation;
  order_by_sorted := sort_desc_sorted
|}.

End ReferenceStore.

(** ** Text and numerals *)
Module TextFacts.
Import Js Store.

Lemma append_cons (a : ascii) (r s : string) : String a r ++ s = String a (r ++ s).
Proof. reflexivity. Qed.

Lemma append_nil_r (s : string) : s ++ "" = s.
Proof.
  induction s as [|a r IH]; [reflexivity|].
  change (String a (r ++ "") = String a r). now rewrite IH.
Qed.

Lemma append_assoc (s t u : string) : (s ++ t) ++ u = s ++ (t ++ u).
Proof.
  induction s as [|a r IH]; [reflexivity|].
  change (String a ((r ++ t) ++ u) = String a (r ++ (t ++ u))). now rewrite IH.
Qed.

Lemma length_append (s t : string) :
  String.length (s ++ t) = (String.length s + String.length t)%nat.
Proof.
  induction s as [|a r IH]; [reflexivity|].
  change (S (String.length (r ++ t)) = S (String.length r + String.length t))%nat.
  now rewrite IH.
Qed.

Lemma after_append (literal s : string) : after literal (literal ++ s) = Some s.
Proof.
  induction literal as [|a r IH]; [reflexivity|].
  change (after (String a r) (String a (r ++ s)) = Some s).
  cbn [after]. now rewrite Ascii.eqb_refl.
Qed.

(** A digit is no white space, no sign and no letter. *)
Lemma digit_cases (a : ascii) :
  isDigit a = true ->
  a = "0"%char \/ a = "1"%char \/ a = "2"%char \/ a = "3"%char \/ a = "4"%char \/
  a = "5"%char \/ a = "6"%char \/ a = "7"%char \/ a = "8"%char \/ a = "9"%char.
Proof.
  destruct a as [[] [] [] [] [] [] [] []]; intros Hdigit; try discriminate Hdigit; tauto.
Qed.

(** The decimal text of a number that is not negative: digits, one at
    least, which are read back as the number. *)
Lemma show_numeral (z : Z) :
  0 <= z ->
  exists u, show z = NilEmpty.string_of_uint u /\ u <> Decimal.Nil /\ Z.of_uint u = z.
Proof.
  intros Hz. pose proof (DecimalZ.of_to z) as Hback. unfold show.
  destruct z as [|p|p]; [| |lia]; cbn [Z.to_int NilZero.string_of_int] in *.
  - exists (Decimal.D0 Decimal.Nil). repeat split. discriminate.
  - exists (Pos.to_uint p). pose proof (DecimalPos.Unsigned.to_uint_nonnil p) as Hnil.
    repeat split; [|exact Hnil|exact Hback].
    unfold NilZero.string_of_uint. now destruct (Pos.to_uint p).
Qed.

(** The digits of a numeral end where it ends, before a text that begins
    with no digit. *)
Lemma digits_numeral (u : Decimal.uint) (rest : string) :
  digits rest = ("", rest) ->
  digits (NilEmpty.string_of_uint u ++ rest) = (NilEmpty.string_of_uint u, rest).
Proof.
  intros Hrest.
  induction u as [|u IH|u IH|u IH|u IH|u IH|u IH|u IH|u IH|u IH|u IH];
    [exact Hrest|..];
    cbn [NilEmpty.string_of_uint]; rewrite append_cons; cbn [digits];
    (match goal with |- context [isDigit ?a] => change (isDigit a) with true end);
    cbv iota; now rewrite IH.
Qed.

Lemma digits_of_numeral (u : Decimal.uint) :
  digits (NilEmpty.string_of_uint u) = (NilEmpty.string_of_uint u, "").
Proof.
  rewrite <- (append_nil_r (NilEmpty.string_of_uint u)) at 1.
  now apply digits_numeral.
Qed.

Lemma numeral_nonempty (u : Decimal.uint) :
  u <> Decimal.Nil -> exists a r, NilEmpty.string_of_uint u = String a r /\ isDigit a = true.
Proof.
  intros Hu. destruct u; [contradiction|..]; cbn [NilEmpty.string_of_uint];
    do 2 eexists; (split; [reflexivity|reflexivity]).
Qed.

Lemma read_numeral (u : Decimal.uint) :
  u <> Decimal.Nil -> NilZero.uint_of_string (NilEmpty.string_of_uint u) = Some u.
Proof.
  intros Hu. destruct (numeral_nonempty u Hu) as (a & r & Heq & _).
  unfold NilZero.uint_of_string. rewrite Heq. cbv iota. rewrite <- Heq.
  apply NilEmpty.usu.
Qed.

(** A text of digits and nothing else has no white space to trim. *)
Lemma trim_digits (s : string) : digits s = (s, "") -> trim s = s.
Proof.
  assert (Hend : forall t, digits t = (t, "") -> trimEnd t = t).
  { induction t as [|a r IH]; [reflexivity|]. cbn [digits].
    destruct (isDigit a) eqn:Hdigit; [|discriminate].
    destruct (digits r) as [ds rest] eqn:Hr. intros [= -> ->].
    cbn [trimEnd]. rewrite (IH eq_refl).
    destruct r; [|reflexivity].
    destruct (digit_cases a Hdigit) as [->|[->|[->|[->|[->|[->|[->|[->|[->| ->]]]]]]]]];
      reflexivity. }
  intros Hs. unfold trim.
  replace (trimStart s) with s; [now apply Hend|].
  destruct s as [|a r]; [reflexivity|]. cbn [digits] in Hs.
  destruct (isDigit a) eqn:Hdigit; [|discriminate].
  destruct (digit_cases a Hdigit) as [->|[->|[->|[->|[->|[->|[->|[->|[->| ->]]]]]]]]];
    reflexivity.
Qed.

End TextFacts.

(** ** The engine of the examples is an engine *)
Module ReferenceEngine.
Import Js Double Store Reference TextFacts.

Lemma radix_of_digit (a : ascii) : isDigit a = true -> radix_of a = None.
Proof.
  intros Hdigit.
  destruct (digit_cases a Hdigit) as [->|[->|[->|[->|[->|[->|[->|[->|[->| ->]]]]]]]]];
    reflexivity.
Qed.

Lemma nondecimal_digits (s : string) : digits s = (s, "") -> nondecimal s = None.
Proof.
  destruct s as [|a [|x r]]; [reflexivity| |].
  - intros _. unfold nondecimal. now destruct a as [[] [] [] [] [] [] [] []].
  - cbn [digits]. destruct (isDigit a); [|discriminate].
    destruct (isDigit x) eqn:Hx.
    + intros _. unfold nondecimal.
      destruct a as [[] [] [] [] [] [] [] []]; try reflexivity.
      destruct r; [reflexivity|]. now rewrite (radix_of_digit x Hx).
    + destruct (digits r). discriminate.
Qed.

Lemma exact_of_numeral (z : Z) : 0 <= z -> exact_of_string (show z) = integer z.
Proof.
  intros Hz. destruct (show_numeral z Hz) as (u & -> & Hu & <-).
  pose proof (digits_of_numeral u) as Hdigits.
  destruct (numeral_nonempty u Hu) as (a & r & Htext & Hdigit).
  unfold exact_of_string. rewrite (trim_digits _ Hdigits).
  rewrite (nondecimal_digits _ Hdigits).
  assert (Hvalue : unsigned_decimal (NilEmpty.string_of_uint u) = Some (Z.of_uint u # 1)).
  { unfold unsigned_decimal. rewrite Hdigits, append_nil_r.
    rewrite Htext. cbv iota. rewrite <- Htext.
    unfold natural. rewrite NilEmpty.usu.
    cbn [exponent_in String.length Z.of_nat]. unfold scaled.
    cbn [Z.sub Z.opp Z.add Z.leb Z.compare Z.pow Z.pow_pos Pos.iter]. now rewrite Z.mul_1_r. }
  rewrite Htext in *.
  destruct (digit_cases a Hdigit) as [->|[->|[->|[->|[->|[->|[->|[->|[->| ->]]]]]]]]];
    cbv beta iota zeta; cbn [fst snd String.eqb Ascii.eqb Bool.eqb andb];
    cbv beta iota; now rewrite Hvalue.
Qed.

Lemma exact_minus_integers (a b : Z) : exact_minus (integer a) (integer b) = integer (a - b).
Proof.
  unfold exact_minus, integer, Qminus, Qplus, Qopp. cbn [Qnum Qden Pos.mul].
  now rewrite !Z.mul_1_r.
Qed.

Lemma exact_times_integers (a b : Z) : exact_times (integer a) (integer b) = integer (a * b).
Proof. reflexivity. Qed.

Lemma exact_ceil_over_integers (a b : Z) :
  0 < b -> exact_ceil (exact_over (integer a) (integer b)) = integer (- (- a / b)).
Proof.
  intros Hb. destruct b as [|p|p]; try lia.
  unfold exact_over, integer, is_zero. cbn [Qnum Z.eqb].
  unfold exact_ceil, Qdiv, Qinv, Qmult, integer. cbn [Qnum Qden Pos.mul].
  now rewrite Z.mul_1_r.
Qed.

Lemma exact_over_zero (a : Z) : 0 < a -> exact_over (integer a) (integer 0) = Infinite false.
Proof.
  intros Ha. destruct a as [|p|p]; try lia. reflexivity.
Qed.

Lemma exact_less_integers (a b : Z) : exact_less (integer a) (integer b) = (a <? b).
Proof.
  unfold exact_less, integer, Qle_bool. cbn [Qnum Qden]. rewrite !Z.mul_1_r.
  destruct (Z.leb_spec b a), (Z.ltb_spec a b); try reflexivity; lia.
Qed.

Lemma exact_toString_integer (z : Z) : exact_toString (integer z) = show z.
Proof.
  unfold exact_toString, integer. cbn [Qnum Qden].
  now rewrite Z.mod_1_r, Z.div_1_r.
Qed.

#[export] Instance engine : Arithmetic := {|
  double := exact;
  of_integer := integer;
  infinity := Infinite false;
  StringToNumber := exact_of_string;
  minus := exact_minus;
  times := exact_times;
  over := exact_over;
  ceil := exact_ceil;
  less := exact_less;
  toString := exact_toString;
  numeral_exact := fun z Hz _ => exact_of_numeral z Hz;
  minus_exact := fun a b _ _ _ => exact_minus_integers a b;
  times_exact := fun a b _ _ _ _ => exact_times_integers a b;
  ceil_over_exact := fun a b _ _ Hb _ => exact_ceil_over_integers a b Hb;
  over_zero := fun a Ha _ => exact_over_zero a Ha;
  ceil_infinity := eq_refl;
  infinity_apart := fun z _ H => ltac:(discriminate H);
  less_exact := fun a b _ _ => exact_less_integers a b;
  toString_exact := fun z _ => exact_toString_integer z
|}.

End ReferenceEngine.

(** ** The dispatch stub *)
Module DispatchFacts.
Import Js Dispatch.

(** The [try] block of the stub never throws. *)
Lemma attempt_returns (d : draws) (phoneNumber command modelName : string) :
  exists r, attempt d phoneNumber command modelName = Return r.
Proof.
  unfold attempt.
  destruct (negb (Qle_bool (random_outcome d) one_tenth)); eexists; reflexivity.
Qed.

(** C7. Whatever its arguments and whatever it draws, [sendSMSCommand]
    returns a record and throws nothing: when the first draw is above 0.1 a
    record with [success = true], a message identifier made of the clock
    and the second draw, and a detail text; otherwise a record with
    [success = false], the error code NETWORK_ERROR and a detail text. *)
Theorem sendSMSCommand_definite (d : draws) (phoneNumber command modelName : string) :
  exists r,
    sendSMSCommand d phoneNumber command modelName = Return r /\
    ((success r = true /\ (one_tenth < random_outcome d)%Q /\
      messageId r = Some ("msg_" ++ show (date_now d) ++ "_" ++ substr 2 9 (random_text d)) /\
      details r = "Command " ++ dquote ++ command ++ dquote
                  ++ " sent successfully to " ++ modelName ++ " device" /\
      errorCode r = None)
     \/
     (success r = false /\ (random_outcome d <= one_tenth)%Q /\
      errorCode r = Some "NETWORK_ERROR" /\
      details r = "SMS delivery failed - network error" /\
      messageId r = None)).
Proof.
  unfold sendSMSCommand, attempt.
  destruct (Qle_bool (random_outcome d) one_tenth) eqn:Hdraw; simpl.
  - eexists. split; [reflexivity|]. right. simpl.
    apply Qle_bool_iff in Hdraw. repeat split; assumption.
  - eexists. split; [reflexivity|]. left. simpl.
    assert (Hlt : (one_tenth < random_outcome d)%Q).
    { apply Qnot_le_lt. intros Hle. apply Qle_bool_iff in Hle. congruence. }
    repeat split; assumption.
Qed.

End DispatchFacts.

(** ** The send workflow *)
Module SendFacts.
Import Js Store Send SendSpec.

Lemma add_rows_nil (d : db) : add_rows d [] = d.
Proof. destruct d. unfold add_rows. simpl. now rewrite app_nil_r. Qed.

Lemma add_rows_app (d : db) (a b : list sms_history_row) :
  add_rows (add_rows d a) b = add_rows d (a ++ b).
Proof. unfold add_rows. simpl. now rewrite app_assoc. Qed.

Lemma invalid_phones_strings (numbers : list string) :
  invalid_phones (map JStr numbers)
  = Return (map JStr (List.filter (fun p => negb (valid p)) numbers)).
Proof.
  induction numbers as [|p r IH]; [reflexivity|].
  cbn [map invalid_phones call_trim trim_receiver List.filter].
  rewrite IH. unfold valid. now destruct (phoneRegex_test (trim p)).
Qed.

Lemma invalid_phones_throws (phones : list json) :
  existsb (fun v => negb (is_string v)) phones = true ->
  exists m, invalid_phones phones = Throw (TypeError m).
Proof.
  induction phones as [|v r IH]; [discriminate|].
  cbn [existsb]. intros Hex.
  destruct v; cbn [invalid_phones call_trim trim_receiver];
    try (eexists; reflexivity).
  cbn [is_string negb orb] in Hex. destruct (IH Hex) as [m ->].
  eexists; reflexivity.
Qed.

Lemma filter_invalid_nil (numbers : list string) :
  forallb valid numbers = true ->
  List.filter (fun p => negb (valid p)) numbers = [].
Proof.
  induction numbers as [|p r IH]; [reflexivity|].
  cbn [forallb List.filter]. intros [Hp Hr]%andb_prop.
  rewrite Hp. cbn [negb]. now apply IH.
Qed.

Lemma filter_invalid_cons (numbers : list string) :
  forallb valid numbers = false ->
  exists p r, List.filter (fun p => negb (valid p)) numbers = p :: r.
Proof.
  induction numbers as [|p r IH]; [discriminate|].
  cbn [forallb List.filter]. destruct (valid p) eqn:Hp; cbn [negb andb].
  - exact IH.
  - intros _. eauto.
Qed.

Lemma valid_fits (number : string) :
  valid number = true -> varchar 20 (trim number) = Return (trim number).
Proof.
  unfold valid, phoneRegex_test, varchar.
  intros [[_ Hlen]%andb_prop _]%andb_prop. now rewrite Hlen.
Qed.

Lemma status_fits (r : Dispatch.sms_result) : varchar 20 (status_of r) = Return (status_of r).
Proof. unfold status_of. now destruct (Dispatch.success r). Qed.

Section Loop.
Context `{Postgres} (w : world) (m : json) (text : string) (notes : field string)
        (name : string) (k : Z).
Hypothesis resolves : int4_value m = Return (Some k).

(** One turn of the loop, on a valid number. *)
Lemma send_one_fate (i : nat) (number : string) (acc : lists) (s : state) :
  valid number = true ->
  model_exists (store s) (Some k) = true ->
  let f := [(number, fate_of w k text notes name i number)] in
  send_one w m text notes name i (JStr number) acc s
  = (Return {| results := results acc ++ stored_entries f;
               errors := errors acc ++ failures f |},
     {| store := add_rows (store s) (stored_rows f);
        dispatched := dispatched s ++ [(trim number, text, name)] |}).
Proof.
  intros Hvalid Hmodel.
  unfold send_one, try_catch, bind, lift, call_dispatch, query, ret, throw.
  cbn [call_trim trim_receiver store dispatched].
  unfold stored_entries, failures, stored_rows, fate_of.
  cbn [flat_map fst snd].
  destruct (dispatch w i (trim number) text name) as [r|e].
  - unfold insert_sms_history.
    destruct (fault (insertion_at w i)) as [msg|].
    + cbn [store dispatched flat_map app message].
      rewrite add_rows_nil, !app_nil_r. reflexivity.
    + rewrite resolves, (valid_fits _ Hvalid), status_fits.
      destruct (varchar 255 (trim text)) as [text'|e].
      * rewrite Hmodel. cbn [negb store dispatched h_id app].
        rewrite !app_nil_r. reflexivity.
      * cbn [store dispatched app message].
        rewrite add_rows_nil, !app_nil_r. reflexivity.
  - cbn [store dispatched app message].
    rewrite add_rows_nil, !app_nil_r. reflexivity.
Qed.

(** The loop: every number has its turn, whatever became of the ones
    before it. *)
Lemma send_all_fates (numbers : list string) :
  forall (i : nat) (acc : lists) (s : state),
    forallb valid numbers = true ->
    model_exists (store s) (Some k) = true ->
    let fs := fates w k text notes name i numbers in
    send_all w m text notes name i (map JStr numbers) acc s
    = (Return {| results := results acc ++ stored_entries fs;
                 errors := errors acc ++ failures fs |},
       {| store := add_rows (store s) (stored_rows fs);
          dispatched := dispatched s ++ map (fun p => (trim p, text, name)) numbers |}).
Proof.
  induction numbers as [|p r IH]; intros i acc s Hvalid Hmodel.
  - cbn. rewrite add_rows_nil, !app_nil_r. destruct acc, s; reflexivity.
  - cbn [forallb] in Hvalid. apply andb_prop in Hvalid as [Hp Hr].
    cbn [map send_all fates]. unfold bind.
    rewrite (send_one_fate i p acc s Hp Hmodel).
    rewrite IH; [|exact Hr|exact Hmodel].
    cbn [results errors store dispatched].
    unfold stored_entries, failures, stored_rows.
    cbn [flat_map map]. fold (stored_entries (fates w k text notes name (S i) r)).
    fold (failures (fates w k text notes name (S i) r)).
    fold (stored_rows (fates w k text notes name (S i) r)).
    rewrite add_rows_app, <- !app_assoc. reflexivity.
Qed.
End Loop.

(** The stub of the source returns at every call. *)
Lemma stub_returns (draws_at : nat -> Dispatch.draws) (i : nat)
    (phone command modelName : string) :
  exists r, stub draws_at i phone command modelName = Return r.
Proof.
  unfold stub, Dispatch.sendSMSCommand.
  destruct (DispatchFacts.attempt_returns (draws_at i) phone command modelName) as [r ->].
  now exists r.
Qed.

Lemma trim_not_blank (text : string) : trim text <> "" -> truthy (JStr text) = true.
Proof.
  destruct text as [|a r]; [intros Hne; now contradiction Hne|reflexivity].
Qed.

Lemma not_blank_length (text : string) : text <> "" -> (String.length text =? 0)%nat = false.
Proof. destruct text; [intros Hne; now contradiction Hne|reflexivity]. Qed.

(** The first two checks, the validation and the model lookup of a request
    whose phone numbers are strings: what is left is the loop. *)
Lemma handler_strings `{Postgres} (w : world) (b : body) (s : state)
    (p : string) (r : list string) (m : json) (text : string) :
  phoneNumbers b = Some (JArr (map JStr (p :: r))) ->
  modelId b = Some m -> truthy m = true ->
  commandText b = Some (JStr text) -> trim text <> "" ->
  handler w b s
  = try_catch
      (match List.filter (fun p => negb (valid p)) (p :: r) with
       | [] =>
           let* modelCheck := query (select_model_name m) in
           match modelCheck with
           | [] => ret (NotFound "Model not found")
           | modelName :: _ =>
               let* l := send_all w m text (notes b) modelName 0 (map JStr (p :: r))
                           {| results := []; errors := [] |} in
               ret (summary (map JStr (p :: r)) l)
           end
       | bad => ret (BadRequest "Invalid phone numbers detected" (Some (map JStr bad)))
       end)
      (fun error => ret (InternalError "Failed to send SMS" error)) s.
Proof.
  intros Hphones Hmodel Htruthy Hcommand Hblank.
  unfold handler. rewrite Hphones, Hmodel, Hcommand.
  cbn [map]. rewrite Htruthy, (trim_not_blank _ Hblank). cbn [negb orb].
  unfold try_catch. unfold bind at 1. unfold lift at 1.
  cbn [trim_receiver]. rewrite (not_blank_length _ Hblank).
  unfold bind at 1. unfold lift at 1.
  change (JStr p :: map JStr r) with (map JStr (p :: r)).
  rewrite invalid_phones_strings.
  destruct (List.filter (fun p0 => negb (valid p0)) (p :: r)) as [|bad rest]; reflexivity.
Qed.

(** The response to a request that passes validation and model resolution,
    and the state it leaves. *)
Lemma post_accepted `{Postgres} (w : world) (b : body) (d : db) (numbers : list string)
    (m : json) (text : string) (k : Z) (model : device_model) :
  passes b d numbers m text k model ->
  let fs := fates w k text (notes b) (dm_name model) 0 numbers in
  post w b d
  = (summary (map JStr numbers) {| results := stored_entries fs; errors := failures fs |},
     {| store := add_rows d (stored_rows fs);
        dispatched := map (fun p => (trim p, text, dm_name model)) numbers |}).
Proof.
  intros (Hphones & Hne & Hvalid & Hmodel & Htruthy & Hcommand & Hblank & Hint & Hlookup) fs.
  destruct numbers as [|p r]; [congruence|].
  unfold post. rewrite (handler_strings w b _ p r m text) by assumption.
  rewrite (filter_invalid_nil _ Hvalid).
  unfold try_catch. unfold bind at 1. unfold query at 1. unfold select_model_name.
  cbn [store]. rewrite Hint, Hlookup.
  unfold bind.
  rewrite (send_all_fates w m text (notes b) (dm_name model) k Hint (p :: r)).
  - reflexivity.
  - exact Hvalid.
  - cbn [store model_exists]. now rewrite Hlookup.
Qed.

(** The response to a request whose phone numbers are strings, one of them
    invalid. *)
Lemma post_invalid `{Postgres} (w : world) (b : body) (d : db) (numbers : list string)
    (m : json) (text : string) :
  phoneNumbers b = Some (JArr (map JStr numbers)) ->
  modelId b = Some m -> truthy m = true ->
  commandText b = Some (JStr text) -> trim text <> "" ->
  forallb valid numbers = false ->
  post w b d
  = (BadRequest "Invalid phone numbers detected"
       (Some (map JStr (List.filter (fun p => negb (valid p)) numbers))),
     {| store := d; dispatched := [] |}).
Proof.
  intros Hphones Hmodel Htruthy Hcommand Hblank Hinvalid.
  destruct numbers as [|p r]; [discriminate|].
  unfold post. rewrite (handler_strings w b _ p r m text) by assumption.
  destruct (filter_invalid_cons _ Hinvalid) as (bad & rest & ->).
  reflexivity.
Qed.

(** The response to a request one of whose phone numbers is not a string. *)
Lemma post_not_a_string `{Postgres} (w : world) (b : body) (d : db) (phones : list json)
    (m : json) (text : string) :
  phoneNumbers b = Some (JArr phones) ->
  existsb (fun v => negb (is_string v)) phones = true ->
  modelId b = Some m -> truthy m = true ->
  commandText b = Some (JStr text) -> trim text <> "" ->
  exists reason,
    post w b d = (InternalError "Failed to send SMS" (TypeError reason),
                  {| store := d; dispatched := [] |}).
Proof.
  intros Hphones Hnot Hmodel Htruthy Hcommand Hblank.
  destruct (invalid_phones_throws _ Hnot) as [reason Hthrow].
  exists reason.
  destruct phones as [|v r]; [discriminate|].
  unfold post, handler. rewrite Hphones, Hmodel, Hcommand.
  rewrite Htruthy, (trim_not_blank _ Hblank). cbn [negb orb].
  unfold try_catch. unfold bind at 1. unfold lift at 1.
  cbn [trim_receiver]. rewrite (not_blank_length _ Hblank).
  unfold bind at 1. unfold lift at 1. rewrite Hthrow. reflexivity.
Qed.

(** *** Counting entries and rows *)

Lemma fates_length (w : world) (k : Z) (text : string) (notes : field string) (name : string)
    (numbers : list string) (i : nat) :
  length (fates w k text notes name i numbers) = length numbers.
Proof.
  revert i. induction numbers as [|p r IH]; intros i; cbn [fates length]; [|rewrite IH];
    reflexivity.
Qed.

Lemma entries_and_failures (fs : list (string * fate)) :
  (length (stored_entries fs) + length (failures fs))%nat = length fs.
Proof.
  induction fs as [|[p f] r IH]; [reflexivity|].
  unfold stored_entries, failures in *. cbn [flat_map snd fst].
  rewrite !length_app. destruct f; cbn [length]; lia.
Qed.

Lemma rows_and_entries (fs : list (string * fate)) :
  length (stored_rows fs) = length (stored_entries fs).
Proof.
  induction fs as [|[p f] r IH]; [reflexivity|].
  unfold stored_rows, stored_entries in *. cbn [flat_map snd].
  rewrite !length_app, IH. now destruct f.
Qed.

Lemma fates_lookup (w : world) (k : Z) (text : string) (notes : field string) (name : string)
    (numbers : list string) :
  forall (i j : nat) (p : string),
    numbers !! j = Some p ->
    In (p, fate_of w k text notes name (i + j) p) (fates w k text notes name i numbers).
Proof.
  induction numbers as [|q r IH]; intros i j p Hj; [discriminate|].
  destruct j as [|j]; cbn [fates].
  - injection Hj as ->. rewrite Nat.add_0_r. now left.
  - right. replace (i + S j)%nat with (S i + j)%nat by lia. now apply IH.
Qed.

Lemma failed_is_reported (fs : list (string * fate)) (p : string) (e : exn) :
  In (p, Failed e) fs -> In {| e_phone := trim p; e_error := message e |} (failures fs).
Proof.
  intros Hin. unfold failures. apply in_flat_map.
  exists (p, Failed e). split; [exact Hin|now left].
Qed.

Lemma stored_is_listed (fs : list (string * fate)) (p : string)
    (entry : result_entry) (row : sms_history_row) :
  In (p, Stored entry row) fs -> In entry (stored_entries fs) /\ In row (stored_rows fs).
Proof.
  intros Hin. unfold stored_entries, stored_rows. split; apply in_flat_map;
    exists (p, Stored entry row); (split; [exact Hin|now left]).
Qed.

(** Every entry of [results] has the status sent or failed. *)
Lemma entry_status (fs : list (string * fate)) (entry : result_entry) :
  (forall p e row, In (p, Stored e row) fs -> r_status e = "sent" \/ r_status e = "failed") ->
  In entry (stored_entries fs) -> r_status entry = "sent" \/ r_status entry = "failed".
Proof.
  intros Hall Hin. unfold stored_entries in Hin. apply in_flat_map in Hin.
  destruct Hin as ([p f] & Hf & Hentry). cbn [snd] in Hentry.
  destruct f as [e|e row]; [contradiction|].
  destruct Hentry as [<-|[]]. eapply Hall. exact Hf.
Qed.

Lemma fates_status (w : world) (k : Z) (text : string) (notes : field string) (name : string)
    (numbers : list string) :
  forall (i : nat) (p : string) (e : result_entry) (row : sms_history_row),
    In (p, Stored e row) (fates w k text notes name i numbers) ->
    r_status e = "sent" \/ r_status e = "failed".
Proof.
  induction numbers as [|q r IH]; intros i p e row Hin; [contradiction|].
  cbn [fates] in Hin. destruct Hin as [Heq|Hin]; [|eapply IH; exact Hin].
  injection Heq as _ Heq. unfold fate_of in Heq.
  destruct (dispatch w i (trim q) text name) as [res|]; [|discriminate].
  destruct (fault (insertion_at w i)); [discriminate|].
  destruct (varchar 255 (trim text)); [|discriminate].
  injection Heq as <- _. cbn [r_status]. unfold status_of.
  destruct (Dispatch.success res); auto.
Qed.

Lemma count_status_split (l : list result_entry) :
  (forall e, In e l -> r_status e = "sent" \/ r_status e = "failed") ->
  count_status "sent" l + count_status "failed" l = Z.of_nat (length l).
Proof.
  unfold count_status. induction l as [|e r IH]; intros Hall; [reflexivity|].
  cbn [List.filter length].
  assert (Hr : forall e, In e r -> r_status e = "sent" \/ r_status e = "failed")
    by (intros x Hx; apply Hall; now right).
  specialize (IH Hr).
  destruct (Hall e (or_introl eq_refl)) as [-> | ->]; cbn [String.eqb Ascii.eqb Bool.eqb];
    cbn [length]; lia.
Qed.

(** C5. In a request that passes validation and model resolution, an
    exception of the dispatch stub or of the insert for one phone number is
    caught and becomes that number's entry of [errors] (its trimmed text
    and the exception's message), and the loop goes on: every number of the
    array is dispatched, in order, each number ends in [results] or in
    [errors] (whatever left its turn, [fate_of] telling which: the two
    above or a command text the column refuses), a number whose turn meets
    no exception has its entry in [results] and its row in the store, and
    the response is the 200 one, with [errors] beside [results] ([errors]
    is left out when empty).
    [dispatch w] stands for the calls of [sendSMSCommand]; the stub of the
    source is one such [w] ([stub]), and it never throws. *)
Theorem per_number_errors `{Postgres} (w : world) (b : body) (d : db)
    (numbers : list string) (m : json) (text : string) (k : Z) (model : device_model) :
  passes b d numbers m text k model ->
  exists ok summary_text total sent failed results errs after,
    post w b d
    = (Completed ok summary_text total sent failed results
         (if (0 <? length errs)%nat then Some errs else None), after) /\
    status_code (fst (post w b d)) = 200 /\
    dispatched after = map (fun p => (trim p, text, dm_name model)) numbers /\
    (length results + length errs)%nat = length numbers /\
    (forall i p e,
        numbers !! i = Some p ->
        dispatch w i (trim p) text (dm_name model) = Throw e ->
        In {| e_phone := trim p; e_error := message e |} errs) /\
    (forall i p r reason,
        numbers !! i = Some p ->
        dispatch w i (trim p) text (dm_name model) = Return r ->
        fault (insertion_at w i) = Some reason ->
        In {| e_phone := trim p; e_error := reason |} errs) /\
    (forall i p e,
        numbers !! i = Some p ->
        fate_of w k text (notes b) (dm_name model) i p = Failed e ->
        In {| e_phone := trim p; e_error := message e |} errs) /\
    (forall i p entry row,
        numbers !! i = Some p ->
        fate_of w k text (notes b) (dm_name model) i p = Stored entry row ->
        In entry results /\ r_phone entry = trim p /\
        In row (sms_history (store after))).
Proof.
  intros Hpass. pose proof (post_accepted w b d numbers m text k model Hpass) as Hpost.
  cbv zeta in Hpost. set (fs := fates w k text (notes b) (dm_name model) 0 numbers) in *.
  unfold summary in Hpost. cbn [results errors] in Hpost.
  do 5 eexists. exists (stored_entries fs), (failures fs). eexists.
  split; [exact Hpost|]. split; [now rewrite Hpost|]. cbn [dispatched store].
  split; [reflexivity|].
  split; [rewrite entries_and_failures; apply fates_length|].
  assert (Hat : forall i p, numbers !! i = Some p ->
                  In (p, fate_of w k text (notes b) (dm_name model) i p) fs)
    by (intros i p Hi; apply (fates_lookup w k text (notes b) (dm_name model) numbers 0 i p Hi)).
  split; [|split; [|split]].
  - intros i p e Hi Hthrow. apply failed_is_reported.
    specialize (Hat i p Hi). unfold fate_of in Hat. now rewrite Hthrow in Hat.
  - intros i p r reason Hi Hreturn Hfault.
    apply (failed_is_reported fs p (StoreError reason)).
    specialize (Hat i p Hi). unfold fate_of in Hat. now rewrite Hreturn, Hfault in Hat.
  - intros i p e Hi Hfate. apply failed_is_reported.
    specialize (Hat i p Hi). now rewrite Hfate in Hat.
  - intros i p entry row Hi Hfate. specialize (Hat i p Hi). rewrite Hfate in Hat.
    split; [now apply (stored_is_listed fs p entry row)|].
    split.
    + unfold fate_of in Hfate.
      destruct (dispatch w i (trim p) text (dm_name model)); [|discriminate].
      destruct (fault (insertion_at w i)); [discriminate|].
      destruct (varchar 255 (trim text)); [|discriminate].
      now injection Hfate as <- _.
    + unfold add_rows. cbn [sms_history]. apply in_or_app. right.
      now apply (stored_is_listed fs p entry row).
Qed.

(** C9. In a request that passes validation and model resolution the
    summary adds up: [sent + failed = total], where [total] is the length
    of the array, [sent] the number of results with status sent, and
    [failed] the number of results with status failed plus the number of
    entries of [errors]; every number has one entry, in [results] or in
    [errors]. *)
Theorem summary_adds_up `{Postgres} (w : world) (b : body) (d : db)
    (numbers : list string) (m : json) (text : string) (k : Z) (model : device_model) :
  passes b d numbers m text k model ->
  exists ok summary_text total sent failed results errors after,
    post w b d = (Completed ok summary_text total sent failed results errors, after) /\
    sent + failed = total /\
    total = Z.of_nat (length numbers) /\
    sent = count_status "sent" results /\
    failed = count_status "failed" results + Z.of_nat (length (default [] errors)) /\
    (length results + length (default [] errors))%nat = length numbers.
Proof.
  intros Hpass. pose proof (post_accepted w b d numbers m text k model Hpass) as Hpost.
  cbv zeta in Hpost. set (fs := fates w k text (notes b) (dm_name model) 0 numbers) in *.
  unfold summary in Hpost. cbn [results errors] in Hpost.
  do 8 eexists. split; [exact Hpost|].
  assert (Hlen : (length (stored_entries fs) + length (failures fs))%nat = length numbers)
    by (rewrite entries_and_failures; apply fates_length).
  assert (Hsplit : count_status "sent" (stored_entries fs)
                   + count_status "failed" (stored_entries fs)
                   = Z.of_nat (length (stored_entries fs))).
  { apply count_status_split. intros e He. apply (entry_status fs e); [|exact He].
    intros p e' row Hin. eapply fates_status. exact Hin. }
  rewrite length_map.
  repeat split; try reflexivity;
    destruct (failures fs); cbn [default from_option id length Nat.ltb Nat.leb] in *; lia.
Qed.

Lemma filter_valid_all (numbers : list string) :
  forallb valid numbers = true -> List.filter valid numbers = numbers.
Proof.
  induction numbers as [|p r IH]; [reflexivity|].
  cbn [forallb List.filter]. intros [Hp Hr]%andb_prop. rewrite Hp. f_equal. now apply IH.
Qed.

Lemma post_empty `{Postgres} (w : world) (b : body) (d : db) :
  phoneNumbers b = Some (JArr []) ->
  post w b d = (BadRequest "Phone numbers array is required" None,
                {| store := d; dispatched := [] |}).
Proof. intros Hphones. unfold post, handler. now rewrite Hphones. Qed.

(** C1 (amended). For a batch of phone numbers that are strings, sent with
    a model id that resolves and a command text that is not blank: when
    every number is valid, the number of [sms_history] rows the request
    creates is the count of valid numbers less the numbers reported in
    [errors] (the ones whose turn met an exception), so the count itself
    when the response reports no error; when some number is invalid, the
    request creates no row and its response lists exactly the invalid
    numbers. *)
Theorem rows_created_by_send `{Postgres} (w : world) (b : body) (d : db)
    (numbers : list string) (m : json) (text : string) (k : Z) (model : device_model) :
  phoneNumbers b = Some (JArr (map JStr numbers)) ->
  modelId b = Some m -> truthy m = true ->
  commandText b = Some (JStr text) -> trim text <> "" ->
  int4_value m = Return (Some k) -> device_models d !! k = Some model ->
  (forallb valid numbers = true ->
   rows_created d (snd (post w b d))
   = Z.of_nat (length (List.filter valid numbers)) - errors_reported (fst (post w b d))) /\
  (forallb valid numbers = false ->
   rows_created d (snd (post w b d)) = 0 /\
   fst (post w b d)
   = BadRequest "Invalid phone numbers detected"
       (Some (map JStr (List.filter (fun p => negb (valid p)) numbers)))).
Proof.
  intros Hphones Hmodel Htruthy Hcommand Hblank Hint Hlookup. split.
  - intros Hvalid. rewrite (filter_valid_all _ Hvalid).
    destruct numbers as [|p r] eqn:Hnumbers.
    + rewrite (post_empty w b d Hphones). unfold rows_created. cbn. lia.
    + rewrite <- Hnumbers in *.
      assert (Hpass : passes b d numbers m text k model).
      { unfold passes. repeat split; try assumption. congruence. }
      rewrite (post_accepted w b d numbers m text k model Hpass).
      pose proof (entries_and_failures (fates w k text (notes b) (dm_name model) 0 numbers))
        as Hsum.
      rewrite fates_length in Hsum.
      set (fs := fates w k text (notes b) (dm_name model) 0 numbers) in *.
      unfold rows_created, summary, add_rows. cbn [fst snd store sms_history results errors].
      rewrite length_app, rows_and_entries.
      destruct (failures fs); cbn [errors_reported length Nat.ltb Nat.leb] in *; lia.
  - intros Hinvalid.
    rewrite (post_invalid w b d numbers m text) by assumption.
    split; [|reflexivity]. unfold rows_created. cbn. lia.
Qed.

(** C2 (amended). For a send request that supplies a model id and a command
    text that is not blank, and whose phone numbers are strings: when at
    least one number fails the pattern (after trimming), the response is
    the 400 one and lists exactly the numbers that fail, as they were
    given and in their order; the dispatch stub is not called and the store
    is left as it was. *)
Theorem invalid_number_rejects_request `{Postgres} (w : world) (b : body) (d : db)
    (numbers : list string) (m : json) (text : string) :
  phoneNumbers b = Some (JArr (map JStr numbers)) ->
  modelId b = Some m -> truthy m = true ->
  commandText b = Some (JStr text) -> trim text <> "" ->
  (exists p, In p numbers /\ valid p = false) ->
  post w b d
  = (BadRequest "Invalid phone numbers detected"
       (Some (map JStr (List.filter (fun p => negb (valid p)) numbers))),
     {| store := d; dispatched := [] |}) /\
  status_code (fst (post w b d)) = 400 /\
  (forall p, In p (List.filter (fun p => negb (valid p)) numbers)
             <-> In p numbers /\ valid p = false) /\
  rows_created d (snd (post w b d)) = 0.
Proof.
  intros Hphones Hmodel Htruthy Hcommand Hblank (bad & Hin & Hbad).
  assert (Hinvalid : forallb valid numbers = false).
  { destruct (forallb valid numbers) eqn:Hall; [|reflexivity].
    rewrite forallb_forall in Hall. specialize (Hall bad Hin). congruence. }
  rewrite (post_invalid w b d numbers m text) by assumption.
  split; [reflexivity|]. split; [reflexivity|]. split.
  - intros p. rewrite filter_In. now destruct (valid p); cbn [negb]; intuition.
  - unfold rows_created. cbn. lia.
Qed.


End SendFacts.

(** ** Deleting a model *)
Module ModelsFacts.
Import Js Store Models ModelsSpec.

Lemma no_command_to_cascade (k : Z) (d : db) :
  commands_of k d = [] ->
  List.filter (fun c => match c_model_id c with Some x => negb (Z.eqb x k) | None => true end)
    (commands d) = commands d.
Proof.
  unfold commands_of. induction (commands d) as [|c r IH]; [reflexivity|].
  cbn [List.filter]. destruct (c_model_id c) as [x|].
  - destruct (Z.eqb x k); [discriminate|]. cbn [negb]. intros Hr. f_equal. now apply IH.
  - intros Hr. f_equal. now apply IH.
Qed.

Lemma delete_with_commands `{Postgres} (id : string) (k : Z) (d : db) :
  int4_value (JStr id) = Return (Some k) ->
  commands_of k d <> [] ->
  delete id d
  = (Conflict ("Cannot delete model. It has "
               ++ show (Z.of_nat (length (commands_of k d))) ++ " associated commands.")
       "Delete all commands first or use force delete.", d).
Proof.
  intros Hid Hsome.
  unfold delete, handler, try_catch, bind, count_commands. rewrite Hid.
  fold (commands_of k d).
  destruct (commands_of k d) as [|c r]; [congruence|]. reflexivity.
Qed.

Lemma delete_without_commands `{Postgres} (id : string) (k : Z) (d : db) :
  int4_value (JStr id) = Return (Some k) ->
  commands_of k d = [] ->
  delete id d
  = match device_models d !! k with
    | None => (NotFound "Model not found", d)
    | Some m =>
        if in_history k d then (InternalError "Failed to delete model", d)
        else (Deleted "Model deleted successfully" (k, m),
              {| device_models := base.delete k (device_models d);
                 commands := commands d; sms_history := sms_history d |})
    end.
Proof.
  intros Hid Hnone.
  unfold delete, handler, try_catch, bind, count_commands. rewrite Hid.
  fold (commands_of k d). rewrite Hnone.
  change (0 <? Z.of_nat (length (@nil command))) with false. cbv beta iota.
  unfold delete_device_model. rewrite Hid.
  destruct (device_models d !! k) as [m|]; [|reflexivity].
  fold (in_history k d). destruct (in_history k d); [reflexivity|].
  now rewrite (no_command_to_cascade k d Hnone).
Qed.

(** C6 (amended). For a model id that the store reads as the key [k]:
    while [n >= 1] commands reference the model the answer is 409, its
    message gives [n], and the store is left as it was; with no command
    referencing it, an absent model is answered 404 and the store is left
    as it was; a model that exists and that no [sms_history] row references
    is removed from [device_models], the other tables being left as they
    were; a model that exists and that some [sms_history] row references is
    not removed: the store refuses the statement, the answer is 500 and the
    store is left as it was. *)
Theorem delete_model_guarded `{Postgres} (id : string) (k : Z) (d : db) :
  int4_value (JStr id) = Return (Some k) ->
  (commands_of k d <> [] ->
   delete id d
   = (Conflict ("Cannot delete model. It has "
                ++ show (Z.of_nat (length (commands_of k d))) ++ " associated commands.")
        "Delete all commands first or use force delete.", d)
   /\ status_code (fst (delete id d)) = 409) /\
  (commands_of k d = [] -> device_models d !! k = None ->
   delete id d = (NotFound "Model not found", d)
   /\ status_code (fst (delete id d)) = 404) /\
  (forall m, commands_of k d = [] -> device_models d !! k = Some m ->
   in_history k d = false ->
   delete id d
   = (Deleted "Model deleted successfully" (k, m),
      {| device_models := base.delete k (device_models d);
         commands := commands d; sms_history := sms_history d |})
   /\ device_models (snd (delete id d)) !! k = None) /\
  (forall m, commands_of k d = [] -> device_models d !! k = Some m ->
   in_history k d = true ->
   delete id d = (InternalError "Failed to delete model", d)
   /\ status_code (fst (delete id d)) = 500).
Proof.
  intros Hid. split; [|split; [|split]].
  - intros Hsome. rewrite (delete_with_commands id k d Hid Hsome). now split.
  - intros Hnone Habsent.
    rewrite (delete_without_commands id k d Hid Hnone), Habsent. now split.
  - intros m Hnone Hpresent Hfree.
    rewrite (delete_without_commands id k d Hid Hnone), Hpresent, Hfree.
    split; [reflexivity|]. cbn [snd device_models]. apply lookup_delete_eq.
  - intros m Hnone Hpresent Hreferenced.
    rewrite (delete_without_commands id k d Hid Hnone), Hpresent, Hreferenced. now split.
Qed.

End ModelsFacts.

(** ** The history listing *)
Module HistoryFacts.
Import Js Double Store History HistorySpec TextFacts.

(** *** The clause, as the specification words it *)

Lemma numbered_app (ts us : list column_test) :
  forall n, numbered n (ts ++ us) = (numbered n ts ++ numbered (n + length ts) us)%list.
Proof.
  induction ts as [|t r IH]; intros n; cbn [numbered app length].
  - now rewrite Nat.add_0_r.
  - rewrite IH. now replace (S n + length r)%nat with (n + S (length r))%nat by lia.
Qed.

Lemma push_holds (t : column_test) (value : string -> string) (v : field string)
    (b : builder) (fs : list (column_test * string)) :
  (forall s, value s = bound_text t s) ->
  holds b fs -> holds (push t value v b) (fs ++ one t v).
Proof.
  intros Hvalue (Hc & Hp & Hn). unfold push, one.
  destruct v as [s|]; [|rewrite app_nil_r; now repeat split].
  destruct (truthy_text (Some s)); [|rewrite app_nil_r; now repeat split].
  unfold holds, clauses, values in *. cbn [conditions params paramCount].
  rewrite Hc, Hp, Hn, !map_app, numbered_app, length_map, length_app, Hvalue.
  cbn [map fst snd numbered length]. repeat split; f_equal; lia.
Qed.

Lemma build_holds (q : query) : holds (build q) (supplied q).
Proof.
  unfold build, supplied. rewrite !app_assoc.
  repeat (apply push_holds; [now intros s|]).
  change (holds (push StatusEq as_is (status q) start) ([] ++ one StatusEq (status q))).
  apply push_holds; [now intros s|]. now repeat split.
Qed.

Lemma numbered_lookup (ts : list column_test) :
  forall (n i : nat) (t : column_test),
    ts !! i = Some t ->
    numbered n ts !! i = Some {| test := t; placeholder := (n + i)%nat |}.
Proof.
  induction ts as [|u r IH]; intros n i t Hi; [discriminate|].
  destruct i as [|i]; cbn [numbered].
  - injection Hi as ->. now rewrite Nat.add_0_r.
  - change (numbered (S n) r !! i = Some {| test := t; placeholder := (n + S i)%nat |}).
    rewrite (IH (S n) i t Hi). do 2 f_equal. lia.
Qed.

Lemma where_is_conjunction (b : builder) (fs : list (column_test * string)) :
  holds b fs -> whereClause b = conjunction fs.
Proof.
  intros (Hc & _ & _). unfold whereClause, conjunction. rewrite Hc.
  now destruct fs.
Qed.

Lemma conjunction_of_tests (fs gs : list (column_test * string)) :
  map fst fs = map fst gs -> conjunction fs = conjunction gs.
Proof.
  intros Hsame. unfold conjunction, clauses. rewrite Hsame.
  destruct fs, gs; try discriminate; reflexivity.
Qed.

(** *** The text of the clause, as the store reads it *)

Lemma placeholder_in_numeral (n : nat) (rest : string) :
  digits rest = ("", rest) ->
  placeholder_in ("$" ++ show (Z.of_nat n) ++ rest) = Some (n, rest).
Proof.
  intros Hrest.
  destruct (show_numeral (Z.of_nat n)) as (u & -> & Hu & Hvalue); [lia|].
  unfold placeholder_in.
  rewrite after_append, (digits_numeral u rest Hrest), (read_numeral u Hu), Hvalue.
  now rewrite Nat2Z.id.
Qed.

Lemma compared_text (literal : string) (t : column_test) (n : nat) (rest : string) :
  digits rest = ("", rest) ->
  compared literal t (literal ++ "$" ++ show (Z.of_nat n) ++ rest)
  = Some ({| test := t; placeholder := n |}, rest).
Proof.
  intros Hrest. unfold compared.
  now rewrite after_append, (placeholder_in_numeral n rest Hrest).
Qed.

(** The store reads in the text of a condition the condition it was
    written for. *)
Lemma condition_in_sql (c : condition) (rest : string) :
  digits rest = ("", rest) ->
  condition_in (sql c ++ rest) = Some (c, rest).
Proof.
  intros Hrest. destruct c as [t n]. unfold sql. cbn [test placeholder]. cbv zeta.
  destruct t; rewrite !append_assoc; unfold condition_in.
  - now rewrite (compared_text "h.status = " StatusEq n rest Hrest).
  - now rewrite (compared_text "h.model_id = " ModelIdEq n rest Hrest).
  - now rewrite (compared_text "h.phone_number ILIKE " PhoneLike n rest Hrest).
  - now rewrite (compared_text "h.sent_at >= " SentFrom n rest Hrest).
  - now rewrite (compared_text "h.sent_at <= " SentTo n rest Hrest).
  - unfold searched.
    rewrite (compared_text "(h.command_text ILIKE " SearchLike n) by reflexivity.
    rewrite (compared_text " OR h.notes ILIKE " SearchLike n) by reflexivity.
    rewrite (compared_text " OR m.name ILIKE " SearchLike n) by reflexivity.
    rewrite after_append. cbn [placeholder]. now rewrite Nat.eqb_refl.
Qed.

Lemma conditions_in_and (fuel : nat) (s rest : string) (c : condition) :
  condition_in s = Some (c, " AND " ++ rest) ->
  conditions_in (S fuel) s = option_map (cons c) (conditions_in fuel rest).
Proof. intros Hc. cbn [conditions_in]. now rewrite Hc. Qed.

Lemma conditions_in_join (cs : list condition) :
  forall fuel,
    cs <> [] -> (length cs <= fuel)%nat ->
    conditions_in fuel (join " AND " (map sql cs)) = Some cs.
Proof.
  induction cs as [|c r IH]; intros fuel Hcs Hfuel; [contradiction|].
  destruct fuel as [|fuel]; [cbn [length] in Hfuel; lia|].
  destruct r as [|c' r'].
  - cbn [map join conditions_in]. rewrite <- (append_nil_r (sql c)).
    now rewrite (condition_in_sql c "").
  - change (join " AND " (map sql (c :: c' :: r')))
      with (sql c ++ " AND " ++ join " AND " (map sql (c' :: r'))).
    rewrite (conditions_in_and fuel _ (join " AND " (map sql (c' :: r'))) c).
    + rewrite IH; [reflexivity|discriminate|cbn [length] in *; lia].
    + now apply condition_in_sql.
Qed.

Lemma sql_length (c : condition) : (1 <= String.length (sql c))%nat.
Proof.
  destruct c as [t n]. unfold sql. cbn [test]. cbv zeta.
  destruct t; rewrite length_append; cbn [String.length]; lia.
Qed.

Lemma join_length (cs : list condition) :
  (length cs <= String.length (join " AND " (map sql cs)))%nat.
Proof.
  induction cs as [|c r IH]; [reflexivity|]. destruct r as [|c' r'].
  - cbn [map join length]. apply sql_length.
  - change (join " AND " (map sql (c :: c' :: r')))
      with (sql c ++ " AND " ++ join " AND " (map sql (c' :: r'))).
    rewrite !length_append. pose proof (sql_length c). cbn [length] in *. lia.
Qed.

(** The store reads in the clause of a builder the conditions that the
    builder holds. *)
Lemma where_in_clause (b : builder) : where_in (whereClause b) = Some (conditions b).
Proof.
  unfold whereClause. destruct (conditions b) as [|c r] eqn:Hb; [reflexivity|].
  change (0 <? length (c :: r))%nat with true. cbv iota.
  change (where_in ("WHERE " ++ join " AND " (map sql (c :: r))))
    with (conditions_in (String.length (join " AND " (map sql (c :: r))))
            (join " AND " (map sql (c :: r)))).
  apply conditions_in_join; [discriminate|apply join_length].
Qed.

Lemma where_clause_empty (b : builder) : whereClause b = "" <-> conditions b = [].
Proof.
  unfold whereClause. destruct (conditions b) as [|c r]; [now split|].
  change (0 <? length (c :: r))%nat with true. cbv iota. split; discriminate.
Qed.

(** C3. Whatever filters a request supplies (a filter is supplied when its
    parameter is present and not empty), the store reads in the text of the
    [WHERE] clause the handler builds the conditions of exactly those
    filters, in the handler's order, joined by [AND], the condition at
    position [i] on the placeholder [$i+1]; the text is empty exactly when
    no filter is supplied; the values of the filters are the parameter
    array, in the same order, so that the parameter that the condition at
    position [i] names in the text is the value of its filter; and the
    text of the clause is the same for two requests that supply the same
    filters, whatever the values: no value is written into the text. *)
Theorem where_clause_of_supplied_filters (q : query) :
  where_in (whereClause (build q)) = Some (clauses (supplied q)) /\
  (whereClause (build q) = "" <-> supplied q = []) /\
  whereClause (build q) = conjunction (supplied q) /\
  conditions (build q) = clauses (supplied q) /\
  params (build q) = values (supplied q) /\
  paramCount (build q) = length (supplied q) /\
  (forall i t s,
      supplied q !! i = Some (t, s) ->
      exists cs,
        where_in (whereClause (build q)) = Some cs /\
        cs !! i = Some {| test := t; placeholder := S i |} /\
        parameter (params (build q)) (S i) = Return (PText (bound_text t s))) /\
  (forall q',
      map fst (supplied q') = map fst (supplied q) ->
      whereClause (build q') = whereClause (build q)).
Proof.
  pose proof (build_holds q) as Hq. pose proof Hq as (Hc & Hp & Hn).
  pose proof (where_in_clause (build q)) as Hread. rewrite Hc in Hread.
  split; [exact Hread|]. split.
  { rewrite where_clause_empty, Hc. unfold clauses.
    destruct (supplied q); split; discriminate || reflexivity. }
  split; [now apply where_is_conjunction|].
  split; [exact Hc|]. split; [exact Hp|]. split; [exact Hn|]. split.
  - intros i t s Hi. exists (clauses (supplied q)). split; [exact Hread|].
    rewrite Hp. unfold clauses, values, parameter. split.
    + apply (numbered_lookup (map fst (supplied q)) 1 i t).
      now rewrite list_lookup_fmap, Hi.
    + now rewrite list_lookup_fmap, Hi.
  - intros q' Hsame.
    rewrite (where_is_conjunction _ _ (build_holds q')), (where_is_conjunction _ _ Hq).
    now apply conjunction_of_tests.
Qed.

(** *** The clause, as the store evaluates it *)

Lemma bind_condition_at `{Postgres} (ps : list param) (i : nat) (t : column_test) (s : string) :
  ps !! i = Some (PText (bound_text t s)) ->
  bind_condition ps {| test := t; placeholder := S i |} = read (t, s).
Proof.
  intros Hi. unfold read, bind_condition, parameter. cbn [placeholder test fst snd].
  now rewrite Hi.
Qed.

Lemma bind_where_numbered `{Postgres} (fs : list (column_test * string)) :
  forall (pre post : list param),
    bind_where (pre ++ values fs ++ post)%list (numbered (S (length pre)) (map fst fs))
    = read_all fs.
Proof.
  induction fs as [|[t s] r IH]; intros pre post; [reflexivity|].
  cbn [map fst numbered bind_where read_all values snd].
  rewrite (bind_condition_at _ (length pre) t s).
  - destruct (read (t, s)) as [b|e]; [|reflexivity].
    specialize (IH (pre ++ [PText (bound_text t s)])%list post).
    rewrite length_app, Nat.add_1_r, <- app_assoc in IH.
    cbn [app] in IH |- *. unfold values in IH. now rewrite IH.
  - rewrite lookup_app_r by lia. now rewrite Nat.sub_diag.
Qed.

Lemma highest_numbered (ts : list column_test) :
  forall a, highest (map placeholder (numbered (S a) ts))
            = match ts with [] => O | _ => (a + length ts)%nat end.
Proof.
  induction ts as [|t r IH]; intros a; [reflexivity|].
  cbn [numbered map highest fold_right placeholder length].
  fold (highest (map placeholder (numbered (S (S a)) r))). rewrite IH.
  destruct r; cbn [length]; lia.
Qed.

Lemma arity_of_count (fs : list (column_test * string)) :
  (length (values fs) =? highest (map placeholder (clauses fs)))%nat = true.
Proof.
  unfold clauses, values. rewrite highest_numbered, !length_map.
  apply Nat.eqb_eq. destruct fs; cbn [map length]; lia.
Qed.

Lemma arity_of_select (fs : list (column_test * string)) (l o : param) :
  (length (values fs ++ [l; o])%list
   =? highest ((length fs + 1) :: (length fs + 2) :: map placeholder (clauses fs)))%nat = true.
Proof.
  unfold clauses, values. cbn [highest fold_right].
  fold (highest (map placeholder (numbered 1 (map fst fs)))).
  rewrite highest_numbered, length_app, !length_map.
  apply Nat.eqb_eq. destruct fs; cbn [map length]; lia.
Qed.

Lemma row_count_text `{Postgres} (ps : list param) (i : nat) (s : string) :
  ps !! i = Some (PText s) ->
  row_count ps (S i)
  = match integer_in s with
    | Some z =>
        if countable z then Return (Z.to_nat z)
        else if negb (in_int8 z) then Throw (StoreError "value is out of range for type bigint")
             else Throw (StoreError "LIMIT or OFFSET must not be negative")
    | None => Throw invalid_integer
    end.
Proof.
  intros Hi. unfold row_count, parameter, countable. rewrite Hi.
  unfold param_integer. cbn [param_text].
  destruct (integer_in s) as [z|]; [|reflexivity].
  destruct (in_int8 z); cbn [negb andb]; [|reflexivity].
  destruct (Z.ltb_spec z 0), (Z.leb_spec 0 z); try reflexivity; lia.
Qed.

Lemma bind_where_built `{Postgres} (fs : list (column_test * string)) (post : list param) :
  bind_where (values fs ++ post)%list (clauses fs) = read_all fs.
Proof. exact (bind_where_numbered fs [] post). Qed.

(** The handler, in terms of what the store reads: a page when it reads
    every supplied filter and takes the limit and the offset, the 500
    answer otherwise. *)
Lemma get_eq `{Postgres} `{Arithmetic} (q : query) (d : db) :
  get q d
  = match read_all (supplied q), limit_of q, offset_of q with
    | Return bs, Some l, Some o =>
        if countable l && countable o then listing q d bs l o
        else InternalError "Failed to fetch SMS history"
    | _, _, _ => InternalError "Failed to fetch SMS history"
    end.
Proof.
  destruct (build_holds q) as (Hc & Hp & Hn).
  unfold get, handler, try_catch, bind, ret, select_history, count_history.
  rewrite (where_in_clause (build q)), Hc, Hp, Hn.
  rewrite arity_of_select. cbn [negb].
  rewrite bind_where_built.
  destruct (read_all (supplied q)) as [bs|e] eqn:Hread; [|reflexivity].
  rewrite Nat.add_1_r.
  rewrite (row_count_text _ (length (supplied q)) (limit_text q)).
  2:{ rewrite lookup_app_r by (unfold values; rewrite length_map; lia).
      unfold values. rewrite length_map, Nat.sub_diag. unfold limit_text.
      now destruct (as_parameter (limit q) 50). }
  fold (limit_of q). destruct (limit_of q) as [l|]; [|reflexivity].
  destruct (countable l) eqn:Hlimit.
  2:{ destruct (negb (in_int8 l)); destruct (offset_of q); reflexivity. }
  replace (length (supplied q) + 2)%nat with (S (S (length (supplied q)))) by lia.
  rewrite (row_count_text _ (S (length (supplied q))) (offset_text q)).
  2:{ rewrite lookup_app_r by (unfold values; rewrite length_map; lia).
      unfold values. rewrite length_map.
      now replace (S (length (supplied q)) - length (supplied q))%nat with 1%nat by lia. }
  fold (offset_of q). destruct (offset_of q) as [o|]; [|reflexivity].
  destruct (countable o) eqn:Hoffset.
  2:{ destruct (negb (in_int8 o)); reflexivity. }
  rewrite take_app_length' by (unfold values; now rewrite length_map).
  rewrite arity_of_count. cbn [negb].
  rewrite <- (app_nil_r (values (supplied q))), bind_where_built, Hread.
  reflexivity.
Qed.

(** *** The total *)

Lemma read_all_In `{Postgres} (fs : list (column_test * string)) :
  forall bs, read_all fs = Return bs ->
             forall b, In b bs <-> exists f, In f fs /\ read f = Return b.
Proof.
  induction fs as [|f r IH]; intros bs Hread b.
  - injection Hread as <-. split; [contradiction|]. now intros (f & [] & _).
  - cbn [read_all] in Hread.
    destruct (read f) as [b0|] eqn:Hf; [|discriminate].
    destruct (read_all r) as [bs0|]; [|discriminate].
    injection Hread as <-. specialize (IH bs0 eq_refl b). split.
    + intros [<-|Hin]; [exists f; split; [now left|exact Hf]|].
      apply IH in Hin as (g & Hg & Hread). exists g. split; [now right|exact Hread].
    + intros (g & [<-|Hg] & Hread).
      * left. congruence.
      * right. apply IH. now exists g.
Qed.

Lemma filter_length_le {A : Type} (P Q : A -> bool) (l : list A) :
  (forall x, P x = true -> Q x = true) ->
  (length (List.filter P l) <= length (List.filter Q l))%nat.
Proof.
  intros HPQ. induction l as [|x r IH]; [reflexivity|].
  cbn [List.filter]. destruct (P x) eqn:HP.
  - rewrite (HPQ x HP). cbn [length]. lia.
  - destruct (Q x); cbn [length]; lia.
Qed.

Lemma matching_all `{Postgres} (d : db) : length (matching [] d) = length (sms_history d).
Proof.
  unfold matching, where_true. cbn [forallb].
  rewrite <- (length_map (left_join d) (sms_history d)).
  induction (map (left_join d) (sms_history d)) as [|x r IH]; [reflexivity|].
  cbn [List.filter length]. now rewrite IH.
Qed.

Lemma matching_more `{Postgres} (bs bs' : list bound) (d : db) :
  (forall b, In b bs -> In b bs') ->
  (length (matching bs' d) <= length (matching bs d))%nat.
Proof.
  intros Hsub. unfold matching. apply filter_length_le.
  intros r. unfold where_true. rewrite !forallb_forall. intros Hall b Hb.
  apply Hall. now apply Hsub.
Qed.

Lemma matching_length `{Postgres} (bs : list bound) (d : db) :
  (length (matching bs d) <= length (sms_history d))%nat.
Proof.
  rewrite <- matching_all. apply matching_more. intros b [].
Qed.

(** What a page that was returned tells of the request. *)
Lemma listing_inv `{Postgres} `{Arithmetic} (q : query) (d : db) (data : list history_item)
    (pg : pagination) (echo : query) :
  get q d = Listing data pg echo ->
  exists bs l o,
    read_all (supplied q) = Return bs /\
    limit_of q = Some l /\ offset_of q = Some o /\
    countable l = true /\ countable o = true /\
    Listing data pg echo = listing q d bs l o.
Proof.
  rewrite get_eq. destruct (read_all (supplied q)) as [bs|e]; [|discriminate].
  destruct (limit_of q) as [l|]; [|discriminate].
  destruct (offset_of q) as [o|]; [|discriminate].
  destruct (countable l) eqn:Hl; [|discriminate].
  destruct (countable o) eqn:Ho; [|discriminate].
  intros <-. exists bs, l, o. now repeat split.
Qed.

(** C4. Whatever the store holds, the total of a page that the handler
    returns is counted with the predicate of the row query and without its
    pagination: the rows are a page of the matching rows in order (as many
    as the store reads in the limit, after as many as it reads in the
    offset), the total is the number of all matching rows.  So the total
    of a request that supplies no filter is the number of rows of
    [sms_history], and a request that supplies the same filters and more
    has a total that is no larger. *)
Theorem total_counts_matching_rows `{Postgres} `{Arithmetic} (q : query) (d : db)
    (data : list history_item) (pg : pagination) (echo : query) :
  get q d = Listing data pg echo ->
  (exists bs l o,
      read_all (supplied q) = Return bs /\
      limit_of q = Some l /\ offset_of q = Some o /\
      data = map to_item
               (take (Z.to_nat l)
                  (drop (Z.to_nat o) (order_by_sent_at_desc (matching bs d)))) /\
      total pg = Z.of_nat (length (matching bs d))) /\
  (supplied q = [] -> total pg = Z.of_nat (length (sms_history d))) /\
  (forall q' data' pg' echo',
      extends q q' ->
      get q' d = Listing data' pg' echo' ->
      total pg' <= total pg).
Proof.
  intros Hget.
  destruct (listing_inv q d data pg echo Hget) as (bs & l & o & Hread & Hl & Ho & _ & _ & Heq).
  unfold listing in Heq. injection Heq as -> -> _.
  cbn [total]. split; [|split].
  - now exists bs, l, o.
  - intros Hnone. rewrite Hnone in Hread. injection Hread as <-. now rewrite matching_all.
  - intros q' data' pg' echo' Hextends Hget'.
    destruct (listing_inv q' d data' pg' echo' Hget')
      as (bs' & l' & o' & Hread' & _ & _ & _ & _ & Heq').
    unfold listing in Heq'. injection Heq' as _ -> _. cbn [total].
    apply inj_le. apply matching_more. intros b Hb.
    apply (read_all_In _ _ Hread) in Hb as (f & Hf & Hreadf).
    apply (read_all_In _ _ Hread'). exists f. split; [now apply Hextends|exact Hreadf].
Qed.

(** *** The page *)

Lemma like_nullable_true `{Postgres} (text : option string) (pattern : string) :
  like_nullable text pattern = true -> exists n, text = Some n /\ ilike n pattern = true.
Proof. destruct text as [n|]; [|discriminate]. intros Hn. now exists n. Qed.

Lemma read_meets `{Postgres} (f : column_test * string) (b : bound) (r : joined) :
  read f = Return b -> satisfies b r = true -> meets f (to_item r).
Proof.
  destruct f as [t s]. unfold read, bind_condition, parameter, param_integer, meets.
  cbn [placeholder test fst snd lookup list_lookup param_text param_integer item to_item
       model_name].
  destruct t; cbn [bound_text].
  - intros [= <-]. cbn [satisfies]. now intros ?%String.eqb_eq.
  - destruct (integer_in s) as [k|]; [|discriminate].
    destruct (in_int4 k); [|discriminate]. intros [= <-]. cbn [satisfies].
    destruct (model_id r.1) as [x|]; [|discriminate].
    intros ->%Z.eqb_eq. now exists k.
  - intros [= <-]. cbn [satisfies]. unfold contains. tauto.
  - destruct (timestamp_in s) as [x|]; [|discriminate]. intros [= <-]. cbn [satisfies].
    intros Hle%Z.leb_le. now exists x.
  - destruct (timestamp_in s) as [x|]; [|discriminate]. intros [= <-]. cbn [satisfies].
    intros Hle%Z.leb_le. now exists x.
  - intros [= <-]. cbn [satisfies]. unfold contains.
    intros [[Hc|Hn]%orb_prop|Hm]%orb_prop.
    + now left.
    + right. left. now apply like_nullable_true.
    + right. right. now apply like_nullable_true.
Qed.

Lemma readable_read `{Postgres} (q : query) (f : column_test * string) :
  readable q -> In f (supplied q) -> exists b, read f = Return b.
Proof.
  intros (Hmodel & Hfrom & Hto) Hin. destruct f as [t s].
  unfold read, bind_condition, parameter, param_integer.
  cbn [placeholder test fst snd lookup list_lookup param_text param_integer].
  destruct t; cbn [bound_text]; try (eexists; reflexivity).
  - destruct (Hmodel s Hin) as (k & -> & ->). eexists; reflexivity.
  - destruct (Hfrom s Hin) as (x & ->). eexists; reflexivity.
  - destruct (Hto s Hin) as (x & ->). eexists; reflexivity.
Qed.

Lemma read_all_total `{Postgres} (fs : list (column_test * string)) :
  (forall f, In f fs -> exists b, read f = Return b) ->
  exists bs, read_all fs = Return bs.
Proof.
  induction fs as [|f r IH]; intros Hall; [now exists []|].
  destruct (Hall f (or_introl eq_refl)) as [b Hb].
  destruct IH as [bs Hbs]; [intros g Hg; apply Hall; now right|].
  exists (b :: bs). cbn [read_all]. now rewrite Hb, Hbs.
Qed.

Lemma sorted_take {A : Type} (R : A -> A -> Prop) (l : list A) :
  StronglySorted R l -> forall n, StronglySorted R (take n l).
Proof.
  induction 1 as [|x r Hr IH Hx]; intros [|n]; cbn [take]; try constructor.
  - apply IH.
  - now apply Forall_take.
Qed.

Lemma sorted_drop {A : Type} (R : A -> A -> Prop) (l : list A) :
  StronglySorted R l -> forall n, StronglySorted R (drop n l).
Proof.
  induction 1 as [|x r Hr IH Hx]; intros [|n]; cbn [drop]; try constructor; auto.
Qed.

Lemma sorted_items (l : list joined) :
  StronglySorted sent_at_desc l -> StronglySorted latest_first (map to_item l).
Proof.
  induction 1 as [|x r Hr IH Hx]; cbn [map]; constructor; [exact IH|].
  rewrite List.Forall_forall in *. intros it (y & <- & Hy)%in_map_iff.
  exact (Hx y Hy).
Qed.

Lemma In_take {A : Type} (x : A) (l : list A) : forall n, In x (take n l) -> In x l.
Proof.
  induction l as [|y r IH]; intros [|n]; cbn [take]; try contradiction.
  intros [<-|Hin]; [now left|right; eapply IH; exact Hin].
Qed.

Lemma In_drop {A : Type} (x : A) (l : list A) : forall n, In x (drop n l) -> In x l.
Proof.
  induction l as [|y r IH]; intros [|n]; cbn [drop]; try contradiction; auto.
  intros Hin. right. eapply IH. exact Hin.
Qed.

(** *** Requests in numerals *)

Lemma leading_numeral_from (u : Decimal.uint) :
  forall acc : positive,
    fold_left (fun acc v => acc * 10 + v)
      (Listings.leading 10 (NilEmpty.string_of_uint u)) (Z.pos acc)
    = Z.pos (Pos.of_uint_acc u acc).
Proof.
  induction u as [|u IH|u IH|u IH|u IH|u IH|u IH|u IH|u IH|u IH|u IH]; intros acc;
    [reflexivity|..];
    cbn [NilEmpty.string_of_uint Pos.of_uint_acc]; rewrite <- IH; cbn [Listings.leading];
    (match goal with
     | |- context [Listings.digit_of 10 ?a] =>
         let v := eval vm_compute in (Listings.digit_of 10 a) in
         change (Listings.digit_of 10 a) with v
     end);
    cbv iota; cbn [fold_left]; f_equal; lia.
Qed.

Lemma leading_numeral (u : Decimal.uint) :
  fold_left (fun acc v => acc * 10 + v)
    (Listings.leading 10 (NilEmpty.string_of_uint u)) 0
  = Z.of_uint u.
Proof.
  unfold Z.of_uint.
  induction u as [|u IH|u IH|u IH|u IH|u IH|u IH|u IH|u IH|u IH|u IH];
    [reflexivity|..];
    cbn [NilEmpty.string_of_uint Pos.of_uint Z.of_N Listings.leading];
    (match goal with
     | |- context [Listings.digit_of 10 ?a] =>
         let v := eval vm_compute in (Listings.digit_of 10 a) in
         change (Listings.digit_of 10 a) with v
     end);
    cbv iota; cbn [fold_left Z.mul Z.add];
    [exact IH|apply leading_numeral_from..].
Qed.

Lemma leading_nonempty (a : ascii) (r : string) :
  isDigit a = true -> Listings.leading 10 (String a r) <> [].
Proof.
  intros Hdigit.
  destruct (digit_cases a Hdigit) as [->|[->|[->|[->|[->|[->|[->|[->|[->| ->]]]]]]]]];
    discriminate.
Qed.

(** [parseInt] reads the decimal text of a number that is not negative as
    the number. *)
Lemma parseInt_numeral (z : Z) : 0 <= z -> Listings.parseInt (show z) = Finite z.
Proof.
  intros Hz. destruct (show_numeral z Hz) as (u & -> & Hu & <-).
  pose proof (digits_of_numeral u) as Hdigits. pose proof (leading_numeral u) as Hvalue.
  destruct (numeral_nonempty u Hu) as (a & r & Htext & Hdigit).
  rewrite Htext in *. pose proof (leading_nonempty a r Hdigit) as Hsome.
  assert (Hradix : match String a r with
                   | String a0 (String x r0) =>
                       if (code a0 =? 48)%N && Listings.is_x x then (16, r0)
                       else (10, String a r)
                   | _ => (10, String a r)
                   end = (10, String a r)).
  { destruct r as [|x r0]; [reflexivity|].
    cbn [digits] in Hdigits. rewrite Hdigit in Hdigits.
    destruct (isDigit x) eqn:Hx; [|discriminate].
    destruct (digit_cases x Hx) as [->|[->|[->|[->|[->|[->|[->|[->|[->| ->]]]]]]]]];
      now rewrite andb_false_r. }
  unfold Listings.parseInt.
  replace (trimStart (String a r)) with (String a r)
    by (destruct (digit_cases a Hdigit) as [->|[->|[->|[->|[->|[->|[->|[->|[->| ->]]]]]]]]];
        reflexivity).
  replace (match String a r with
           | String a0 r0 =>
               if (code a0 =? 45)%N then (-1, r0)
               else if (code a0 =? 43)%N then (1, r0) else (1, String a r)
           | EmptyString => (1, String a r)
           end) with (1, String a r)
    by (destruct (digit_cases a Hdigit) as [->|[->|[->|[->|[->|[->|[->|[->|[->| ->]]]]]]]]];
        reflexivity).
  cbv zeta. cbn [fst snd]. rewrite Hradix. cbn [fst snd].
  destruct (Listings.leading 10 (String a r)) as [|v vs]; [contradiction|].
  rewrite Hvalue. f_equal. lia.
Qed.

(** A request without [page] is for the page 1. *)
Lemma page_is_default `{Arithmetic} (q : query) : page q = None -> page_is q 1.
Proof.
  intros Hnone. unfold page_is, as_number, as_integer. rewrite Hnone.
  split; [reflexivity|]. rewrite toString_exact by (unfold safe; lia). reflexivity.
Qed.

(** A request whose [page] is a decimal numeral is for the page of that
    number. *)
Lemma page_is_numeral `{Arithmetic} (q : query) (p : Z) :
  0 <= p < 9007199254740992 -> page q = Some (show p) -> page_is q p.
Proof.
  intros Hp Hpage. unfold page_is, as_number, as_integer. rewrite Hpage.
  split; [apply numeral_exact; unfold safe; lia|apply parseInt_numeral; lia].
Qed.

(** The same of [limit], on a store that reads the decimal numerals. *)
Lemma limit_is_default `{Postgres} `{Arithmetic} (q : query) :
  integer_in (show 50) = Some 50 -> limit q = None -> limit_is q 50.
Proof.
  intros Hstore Hnone.
  unfold limit_is, limit_of, limit_text, as_number, as_integer, as_parameter.
  rewrite Hnone. cbn [param_text]. rewrite toString_exact by (unfold safe; lia).
  split; [reflexivity|]. split; [reflexivity|exact Hstore].
Qed.

Lemma limit_is_numeral `{Postgres} `{Arithmetic} (q : query) (l : Z) :
  0 <= l < 9007199254740992 -> integer_in (show l) = Some l ->
  limit q = Some (show l) -> limit_is q l.
Proof.
  intros Hl Hstore Hlimit.
  unfold limit_is, limit_of, limit_text, as_number, as_integer, as_parameter.
  rewrite Hlimit. cbn [param_text].
  split; [apply numeral_exact; unfold safe; lia|].
  split; [apply parseInt_numeral; lia|exact Hstore].
Qed.

(** The offset of a request for the page [p] of [l] rows is [(p - 1) * l],
    and the handler sends its decimal text. *)
Lemma offset_text_exact `{Arithmetic} (q : query) (p l : Z) :
  as_number (page q) 1 = of_integer p -> as_number (limit q) 50 = of_integer l ->
  1 <= p -> 1 <= l -> p * l < 9007199254740992 ->
  offset_text q = show ((p - 1) * l).
Proof.
  intros Hp Hl Hpage Hlimit Hsafe. unfold offset_text. rewrite Hp, Hl.
  rewrite minus_exact by (unfold safe; nia).
  rewrite times_exact by (unfold safe; nia).
  apply toString_exact. unfold safe. nia.
Qed.

(** C8 (amended). For a history request for the page [p >= 1] of [l >= 1]
    rows ([p * l] below 2^53), which is a request whose [page] and [limit],
    where it has them, are texts in which the arithmetic of the engine and
    [parseInt] read [p] and [l], and the store reads [l] (1 and 50 where
    it has none), on a store that reads the decimal text of
    [(p - 1) * l], reads the model id and the dates that are supplied, and
    holds fewer than 2^53 rows: the answer is a page; it has at most [l]
    rows; every row meets every supplied filter (with [status=failed],
    every row has the status failed); the rows are in descending order of
    [sent_at]; and the pagination has the page [p], the limit [l],
    [hasPrev = (p > 1)], [hasNext = (p * l < total)] and [pages] the
    ceiling of [total / l]. *)
Theorem history_page `{Postgres} `{Arithmetic} (q : query) (d : db) (p l : Z) :
  page_is q p -> limit_is q l ->
  1 <= p -> 1 <= l -> p * l < 9007199254740992 ->
  integer_in (show ((p - 1) * l)) = Some ((p - 1) * l) ->
  Z.of_nat (length (sms_history d)) < 9007199254740992 ->
  readable q ->
  exists data pg,
    get q d = Listing data pg q /\
    Z.of_nat (length data) <= l /\
    (forall it f, In it data -> In f (supplied q) -> meets f it) /\
    StronglySorted latest_first data /\
    p_page pg = Finite p /\ p_limit pg = Finite l /\
    hasPrev pg = (1 <? p) /\
    hasNext pg = (p * l <? total pg) /\
    (exists c, pages pg = of_integer c /\ (c - 1) * l < total pg <= c * l).
Proof.
  intros (Hp & Hpi) (Hl & Hli & Hls) Hpage Hlimit Hsafe Hstore Hrows Hreadable.
  destruct (read_all_total (supplied q)) as [bs Hread];
    [intros f Hf; now apply (readable_read q)|].
  assert (Ho : offset_of q = Some ((p - 1) * l)).
  { unfold offset_of. now rewrite (offset_text_exact q p l). }
  assert (Hcl : countable l = true).
  { unfold countable, in_int8. rewrite !andb_true_iff, !Z.leb_le. nia. }
  assert (Hco : countable ((p - 1) * l) = true).
  { unfold countable, in_int8. rewrite !andb_true_iff, !Z.leb_le. nia. }
  pose proof (matching_length bs d) as Htotal.
  rewrite get_eq, Hread, Hls, Ho, Hcl, Hco. cbn [andb]. unfold listing.
  do 2 eexists. split; [reflexivity|]. cbn [p_page p_limit total pages hasNext hasPrev].
  rewrite Hp, Hl.
  split; [|split; [|split; [|split; [|split; [|split; [|split]]]]]].
  - rewrite length_map, length_take. lia.
  - intros it f (r & <- & Hr)%in_map_iff Hf.
    apply In_take, In_drop in Hr.
    apply (Permutation_in _ (order_by_permutation _)) in Hr.
    unfold matching in Hr. apply filter_In in Hr as [_ Htrue].
    destruct (readable_read q f Hreadable Hf) as [b Hb].
    apply (read_meets f b r Hb).
    unfold where_true in Htrue. rewrite forallb_forall in Htrue. apply Htrue.
    apply (read_all_In _ _ Hread). now exists f.
  - apply sorted_items, sorted_take, sorted_drop, order_by_sorted.
  - exact Hpi.
  - exact Hli.
  - apply less_exact; unfold safe; nia.
  - rewrite times_exact by (unfold safe; nia).
    apply less_exact; unfold safe; nia.
  - exists (- (- Z.of_nat (length (matching bs d)) / l)). split.
    + apply ceil_over_exact; unfold safe; lia.
    + pose proof (Z.mul_div_le (- Z.of_nat (length (matching bs d))) l).
      pose proof (Z.mul_succ_div_gt (- Z.of_nat (length (matching bs d))) l). nia.
Qed.

End HistoryFacts.

(** ** The rate limit *)
Module RateLimitFacts.
Import RateLimit.

Lemma rateLimit_other (ip other : string) (now : Z) (m : gmap string clientData) :
  other <> ip -> snd (rateLimit ip now m) !! other = m !! other.
Proof.
  intros Hne. unfold rateLimit.
  destruct (m !! ip) as [c|]; [destruct (resetTime c <? now)|]; cbn [snd];
    apply lookup_insert_ne; congruence.
Qed.

Lemma rateLimit_own (ip : string) (now : Z) (m1 m2 : gmap string clientData) :
  m1 !! ip = m2 !! ip ->
  fst (rateLimit ip now m1) = fst (rateLimit ip now m2)
  /\ snd (rateLimit ip now m1) !! ip = snd (rateLimit ip now m2) !! ip.
Proof.
  intros Heq. unfold rateLimit. rewrite <- Heq.
  destruct (m1 !! ip) as [c|]; [destruct (resetTime c <? now)|]; cbn [fst snd];
    rewrite !lookup_insert_eq; auto.
Qed.

Lemma serve_cons (ip : string) (now : Z) (rest : list (string * Z))
    (m : gmap string clientData) :
  serve ((ip, now) :: rest) m
  = ((ip, fst (rateLimit ip now m)) :: fst (serve rest (snd (rateLimit ip now m))),
     snd (serve rest (snd (rateLimit ip now m)))).
Proof.
  cbn [serve]. destruct (rateLimit ip now m) as [v counted]. cbn [fst snd].
  destruct (serve rest counted) as [vs final]. reflexivity.
Qed.

Lemma from_cons {A : Type} (ip a : string) (x : A) (l : list (string * A)) :
  from ip ((a, x) :: l) = if String.eqb a ip then (a, x) :: from ip l else from ip l.
Proof. reflexivity. Qed.

Lemma serve_apart (ip : string) (requests : list (string * Z)) :
  forall m1 m2 : gmap string clientData,
    m1 !! ip = m2 !! ip ->
    from ip (fst (serve requests m1)) = fst (serve (from ip requests) m2)
    /\ snd (serve requests m1) !! ip = snd (serve (from ip requests) m2) !! ip.
Proof.
  induction requests as [|[a now] rest IH]; intros m1 m2 Heq.
  - cbn. auto.
  - rewrite serve_cons. cbn [fst snd]. rewrite !from_cons.
    destruct (String.eqb_spec a ip) as [->|Hne].
    + rewrite serve_cons. cbn [fst snd].
      destruct (rateLimit_own ip now m1 m2 Heq) as [Hv Hm].
      destruct (IH _ _ Hm) as [IH1 IH2]. rewrite Hv, IH1. auto.
    + apply IH. rewrite rateLimit_other by congruence. exact Heq.
Qed.

Lemma rateLimit_counted (ip : string) (now c r : Z) (m : gmap string clientData) :
  m !! ip = Some {| count := c; resetTime := r |} ->
  now <= r ->
  admitted (fst (rateLimit ip now m)) = (c + 1 <=? 100)
  /\ snd (rateLimit ip now m) !! ip = Some {| count := c + 1; resetTime := r |}.
Proof.
  intros Hm Hnow. unfold rateLimit. rewrite Hm. cbn [resetTime count].
  destruct (Z.ltb_spec r now) as [Hlt|_]; [lia|]. cbn [fst snd].
  rewrite lookup_insert_eq. split; [|reflexivity].
  unfold RATE_LIMIT_MAX. destruct (Z.ltb_spec 100 (c + 1)), (Z.leb_spec (c + 1) 100);
    try reflexivity; lia.
Qed.

Lemma rateLimit_opens (ip : string) (now : Z) (m : gmap string clientData) :
  expired (m !! ip) now ->
  rateLimit ip now m
  = (Next, <[ip := {| count := 1; resetTime := now + RATE_LIMIT_WINDOW |}]> m).
Proof.
  unfold expired, rateLimit. destruct (m !! ip) as [c|]; [|reflexivity].
  intros Hlt. destruct (Z.ltb_spec (resetTime c) now); [reflexivity|lia].
Qed.

Lemma serve_window (ip : string) (r : Z) (ts : list Z) :
  forall (c : Z) (m : gmap string clientData),
    m !! ip = Some {| count := c; resetTime := r |} ->
    Forall (fun t => t <= r) ts ->
    (forall i a, fst (serve (map (pair ip) ts) m) !! i = Some a ->
       admitted (snd a) = (c + Z.of_nat i + 1 <=? 100))
    /\ snd (serve (map (pair ip) ts) m) !! ip
       = Some {| count := c + Z.of_nat (length ts); resetTime := r |}.
Proof.
  induction ts as [|t ts IH]; intros c m Hm Hts.
  - cbn. split; [intros i a Hi; destruct i; discriminate|].
    rewrite Hm. do 2 f_equal. lia.
  - inversion Hts as [|? ? Ht Hrest]; subst.
    cbn [map]. rewrite serve_cons. cbn [fst snd].
    destruct (rateLimit_counted ip t c r m Hm Ht) as [Hv Hm'].
    destruct (IH _ _ Hm' Hrest) as [IHv IHm]. split.
    + intros [|i] a Hi.
      * cbn in Hi. injection Hi as <-. cbn [snd]. rewrite Hv. f_equal. cbn. lia.
      * cbn in Hi. rewrite (IHv i a Hi). f_equal. lia.
    + rewrite IHm. do 2 f_equal. cbn [length]. lia.
Qed.

Lemma serve_counts (requests : list (string * Z)) :
  forall (m : gmap string clientData) (seen : string -> Z),
    (forall ip, 0 <= seen ip) ->
    (forall ip c, m !! ip = Some c -> count c <= seen ip) ->
    forall ip c, snd (serve requests m) !! ip = Some c ->
      count c <= seen ip + Z.of_nat (length (from ip requests)).
Proof.
  induction requests as [|[a now] rest IH]; intros m seen Hseen Hm ip c Hc.
  - cbn in *. specialize (Hm ip c Hc). lia.
  - rewrite serve_cons in Hc. cbn [snd] in Hc.
    specialize (IH (snd (rateLimit a now m))
                  (fun x => seen x + if String.eqb a x then 1 else 0)).
    cbn beta in IH. rewrite from_cons.
    assert (Hstep : forall ip c, snd (rateLimit a now m) !! ip = Some c ->
                      count c <= seen ip + (if String.eqb a ip then 1 else 0)).
    { clear -Hm Hseen. intros ip c Hc. destruct (String.eqb_spec a ip) as [->|Hne].
      - unfold rateLimit in Hc. destruct (m !! ip) as [c0|] eqn:Hm0.
        + specialize (Hm ip c0 Hm0).
          destruct (resetTime c0 <? now); cbn [snd] in Hc; rewrite lookup_insert_eq in Hc;
            injection Hc as <-; cbn [count].
          * specialize (Hseen ip). lia.
          * lia.
        + cbn [snd] in Hc. rewrite lookup_insert_eq in Hc. injection Hc as <-. cbn [count].
          specialize (Hseen ip). lia.
      - rewrite rateLimit_other in Hc by congruence. specialize (Hm ip c Hc). lia. }
    assert (Hseen' : forall ip, 0 <= seen ip + (if String.eqb a ip then 1 else 0)).
    { intros x. specialize (Hseen x). destruct (String.eqb a x); lia. }
    specialize (IH Hseen' Hstep ip c Hc).
    destruct (String.eqb a ip); cbn [length]; lia.
Qed.

(** X1.  A client whose window is over (or who is new) opens a window of
    60000 ms with its request; of the requests it makes up to the end of
    that window, that one included, the first 100 are let through and each
    later one is refused, and a refused request is counted without moving
    the end of the window. *)
Theorem window_admits_the_maximum (ip : string) (t0 : Z) (ts : list Z)
    (m : gmap string clientData) :
  expired (m !! ip) t0 ->
  Forall (fun t => t <= t0 + RATE_LIMIT_WINDOW) ts ->
  (forall i a, fst (serve (map (pair ip) (t0 :: ts)) m) !! i = Some a ->
     admitted (snd a) = (i <? 100)%nat)
  /\ snd (serve (map (pair ip) (t0 :: ts)) m) !! ip
     = Some {| count := Z.of_nat (S (length ts)); resetTime := t0 + RATE_LIMIT_WINDOW |}.
Proof.
  intros Hexpired Hts. cbn [map]. rewrite serve_cons, (rateLimit_opens _ _ _ Hexpired).
  cbn [fst snd].
  destruct (serve_window ip (t0 + RATE_LIMIT_WINDOW) ts 1
              (<[ip := {| count := 1; resetTime := t0 + RATE_LIMIT_WINDOW |}]> m)
              (lookup_insert_eq _ _ _) Hts) as [Hv Hm].
  split.
  - intros [|i] a Hi.
    + cbn in Hi. injection Hi as <-. reflexivity.
    + cbn in Hi. rewrite (Hv i a Hi).
      destruct (Z.leb_spec (1 + Z.of_nat i + 1) 100), (Nat.ltb_spec (S i) 100);
        try reflexivity; lia.
  - rewrite Hm. do 2 f_equal. lia.
Qed.

Lemma window_admits_the_maximum_witness :
  (forall i a,
     fst (serve (map (pair Samples.office) (1000 :: Samples.burst)) Samples.stale) !! i = Some a ->
     admitted (snd a) = (i <? 100)%nat)
  /\ snd (serve (map (pair Samples.office) (1000 :: Samples.burst)) Samples.stale)
       !! Samples.office
     = Some {| count := Z.of_nat (S (length Samples.burst));
               resetTime := 1000 + RATE_LIMIT_WINDOW |}.
Proof.
  apply window_admits_the_maximum.
  - vm_compute. reflexivity.
  - apply List.Forall_forall. intros t Ht. unfold Samples.burst in Ht.
    apply in_map_iff in Ht. destruct Ht as [k [<- Hk]]. apply in_seq in Hk.
    unfold RATE_LIMIT_WINDOW. lia.
Defined.

(** X2.  The clients are limited apart: the answers a client gets in a run
    of requests of many clients, and the count the map ends with for it,
    are those it gets when the server takes its requests alone. *)
Theorem clients_are_limited_apart (ip : string) (requests : list (string * Z))
    (m : gmap string clientData) :
  from ip (fst (serve requests m)) = fst (serve (from ip requests) m)
  /\ snd (serve requests m) !! ip = snd (serve (from ip requests) m) !! ip.
Proof. apply serve_apart. reflexivity. Qed.

(** X3.  From the empty map on, a request is refused only when its client
    has made 100 requests or more before it. *)
Theorem refused_only_after_the_maximum (earlier : list (string * Z)) (ip : string) (now : Z) :
  admitted (fst (rateLimit ip now (snd (serve earlier ∅)))) = false ->
  (100 <= length (from ip earlier))%nat.
Proof.
  intros Hrefused.
  pose proof (serve_counts earlier ∅ (fun _ => 0) (fun _ => Z.le_refl 0)) as Hcount.
  cbn beta in Hcount.
  assert (Hempty : forall (a : string) (c : clientData),
            (∅ : gmap string clientData) !! a = Some c -> count c <= 0).
  { intros a c Hc. rewrite lookup_empty in Hc. discriminate. }
  specialize (Hcount Hempty ip). clear Hempty.
  unfold rateLimit in Hrefused.
  destruct (snd (serve earlier ∅) !! ip) as [c|]; [|discriminate].
  specialize (Hcount c eq_refl).
  destruct (resetTime c <? now); [discriminate|]. cbn [fst count] in Hrefused.
  unfold RATE_LIMIT_MAX in Hrefused.
  destruct (Z.ltb_spec 100 (count c + 1)); [lia|discriminate].
Qed.

Lemma refused_only_after_the_maximum_witness :
  admitted (fst (rateLimit Samples.office 31000 (snd (serve Samples.morning ∅)))) = false
  /\ (100 <= length (from Samples.office Samples.morning))%nat.
Proof.
  assert (Hrefused : admitted (fst (rateLimit Samples.office 31000
                                      (snd (serve Samples.morning ∅)))) = false)
    by (vm_compute; reflexivity).
  exact (conj Hrefused (refused_only_after_the_maximum _ _ _ Hrefused)).
Defined.

End RateLimitFacts.

(** ** The start of the server *)
Module StartupFacts.
Import Startup.

Lemma retry_run (n : nat) :
  forall (connect : nat -> bool) (i : nat),
    match first_success n connect i with
    | Some k =>
        last (retry n connect i) = Some Released
        /\ ~ In (Exit 1) (retry n connect i)
        /\ attempts (retry n connect i) = S k
        /\ waited (retry n connect i) = 5000 * Z.of_nat k
    | None =>
        (n <> O -> last (retry n connect i) = Some (Exit 1))
        /\ ~ In Connected (retry n connect i)
        /\ attempts (retry n connect i) = n
        /\ waited (retry n connect i) = 5000 * Z.of_nat (pred n)
    end.
Proof.
  induction n as [|n IH]; intros connect i.
  - cbn. repeat split; auto. congruence.
  - cbn [first_success retry]. destruct (connect i) eqn:Hi.
    + cbn. repeat split; auto. intros [H|[H|[]]]; discriminate.
    + specialize (IH connect (S i)).
      destruct (first_success n connect (S i)) as [k|] eqn:Hk; cbn [option_map].
      * destruct n as [|n]; [discriminate|]. cbn [Nat.eqb].
        destruct IH as (Hlast & Hexit & Hattempts & Hwaited).
        remember (retry (S n) connect (S i)) as rest. repeat split.
        -- destruct rest as [|e rest]; [discriminate|]. exact Hlast.
        -- intros [H|[H|H]]; try discriminate. exact (Hexit H).
        -- cbn [attempts]. rewrite Hattempts. reflexivity.
        -- cbn [waited]. rewrite Hwaited. lia.
      * destruct IH as (Hlast & Hconnected & Hattempts & Hwaited).
        destruct n as [|n]; cbn [Nat.eqb].
        -- cbn. repeat split; auto. intros [H|[H|[]]]; discriminate.
        -- remember (retry (S n) connect (S i)) as rest. repeat split.
           ++ intros _. specialize (Hlast ltac:(discriminate)).
              destruct rest as [|e rest]; [discriminate|]. exact Hlast.
           ++ intros [H|[H|H]]; try discriminate. exact (Hconnected H).
           ++ cbn [attempts]. rewrite Hattempts. reflexivity.
           ++ cbn [waited]. rewrite Hwaited. cbn [pred]. lia.
Qed.

(** X4.  [connectWithRetry] calls [pool.connect()] until a call resolves,
    five times at most, waiting 5000 ms after each failure but the fifth:
    when the call number [k] (from 0) is the first to resolve, the run made
    [k + 1] calls, waited [5000 * k] ms, released the client and did not
    end the process; when none of the five resolves, the run made five
    calls, waited 20000 ms and ended the process with code 1. *)
Theorem connectWithRetry_ends (connect : nat -> bool) :
  match first_success 5 connect 0 with
  | Some k =>
      last (connectWithRetry connect) = Some Released
      /\ ~ In (Exit 1) (connectWithRetry connect)
      /\ attempts (connectWithRetry connect) = S k
      /\ waited (connectWithRetry connect) = 5000 * Z.of_nat k
  | None =>
      last (connectWithRetry connect) = Some (Exit 1)
      /\ ~ In Connected (connectWithRetry connect)
      /\ attempts (connectWithRetry connect) = 5%nat
      /\ waited (connectWithRetry connect) = 20000
  end.
Proof.
  unfold connectWithRetry. pose proof (retry_run 5 connect 0) as H.
  destruct (first_success 5 connect 0); [exact H|].
  destruct H as (Hlast & H). split; [apply Hlast; discriminate|exact H].
Qed.

End StartupFacts.

(** ** The send workflow, request by request *)
Module SendCases.
Import Js Store Send SendSpec SendFacts.

Lemma strings_of (phones : list json) :
  forallb is_string phones = true -> exists numbers, phones = map JStr numbers.
Proof.
  induction phones as [|v r IH]; [exists []; reflexivity|].
  cbn [forallb]. intros [Hv Hr]%andb_prop. destruct (IH Hr) as [numbers ->].
  destruct v; try discriminate. exists (s :: numbers). reflexivity.
Qed.

Lemma not_all_strings (phones : list json) :
  forallb is_string phones = false -> existsb (fun v => negb (is_string v)) phones = true.
Proof.
  induction phones as [|v r IH]; [discriminate|].
  cbn [forallb existsb]. destruct (is_string v); cbn [negb andb orb]; auto.
Qed.

(** Every request is turned away with the state as it was, or passes
    validation and model resolution. *)
Lemma post_cases `{Postgres} (w : world) (b : body) (d : db) :
  (status_code (fst (post w b d)) <> 200 /\ snd (post w b d) = {| store := d; dispatched := [] |})
  \/ (exists numbers m text k model, passes b d numbers m text k model).
Proof.
  destruct (phoneNumbers b) as [phones|] eqn:Hp;
    [|left; unfold post, handler, try_catch; rewrite Hp; split; [discriminate|reflexivity]].
  destruct phones as [| | | |[|first others]|];
    try (left; unfold post, handler, try_catch; rewrite Hp; split; [discriminate|reflexivity]).
  destruct (modelId b) as [m|] eqn:Hm;
    [|left; unfold post, handler, try_catch; rewrite Hp, Hm; split; [discriminate|reflexivity]].
  destruct (commandText b) as [c|] eqn:Hc;
    [|left; unfold post, handler, try_catch; rewrite Hp, Hm, Hc; split;
      [discriminate|reflexivity]].
  destruct (truthy m) eqn:Htm;
    [|left; unfold post, handler, try_catch; rewrite Hp, Hm, Hc, Htm; split;
      [discriminate|reflexivity]].
  destruct c as [|[]|z|text|l|l];
    try (left; unfold post, handler, try_catch; rewrite Hp, Hm, Hc, Htm; split;
         [discriminate|reflexivity]).
  - left. unfold post, handler, try_catch. rewrite Hp, Hm, Hc, Htm. cbn [truthy].
    destruct (Z.eqb z 0); split; try discriminate; reflexivity.
  - destruct (String.eqb_spec (trim text) "") as [Hblank|Hblank].
    + left. unfold post, handler, try_catch. rewrite Hp, Hm, Hc, Htm. cbn [truthy].
      destruct (String.eqb text ""); cbn [negb orb]; [split; [discriminate|reflexivity]|].
      unfold bind, lift. cbn [trim_receiver]. rewrite Hblank.
      split; [discriminate|reflexivity].
    + destruct (forallb is_string (first :: others)) eqn:Hstrings.
      * destruct (strings_of _ Hstrings) as [numbers Hnumbers]. rewrite Hnumbers in Hp.
        assert (Hne : numbers <> []) by (destruct numbers; [discriminate|congruence]).
        destruct (forallb valid numbers) eqn:Hvalid.
        -- destruct (int4_value m) as [[k|]|e] eqn:Hint.
           ++ destruct (device_models d !! k) as [model|] eqn:Hk.
              ** right. exists numbers, m, text, k, model. repeat split; assumption.
              ** left. destruct numbers as [|p r]; [congruence|].
                 unfold post.
                 rewrite (handler_strings w b _ p r m text) by assumption.
                 rewrite (filter_invalid_nil _ Hvalid).
                 unfold try_catch, bind, query, select_model_name. cbn [store].
                 rewrite Hint, Hk. split; [discriminate|reflexivity].
           ++ left. destruct numbers as [|p r]; [congruence|].
              unfold post.
              rewrite (handler_strings w b _ p r m text) by assumption.
              rewrite (filter_invalid_nil _ Hvalid).
              unfold try_catch, bind, query, select_model_name. cbn [store].
              rewrite Hint. split; [discriminate|reflexivity].
           ++ left. destruct numbers as [|p r]; [congruence|].
              unfold post.
              rewrite (handler_strings w b _ p r m text) by assumption.
              rewrite (filter_invalid_nil _ Hvalid).
              unfold try_catch, bind, query, select_model_name. cbn [store].
              rewrite Hint. split; [discriminate|reflexivity].
        -- left. rewrite (post_invalid w b d numbers m text) by assumption.
           split; [discriminate|reflexivity].
      * left.
        destruct (post_not_a_string w b d (first :: others) m text Hp
                    (not_all_strings _ Hstrings) Hm Htm Hc Hblank) as [reason ->].
        split; [discriminate|reflexivity].
Qed.

Lemma stored_rows_length (fs : list (string * fate)) :
  (length (stored_rows fs) <= length fs)%nat.
Proof.
  induction fs as [|[p f] r IH]; [cbn; lia|].
  unfold stored_rows in *. cbn [flat_map snd]. rewrite length_app.
  destruct f; cbn [length]; lia.
Qed.

(** The rows a request stores, for the model [k]: each for one of the
    numbers, trimmed, with the status of its dispatch. *)
Lemma stored_rows_of (w : world) (k : Z) (text : string) (notes : field string)
    (name : string) (numbers : list string) :
  forall i : nat,
    Forall (fun h => model_id h = Some k
                     /\ (status h = "sent" \/ status h = "failed")
                     /\ exists p, In p numbers /\ phone_number h = trim p)
      (stored_rows (fates w k text notes name i numbers)).
Proof.
  induction numbers as [|p r IH]; intros i; [constructor|].
  unfold stored_rows. cbn [fates flat_map snd]. apply List.Forall_app. split.
  - unfold fate_of. destruct (dispatch w i (trim p) text name) as [res|e]; [|constructor].
    destruct (fault (insertion_at w i)); [constructor|].
    destruct (varchar 255 (trim text)); [|constructor].
    constructor; [|constructor]. cbn [model_id status phone_number]. repeat split.
    + unfold status_of. destruct (Dispatch.success res); auto.
    + exists p. split; [now left|reflexivity].
  - specialize (IH (S i)). unfold stored_rows in IH.
    eapply List.Forall_impl; [|exact IH]. cbn beta.
    intros h (Hm & Hs & q & Hq & Hphone). repeat split; auto.
    exists q. split; [now right|exact Hphone].
Qed.

(** What a request leaves behind: rows appended to [sms_history], no more
    of them than calls of the dispatch stub, and no more calls than phone
    numbers. *)
Lemma post_appends `{Postgres} (w : world) (b : body) (d : db) :
  exists rows,
    store (snd (post w b d)) = add_rows d rows
    /\ (length rows <= length (dispatched (snd (post w b d))))%nat
    /\ (length (dispatched (snd (post w b d)))
        <= match phoneNumbers b with
           | Some (JArr phones) => length phones
           | _ => O
           end)%nat
    /\ Forall (fun h => model_exists d (model_id h) = true
                        /\ (status h = "sent" \/ status h = "failed"))
         rows.
Proof.
  destruct (post_cases w b d) as [[_ ->]|(numbers & m & text & k & model & Hpasses)].
  - exists []. cbn [store dispatched length]. rewrite add_rows_nil.
    repeat split; try lia. constructor.
  - rewrite (post_accepted w b d numbers m text k model Hpasses).
    destruct Hpasses as (Hphones & _ & _ & _ & _ & _ & _ & _ & Hmodel).
    set (fs := fates w k text (notes b) (dm_name model) 0 numbers).
    exists (stored_rows fs). cbn [snd store dispatched]. rewrite Hphones.
    rewrite !length_map. repeat split.
    + pose proof (stored_rows_length fs) as Hlen. unfold fs in Hlen at 2.
      rewrite fates_length in Hlen. exact Hlen.
    + lia.
    + eapply List.Forall_impl; [|apply stored_rows_of]. cbn beta.
      intros h (Hm & Hs & _). split; [|exact Hs].
      rewrite Hm. cbn [model_exists]. now rewrite Hmodel.
Qed.

(** X5.  A send request that is not answered 200 had no effect: no call of
    the dispatch stub was made and the store is as it was.  (A request is
    turned away before the loop or not at all.) *)
Theorem refused_send_has_no_effect `{Postgres} (w : world) (b : body) (d : db) :
  status_code (fst (post w b d)) <> 200 ->
  snd (post w b d) = {| store := d; dispatched := [] |}.
Proof.
  intros Hstatus.
  destruct (post_cases w b d) as [[_ Hsame]|(numbers & m & text & k & model & Hpasses)];
    [exact Hsame|].
  rewrite (post_accepted w b d numbers m text k model Hpasses) in Hstatus.
  cbn in Hstatus. congruence.
Qed.


(** X7.  A send request whose numbers are valid and whose command text is
    not blank, for a model id that the store reads as a key that
    [device_models] does not have, is answered 404; for a model id that
    the store cannot read as an integer it is answered 500.  Neither makes
    a call of the dispatch stub or changes the store. *)
Theorem send_resolves_the_model_first `{Postgres} (w : world) (b : body) (d : db)
    (numbers : list string) (m : json) (text : string) :
  phoneNumbers b = Some (JArr (map JStr numbers)) -> numbers <> [] ->
  forallb valid numbers = true ->
  modelId b = Some m -> truthy m = true ->
  commandText b = Some (JStr text) -> trim text <> "" ->
  (forall k, int4_value m = Return (Some k) -> device_models d !! k = None ->
     post w b d = (NotFound "Model not found", {| store := d; dispatched := [] |}))
  /\ (forall e, int4_value m = Throw e ->
        post w b d = (InternalError "Failed to send SMS" e,
                      {| store := d; dispatched := [] |})).
Proof.
  intros Hphones Hne Hvalid Hmodel Htruthy Hcommand Hblank.
  destruct numbers as [|p r]; [congruence|].
  split; [intros k Hint Hk|intros e Hint]; unfold post;
    rewrite (handler_strings w b _ p r m text) by assumption;
    rewrite (filter_invalid_nil _ Hvalid);
    unfold try_catch, bind, query, select_model_name; cbn [store];
    rewrite Hint; [rewrite Hk|]; reflexivity.
Qed.

(** *** With the stub of the source *)

Lemma stub_result (draws_at : nat -> Dispatch.draws) (i : nat)
    (phone command modelName : string) :
  exists r,
    stub draws_at i phone command modelName = Return r
    /\ Dispatch.success r = StubSpec.delivers draws_at i.
Proof.
  unfold stub, Dispatch.sendSMSCommand, Dispatch.attempt, StubSpec.delivers.
  destruct (negb (Qle_bool (Dispatch.random_outcome (draws_at i)) Dispatch.one_tenth));
    eexists; split; reflexivity.
Qed.

Lemma delivered_among_next (draws_at : nat -> Dispatch.draws) (i n : nat) :
  StubSpec.delivered_among draws_at i (S n)
  = (if StubSpec.delivers draws_at i then 1 else 0)
    + StubSpec.delivered_among draws_at (S i) n.
Proof.
  unfold StubSpec.delivered_among. cbn [seq List.filter].
  destruct (StubSpec.delivers draws_at i); cbn [length]; lia.
Qed.

(** The fates of the numbers when the stub is called and the store takes
    every insert: each is stored, as sent or as failed by its draw. *)
Lemma fates_untroubled (w : world) (draws_at : nat -> Dispatch.draws) (k : Z)
    (text : string) (notes : field string) (name : string) (numbers : list string) :
  dispatch w = stub draws_at ->
  (forall i, fault (insertion_at w i) = None) ->
  (String.length (trim text) <= 255)%nat ->
  forall i : nat,
    let fs := fates w k text notes name i numbers in
    failures fs = []
    /\ length (stored_entries fs) = length numbers
    /\ length (stored_rows fs) = length numbers
    /\ count_status "sent" (stored_entries fs)
       = StubSpec.delivered_among draws_at i (length numbers)
    /\ count_status "failed" (stored_entries fs)
       = Z.of_nat (length numbers) - StubSpec.delivered_among draws_at i (length numbers).
Proof.
  intros Hstub Hfault Hlen.
  assert (Hfits : varchar 255 (trim text) = Return (trim text)).
  { unfold varchar. destruct (Nat.leb_spec (String.length (trim text)) 255);
      [reflexivity|lia]. }
  induction numbers as [|p r IH]; intros i; [cbn; repeat split; reflexivity|].
  specialize (IH (S i)). cbn zeta in IH |- *.
  destruct IH as (Hfail & Hentries & Hrows & Hsent & Hfailed).
  cbn [fates length]. rewrite delivered_among_next.
  unfold failures, stored_entries, stored_rows in *. cbn [flat_map snd fst].
  unfold fate_of. rewrite Hstub.
  destruct (stub_result draws_at i (trim p) text name) as (res & -> & Hres).
  rewrite Hfault, Hfits. cbn [app]. unfold count_status in *. cbn [List.filter r_status].
  unfold status_of. rewrite Hres.
  destruct (StubSpec.delivers draws_at i);
    cbn [String.eqb Ascii.eqb Bool.eqb length]; repeat split; auto; lia.
Qed.

(** X8.  With the stub of the source, a store that takes every insert and
    a command text of 255 characters at most, a request that passes
    validation and model resolution stores one row for every number: the
    answer is 200 with as many results as numbers and no [errors]
    property, [sent] is the number of calls whose draw is above 0.1,
    [failed] is the number of the others, and [success] tells whether one
    call at least delivered. *)
Theorem untroubled_send_stores_every_number `{Postgres} (w : world)
    (draws_at : nat -> Dispatch.draws) (b : body) (d : db) (numbers : list string)
    (m : json) (text : string) (k : Z) (model : device_model) :
  passes b d numbers m text k model ->
  dispatch w = stub draws_at ->
  (forall i, fault (insertion_at w i) = None) ->
  (String.length (trim text) <= 255)%nat ->
  let n := Z.of_nat (length numbers) in
  let sent := StubSpec.delivered_among draws_at 0 (length numbers) in
  exists results,
    fst (post w b d)
    = Completed (0 <? sent)
        ("SMS processing completed. Sent: " ++ show sent ++ ", Failed: " ++ show (n - sent))
        n sent (n - sent) results None
    /\ length results = length numbers
    /\ rows_created d (snd (post w b d)) = n.
Proof.
  intros Hpasses Hstub Hfault Hlen n sent.
  rewrite (post_accepted w b d numbers m text k model Hpasses).
  destruct (fates_untroubled w draws_at k text (notes b) (dm_name model) numbers
              Hstub Hfault Hlen 0%nat) as (Hfail & Hentries & Hrows & Hsent & Hfailed).
  set (fs := fates w k text (notes b) (dm_name model) 0 numbers) in *.
  exists (stored_entries fs). cbn [fst snd]. split; [|split].
  - unfold summary. cbn [results errors]. rewrite Hfail, Hsent, Hfailed.
    cbn [length]. rewrite length_map, Z.add_0_r. reflexivity.
  - exact Hentries.
  - unfold rows_created. cbn [store add_rows sms_history].
    rewrite length_app, Hrows. unfold n. lia.
Qed.

End SendCases.

(** ** The registry of models and commands *)
Module RegistryFacts.
Import Js Store Registry RegistrySpec.

(** *** Trimmed text *)

Lemma trimEnd_idempotent (s : string) : trimEnd (trimEnd s) = trimEnd s.
Proof.
  induction s as [|a r IH]; [reflexivity|].
  cbn [trimEnd]. destruct (trimEnd r) as [|b r'] eqn:Hr.
  - destruct (isWhiteSpace a) eqn:Ha; [reflexivity|]. cbn [trimEnd]. now rewrite Ha.
  - cbn [trimEnd] in IH |- *. now rewrite IH.
Qed.

Lemma trimStart_head (s : string) :
  match trimStart s with
  | EmptyString => True
  | String a _ => isWhiteSpace a = false
  end.
Proof.
  induction s as [|a r IH]; [exact I|].
  cbn [trimStart]. destruct (isWhiteSpace a) eqn:Ha; [exact IH|exact Ha].
Qed.

Lemma trimStart_trimEnd (t : string) :
  match t with
  | EmptyString => True
  | String a _ => isWhiteSpace a = false
  end ->
  trimStart (trimEnd t) = trimEnd t.
Proof.
  destruct t as [|a r]; [reflexivity|]. intros Ha.
  cbn [trimEnd]. destruct (trimEnd r); rewrite ?Ha; cbn [trimStart]; now rewrite Ha.
Qed.

Lemma trim_idempotent (s : string) : trim (trim s) = trim s.
Proof.
  unfold trim. rewrite (trimStart_trimEnd _ (trimStart_head s)). apply trimEnd_idempotent.
Qed.

Lemma trimEnd_fixed (a : ascii) (r : string) :
  trimEnd (String a r) = String a r ->
  (r = "" /\ isWhiteSpace a = false) \/ (r <> "" /\ trimEnd r = r).
Proof.
  cbn [trimEnd]. destruct (trimEnd r) as [|b r'] eqn:Hr.
  - destruct (isWhiteSpace a) eqn:Ha; [discriminate|].
    intros Heq. injection Heq as <-. now left.
  - intros Heq. injection Heq as <-. right. split; [discriminate|reflexivity].
Qed.

Lemma space_is_white (a : ascii) : (code a =? 32)%N = true -> isWhiteSpace a = true.
Proof.
  unfold isWhiteSpace. intros ->. now rewrite orb_true_r.
Qed.

Lemma trimEnd_not_spaces (t : string) :
  trimEnd t = t -> t <> "" ->
  forallb (fun a => (code a =? 32)%N) (list_ascii_of_string t) = false.
Proof.
  induction t as [|a r IH]; [congruence|]. intros Hfix _.
  cbn [list_ascii_of_string forallb].
  destruct (trimEnd_fixed a r Hfix) as [[-> Ha]|[Hr Hfix']].
  - destruct (code a =? 32)%N eqn:Hs; [|reflexivity].
    rewrite (space_is_white a Hs) in Ha. discriminate.
  - rewrite (IH Hfix' Hr). apply andb_false_r.
Qed.

Lemma trimEnd_tail_not_spaces (t : string) :
  forall n : nat,
    (n < String.length t)%nat -> trimEnd t = t ->
    forallb (fun a => (code a =? 32)%N)
      (list_ascii_of_string (substring n (String.length t - n) t)) = false.
Proof.
  induction t as [|a r IH]; intros n Hn Hfix; [cbn in Hn; lia|].
  destruct n as [|n].
  - rewrite Nat.sub_0_r.
    assert (Hwhole : forall s, substring 0 (String.length s) s = s).
    { clear. induction s as [|b s IH]; [reflexivity|]. cbn. now rewrite IH. }
    rewrite Hwhole. apply trimEnd_not_spaces; [exact Hfix|discriminate].
  - cbn [String.length Nat.sub substring]. cbn [String.length] in Hn.
    destruct (trimEnd_fixed a r Hfix) as [[-> _]|[_ Hfix']]; [cbn in Hn; lia|].
    apply IH; [lia|exact Hfix'].
Qed.

(** A trimmed text goes into a [VARCHAR] column as it is, or not at all. *)
Lemma varchar_trimmed (n : nat) (t stored : string) :
  trimEnd t = t -> varchar n t = Return stored -> stored = t.
Proof.
  intros Hfix. unfold varchar.
  destruct (Nat.leb_spec (String.length t) n) as [_|Hlong]; [congruence|].
  rewrite (trimEnd_tail_not_spaces t n Hlong Hfix). discriminate.
Qed.

Lemma trim_trimEnd (s : string) : trimEnd (trim s) = trim s.
Proof. unfold trim. apply trimEnd_idempotent. Qed.

Lemma length_zero (s : string) : (String.length s =? 0)%nat = true <-> s = "".
Proof.
  destruct s; cbn; split; congruence.
Qed.

(** *** The statements *)

Lemma name_free (n : string) (except : option Z) (d : db) :
  name_taken n except d = false <->
  forall k m, device_models d !! k = Some m -> dm_name m = n -> except = Some k.
Proof.
  unfold name_taken. rewrite <- not_true_iff_false, existsb_exists. split.
  - intros Hno k m Hk Hn.
    assert (Hin : In (k, m) (map_to_list (device_models d)))
      by (apply list_elem_of_In, elem_of_map_to_list; exact Hk).
    destruct except as [x|].
    + destruct (Z.eqb_spec k x) as [->|Hne]; [reflexivity|]. exfalso. apply Hno.
      exists (k, m). split; [exact Hin|]. cbn [fst snd]. rewrite Hn, String.eqb_refl.
      cbn. destruct (Z.eqb_spec k x); [congruence|reflexivity].
    + exfalso. apply Hno. exists (k, m). split; [exact Hin|].
      cbn [fst snd]. now rewrite Hn, String.eqb_refl.
  - intros Hall [[k m] [Hin Htest]].
    apply list_elem_of_In, elem_of_map_to_list in Hin. cbn [fst snd] in Htest.
    apply andb_true_iff in Htest. destruct Htest as [Hn Hother].
    apply String.eqb_eq in Hn. rewrite (Hall k m Hin Hn) in Hother.
    rewrite Z.eqb_refl in Hother. discriminate.
Qed.

Lemma name_taken_by (n : string) (except : option Z) (d : db) :
  name_taken n except d = true <->
  exists k m, device_models d !! k = Some m /\ dm_name m = n /\ except <> Some k.
Proof.
  unfold name_taken. rewrite existsb_exists. split.
  - intros [[k m] [Hin Htest]].
    apply list_elem_of_In, elem_of_map_to_list in Hin. cbn [fst snd] in Htest.
    apply andb_true_iff in Htest. destruct Htest as [Hn Hother].
    apply String.eqb_eq in Hn. exists k, m. repeat split; auto.
    intros ->. rewrite Z.eqb_refl in Hother. discriminate.
  - intros (k & m & Hk & Hn & Hother). exists (k, m). split.
    + apply list_elem_of_In, elem_of_map_to_list. exact Hk.
    + cbn [fst snd]. rewrite Hn, String.eqb_refl. cbn. destruct except as [x|]; [|reflexivity].
      destruct (Z.eqb_spec k x); [congruence|reflexivity].
Qed.

Lemma with_commands_same (d : db) : with_commands (commands d) d = d.
Proof. now destruct d. Qed.

(** *** The handlers, case by case *)

Lemma post_model_eq (fresh : Z) (b : model_body) (d : db) :
  post_model fresh b d
  = match name b with
    | Some (JStr s) =>
        if (String.length (trim s) =? 0)%nat then (BadRequest "Model name is required", d)
        else
          match insert_device_model fresh (trim s) (Send.or_null (description b)) d with
          | (Return rows, d') => (Created "Model added successfully" (head rows), d')
          | (Throw e, d') =>
              (if is_unique_violation e then Conflict "Model name already exists"
               else InternalError "Failed to add model", d')
          end
    | Some n =>
        if truthy n then (InternalError "Failed to add model", d)
        else (BadRequest "Model name is required", d)
    | None => (BadRequest "Model name is required", d)
    end.
Proof.
  unfold post_model, post_model_handler, try_catch.
  destruct (name b) as [[|[]|z|s|l|l]|]; try reflexivity.
  - cbn [truthy negb]. destruct (Z.eqb z 0); reflexivity.
  - cbn [truthy]. destruct (String.eqb_spec s "") as [->|Hs]; [reflexivity|]. cbn [negb].
    unfold bind, lift, call_trim, trim_receiver.
    destruct (String.length (trim s) =? 0)%nat; [reflexivity|].
    destruct (insert_device_model fresh (trim s) (Send.or_null (description b)) d)
      as [[rows|e] d']; [reflexivity|].
    unfold ret. destruct (is_unique_violation e); reflexivity.
Qed.

Lemma put_model_eq `{Postgres} (id : string) (b : model_body) (d : db) :
  put_model id b d
  = match name b with
    | Some (JStr s) =>
        if (String.length (trim s) =? 0)%nat then (BadRequest "Model name is required", d)
        else
          match update_device_model (trim s) (Send.or_null (description b)) (JStr id) d with
          | (Return [], d') => (NotFound "Model not found", d')
          | (Return (row :: _), d') => (Done "Model updated successfully" (Some row), d')
          | (Throw e, d') =>
              (if is_unique_violation e then Conflict "Model name already exists"
               else InternalError "Failed to update model", d')
          end
    | Some n =>
        if truthy n then (InternalError "Failed to update model", d)
        else (BadRequest "Model name is required", d)
    | None => (BadRequest "Model name is required", d)
    end.
Proof.
  unfold put_model, put_model_handler, try_catch.
  destruct (name b) as [[|[]|z|s|l|l]|]; try reflexivity.
  - cbn [truthy negb]. destruct (Z.eqb z 0); reflexivity.
  - cbn [truthy]. destruct (String.eqb_spec s "") as [->|Hs]; [reflexivity|]. cbn [negb].
    unfold bind, lift, call_trim, trim_receiver.
    destruct (String.length (trim s) =? 0)%nat; [reflexivity|].
    destruct (update_device_model (trim s) (Send.or_null (description b)) (JStr id) d)
      as [[[|row rows]|e] d']; try reflexivity.
    unfold ret. destruct (is_unique_violation e); reflexivity.
Qed.

Lemma insert_device_model_cases (fresh : Z) (n : string) (description : option string)
    (d : db) :
  trimEnd n = n ->
  (exists e, insert_device_model fresh n description d = (Throw e, d))
  \/ (device_models d !! fresh = None /\ name_taken n None d = false
      /\ insert_device_model fresh n description d
         = (Return [(fresh, {| dm_name := n; dm_description := description |})],
            with_model fresh {| dm_name := n; dm_description := description |} d)).
Proof.
  intros Hfix. unfold insert_device_model.
  destruct (varchar 100 n) as [n'|e] eqn:Hn; [|left; eauto].
  apply (varchar_trimmed _ _ _ Hfix) in Hn. subst n'.
  destruct (device_models d !! fresh); [left; eauto|].
  destruct (name_taken n None d); [left; eauto|]. right. auto.
Qed.

Lemma update_device_model_cases `{Postgres} (n : string) (description : option string)
    (id : string) (d : db) :
  trimEnd n = n ->
  (exists e, update_device_model n description (JStr id) d = (Throw e, d))
  \/ update_device_model n description (JStr id) d = (Return [], d)
  \/ (exists k old,
        int4_value (JStr id) = Return (Some k)
        /\ device_models d !! k = Some old /\ name_taken n (Some k) d = false
        /\ update_device_model n description (JStr id) d
           = (Return [(k, {| dm_name := n; dm_description := description |})],
              with_model k {| dm_name := n; dm_description := description |} d)).
Proof.
  intros Hfix. unfold update_device_model.
  destruct (int4_value (JStr id)) as [[k|]|e]; [| |left; eauto].
  - destruct (varchar 100 n) as [n'|e] eqn:Hn; [|left; eauto].
    apply (varchar_trimmed _ _ _ Hfix) in Hn. subst n'.
    destruct (device_models d !! k) as [old|] eqn:Hk; [|right; left; reflexivity].
    destruct (name_taken n (Some k) d) eqn:Htaken; [left; eauto|].
    right. right. exists k, old. auto.
  - destruct (varchar 100 n); [right; left; reflexivity|left; eauto].
Qed.

(** What a request to a model route comes to: it is refused and the store
    is as it was, or the row is written as the request names it. *)
Lemma post_model_cases (fresh : Z) (b : model_body) (d : db) :
  (refused (fst (post_model fresh b d)) = true /\ snd (post_model fresh b d) = d)
  \/ (exists s,
        name b = Some (JStr s) /\ trim s <> ""
        /\ device_models d !! fresh = None /\ name_taken (trim s) None d = false
        /\ post_model fresh b d
           = (Created "Model added successfully" (Some (fresh, model_named s b)),
              with_model fresh (model_named s b) d)).
Proof.
  rewrite post_model_eq.
  destruct (name b) as [[|[]|z|s|l|l]|]; try (left; split; reflexivity).
  - left. destruct (truthy (JNum z)); split; reflexivity.
  - destruct (String.length (trim s) =? 0)%nat eqn:Hlen; [left; split; reflexivity|].
    assert (Hs : trim s <> "").
    { intros Hs. apply length_zero in Hs. congruence. }
    destruct (insert_device_model_cases fresh (trim s) (Send.or_null (description b)) d
                (trim_trimEnd s)) as [[e He]|(Hfresh & Hfree & Hrun)].
    + left. rewrite He. destruct (is_unique_violation e); split; reflexivity.
    + right. exists s. rewrite Hrun. repeat split; auto.
Qed.

Lemma put_model_cases `{Postgres} (id : string) (b : model_body) (d : db) :
  (refused (fst (put_model id b d)) = true /\ snd (put_model id b d) = d)
  \/ (exists s k old,
        name b = Some (JStr s) /\ trim s <> ""
        /\ int4_value (JStr id) = Return (Some k)
        /\ device_models d !! k = Some old /\ name_taken (trim s) (Some k) d = false
        /\ put_model id b d
           = (Done "Model updated successfully" (Some (k, model_named s b)),
              with_model k (model_named s b) d)).
Proof.
  rewrite put_model_eq.
  destruct (name b) as [[|[]|z|s|l|l]|]; try (left; split; reflexivity).
  - left. destruct (truthy (JNum z)); split; reflexivity.
  - destruct (String.length (trim s) =? 0)%nat eqn:Hlen; [left; split; reflexivity|].
    assert (Hs : trim s <> "").
    { intros Hs. apply length_zero in Hs. congruence. }
    destruct (update_device_model_cases (trim s) (Send.or_null (description b)) id d
                (trim_trimEnd s))
      as [[e He]|[Hnone|(k & old & Hid & Hk & Hfree & Hrun)]].
    + left. rewrite He. destruct (is_unique_violation e); split; reflexivity.
    + left. rewrite Hnone. split; reflexivity.
    + right. exists s, k, old. rewrite Hrun. repeat split; auto.
Qed.

Lemma rewrite_at_none (k : Z) (text : string) (description : option string)
    (l : list command) :
  List.filter (has_id k) l = [] -> rewrite_at k text description l = l.
Proof.
  unfold rewrite_at. induction l as [|c l IH]; [reflexivity|].
  cbn [List.filter map]. destruct (has_id k c); [discriminate|].
  intros Hl. now rewrite (IH Hl).
Qed.

Lemma without_none (k : Z) (l : list command) :
  List.filter (has_id k) l = [] -> without k l = l.
Proof.
  unfold without. induction l as [|c l IH]; [reflexivity|].
  cbn [List.filter]. destruct (has_id k c); [discriminate|].
  cbn [negb]. intros Hl. now rewrite (IH Hl).
Qed.

Ltac refuse :=
  left; unfold ret;
  try match goal with
      | |- context [is_unique_violation ?e] => destruct (is_unique_violation e)
      end;
  split; reflexivity.

Lemma post_command_cases `{Postgres} (fresh : Z) (b : command_body) (d : db) :
  (refused (fst (post_command fresh b d)) = true /\ snd (post_command fresh b d) = d)
  \/ (exists m s k,
        modelId b = Some m /\ truthy m = true
        /\ commandText b = Some (JStr s) /\ trim s <> ""
        /\ int4_value m = Return (Some k) /\ is_Some (device_models d !! k)
        /\ existsb (has_id fresh) (commands d) = false
        /\ existsb (same_key (command_written fresh k s b)) (commands d) = false
        /\ post_command fresh b d
           = (Created "Command added successfully" (Some (command_written fresh k s b)),
              with_commands (commands d ++ [command_written fresh k s b])%list d)).
Proof.
  unfold post_command, post_command_handler, try_catch, answer.
  destruct (modelId b) as [m|]; [|refuse].
  destruct (commandText b) as [c|]; [|refuse].
  destruct (truthy m) eqn:Hm; [|refuse]. cbn [negb orb].
  destruct c as [|[]|z|s|l|l]; try refuse.
  - left. cbn [truthy]. destruct (Z.eqb z 0); split; reflexivity.
  - cbn [truthy]. destruct (String.eqb_spec s "") as [->|Hs]; [refuse|].
    cbn [negb]. unfold bind, lift, call_trim, trim_receiver.
    destruct (String.length (trim s) =? 0)%nat eqn:Hlen; [refuse|].
    assert (Hts : trim s <> "").
    { intros Hts. apply length_zero in Hts. congruence. }
    unfold select_model_id.
    destruct (int4_value m) as [[k|]|e] eqn:Hid; try refuse.
    destruct (device_models d !! k) as [model|] eqn:Hk; [|refuse].
    unfold insert_command. rewrite Hid.
    destruct (varchar 255 (trim s)) as [text|e] eqn:Htext; [|refuse].
    apply (varchar_trimmed _ _ _ (trim_trimEnd s)) in Htext. subst text.
    fold (command_written fresh k s b).
    destruct (existsb (has_id fresh) (commands d)) eqn:Hfresh; [refuse|].
    destruct (existsb (same_key (command_written fresh k s b)) (commands d)) eqn:Hkey;
      [refuse|].
    unfold model_exists. rewrite Hk. cbn [negb].
    right. exists m, s, k. repeat split; eauto.
Qed.

Lemma put_command_cases `{Postgres} (id : string) (b : command_body) (d : db) :
  (refused (fst (put_command id b d)) = true /\ snd (put_command id b d) = d)
  \/ (exists s k row rows,
        commandText b = Some (JStr s) /\ trim s <> ""
        /\ int4_value (JStr id) = Return (Some k)
        /\ List.filter (has_id k) (commands d) = row :: rows
        /\ collides k (trim s) (Send.or_null (commandDescription b)) d = false
        /\ put_command id b d
           = (Done "Command updated successfully"
                (Some (rewritten (trim s) (Send.or_null (commandDescription b)) row)),
              with_commands
                (rewrite_at k (trim s) (Send.or_null (commandDescription b)) (commands d)) d)).
Proof.
  unfold put_command, put_command_handler, try_catch, answer.
  destruct (commandText b) as [c|]; [|refuse].
  destruct c as [|[]|z|s|l|l]; try refuse.
  - left. cbn [truthy]. destruct (Z.eqb z 0); split; reflexivity.
  - cbn [truthy]. destruct (String.eqb_spec s "") as [->|Hs]; [refuse|].
    cbn [negb]. unfold bind, lift, call_trim, trim_receiver.
    destruct (String.length (trim s) =? 0)%nat eqn:Hlen; [refuse|].
    assert (Hts : trim s <> "").
    { intros Hts. apply length_zero in Hts. congruence. }
    unfold update_command.
    destruct (int4_value (JStr id)) as [[k|]|e] eqn:Hid.
    + destruct (varchar 255 (trim s)) as [text|e] eqn:Htext; [|refuse].
      apply (varchar_trimmed _ _ _ (trim_trimEnd s)) in Htext. subst text.
      fold (collides k (trim s) (Send.or_null (commandDescription b)) d).
      fold (rewrite_at k (trim s) (Send.or_null (commandDescription b)) (commands d)).
      fold (with_commands
              (rewrite_at k (trim s) (Send.or_null (commandDescription b)) (commands d)) d).
      destruct (collides k (trim s) (Send.or_null (commandDescription b)) d) eqn:Hfree;
        [refuse|].
      destruct (List.filter (has_id k) (commands d)) as [|row rows] eqn:Hrows.
      * left. cbn [map]. split; [reflexivity|]. cbn [snd].
        rewrite (rewrite_at_none _ _ _ _ Hrows). apply with_commands_same.
      * right. exists s, k, row, rows. repeat split; auto.
    + destruct (varchar 255 (trim s)); refuse.
    + refuse.
Qed.

Lemma delete_command_cases `{Postgres} (id : string) (d : db) :
  (refused (fst (delete_command_request id d)) = true
   /\ snd (delete_command_request id d) = d)
  \/ (exists k row rows,
        int4_value (JStr id) = Return (Some k)
        /\ List.filter (has_id k) (commands d) = row :: rows
        /\ delete_command_request id d
           = (Done "Command deleted successfully" (Some row),
              with_commands (without k (commands d)) d)).
Proof.
  unfold delete_command_request, delete_command_handler, try_catch, answer, bind,
    delete_command.
  destruct (int4_value (JStr id)) as [[k|]|e] eqn:Hid; try refuse.
  fold (without k (commands d)). fold (with_commands (without k (commands d)) d).
  destruct (List.filter (has_id k) (commands d)) as [|row rows] eqn:Hrows.
  - left. split; [reflexivity|]. cbn [snd]. rewrite (without_none _ _ Hrows).
    apply with_commands_same.
  - right. exists k, row, rows. auto.
Qed.

(** *** Checking a store *)

Lemma unique_names_checked (d : db) : unique_names_check d = true -> unique_names d.
Proof.
  unfold unique_names_check. rewrite forallb_forall. intros Hall i j a b Hi Hj Hab.
  assert (Hin : In (i, a) (map_to_list (device_models d)))
    by (apply list_elem_of_In, elem_of_map_to_list; exact Hi).
  specialize (Hall _ Hin). cbn [fst snd] in Hall. apply negb_true_iff in Hall.
  pose proof (proj1 (name_free _ _ _) Hall j b Hj (eq_sym Hab)) as Heq. congruence.
Qed.

Lemma trimmed_names_checked (d : db) : trimmed_names_check d = true -> trimmed_names d.
Proof.
  unfold trimmed_names_check. rewrite forallb_forall. intros Hall k m Hk.
  assert (Hin : In (k, m) (map_to_list (device_models d)))
    by (apply list_elem_of_In, elem_of_map_to_list; exact Hk).
  specialize (Hall _ Hin). cbn [fst snd] in Hall.
  apply andb_true_iff in Hall. destruct Hall as [Hne Hfix]. split.
  - intros Hempty. rewrite Hempty in Hne. discriminate.
  - now apply String.eqb_eq.
Qed.

Lemma intact_checked (d : db) : intact_check d = true -> intact d.
Proof.
  unfold intact_check, intact. rewrite andb_true_iff, !forallb_forall.
  intros [Hc Hh]. split; apply List.Forall_forall; assumption.
Qed.

(** *** Invariants *)

Lemma with_model_unique (k : Z) (m : device_model) (d : db) :
  unique_names d ->
  (forall j other, device_models d !! j = Some other -> dm_name other = dm_name m -> j = k) ->
  unique_names (with_model k m d).
Proof.
  intros Hu Hfree i j a b Hi Hj Hab. cbn [with_model device_models] in Hi, Hj.
  apply lookup_insert_Some in Hi, Hj.
  destruct Hi as [[<- <-]|[Hik Hi]], Hj as [[<- <-]|[Hjk Hj]].
  - reflexivity.
  - symmetry. apply (Hfree j b Hj). congruence.
  - apply (Hfree i a Hi). congruence.
  - apply (Hu i j a b Hi Hj Hab).
Qed.

Lemma with_model_trimmed (k : Z) (m : device_model) (d : db) :
  trimmed_names d -> trimmed (dm_name m) -> trimmed_names (with_model k m d).
Proof.
  intros Ht Hm j other Hj. cbn [with_model device_models] in Hj.
  apply lookup_insert_Some in Hj. destruct Hj as [[_ <-]|[_ Hj]]; [exact Hm|].
  exact (Ht j other Hj).
Qed.

Lemma trim_trimmed (s : string) : trim s <> "" -> trimmed (trim s).
Proof. intros Hs. split; [exact Hs|apply trim_idempotent]. Qed.

(** X9.  Creating a model and updating a model leave no two models of a
    name: if the names of [device_models] are all different before
    [POST /api/models] or [PUT /api/models/:id], whatever the request,
    they are all different after it. *)
Theorem model_names_stay_unique `{Postgres} (fresh : Z) (id : string) (b : model_body)
    (d : db) :
  unique_names d ->
  unique_names (snd (post_model fresh b d)) /\ unique_names (snd (put_model id b d)).
Proof.
  intros Hu. split.
  - destruct (post_model_cases fresh b d) as [[_ ->]|(s & _ & _ & _ & Hfree & ->)];
      [exact Hu|].
    cbn [snd]. apply (with_model_unique _ _ _ Hu). intros j other Hj Hname.
    pose proof (proj1 (name_free _ _ _) Hfree j other Hj Hname). discriminate.
  - destruct (put_model_cases id b d) as [[_ ->]|(s & k & old & _ & _ & _ & _ & Hfree & ->)];
      [exact Hu|].
    cbn [snd]. apply (with_model_unique _ _ _ Hu). intros j other Hj Hname.
    pose proof (proj1 (name_free _ _ _) Hfree j other Hj Hname). congruence.
Qed.

(** X10.  The two model routes store a name only as trimmed text: if every
    name of [device_models] is non-empty and has no white space at either
    end before [POST /api/models] or [PUT /api/models/:id], whatever the
    request, so it is after it.  (A name is stored as [name.trim()], and
    the store does not cut a trimmed text short.) *)
Theorem model_names_stay_trimmed `{Postgres} (fresh : Z) (id : string) (b : model_body)
    (d : db) :
  trimmed_names d ->
  trimmed_names (snd (post_model fresh b d)) /\ trimmed_names (snd (put_model id b d)).
Proof.
  intros Ht. split.
  - destruct (post_model_cases fresh b d) as [[_ ->]|(s & _ & Hs & _ & _ & ->)];
      [exact Ht|].
    cbn [snd]. apply (with_model_trimmed _ _ _ Ht). exact (trim_trimmed s Hs).
  - destruct (put_model_cases id b d) as [[_ ->]|(s & k & old & _ & Hs & _ & _ & _ & ->)];
      [exact Ht|].
    cbn [snd]. apply (with_model_trimmed _ _ _ Ht). exact (trim_trimmed s Hs).
Qed.

(** *** References *)

Lemma model_stays (k : Z) (m : device_model) (d : db) (x : option Z) :
  model_exists d x = true -> model_exists (with_model k m d) x = true.
Proof.
  destruct x as [x|]; [|reflexivity]. cbn [model_exists with_model device_models].
  destruct (device_models d !! x) as [old|] eqn:Hx; [|discriminate]. intros _.
  destruct (Z.eq_dec k x) as [->|Hne].
  - now rewrite lookup_insert_eq.
  - now rewrite lookup_insert_ne, Hx.
Qed.

Lemma with_model_intact (k : Z) (m : device_model) (d : db) :
  intact d -> intact (with_model k m d).
Proof.
  intros [Hc Hh]. split; cbn [with_model commands sms_history].
  - eapply List.Forall_impl; [|exact Hc]. intros c. apply model_stays.
  - eapply List.Forall_impl; [|exact Hh]. intros h. apply model_stays.
Qed.

Lemma with_commands_intact (l : list command) (d : db) :
  intact d -> Forall (fun c => model_exists d (c_model_id c) = true) l ->
  intact (with_commands l d).
Proof.
  intros [_ Hh] Hl. split; cbn [with_commands commands sms_history]; assumption.
Qed.

Lemma add_rows_intact (d : db) (rows : list sms_history_row) :
  intact d -> Forall (fun h => model_exists d (model_id h) = true) rows ->
  intact (SendSpec.add_rows d rows).
Proof.
  intros [Hc Hh] Hrows. split; cbn [SendSpec.add_rows commands sms_history].
  - exact Hc.
  - apply List.Forall_app. split; assumption.
Qed.

(** What [DELETE /api/models/:id] comes to. *)
Lemma delete_model_cases `{Postgres} (id : string) (d : db) :
  snd (Models.delete id d) = d
  \/ (exists k m,
        int4_value (JStr id) = Return (Some k)
        /\ ModelsSpec.commands_of k d = [] /\ ModelsSpec.in_history k d = false
        /\ device_models d !! k = Some m
        /\ Models.delete id d
           = (Models.Deleted "Model deleted successfully" (k, m),
              {| device_models := base.delete k (device_models d);
                 commands := commands d; sms_history := sms_history d |})).
Proof.
  destruct (int4_value (JStr id)) as [[k|]|e] eqn:Hid.
  - destruct (ModelsSpec.commands_of k d) as [|c r] eqn:Hc.
    + rewrite (ModelsFacts.delete_without_commands id k d Hid Hc).
      destruct (device_models d !! k) as [m|] eqn:Hk; [|now left].
      destruct (ModelsSpec.in_history k d) eqn:Hh; [now left|].
      right. exists k, m. auto.
    + left. rewrite (ModelsFacts.delete_with_commands id k d Hid); [reflexivity|].
      rewrite Hc. discriminate.
  - left. unfold Models.delete, Models.handler, try_catch, bind, count_commands.
    rewrite Hid. change (0 <? 0) with false. cbv beta iota.
    unfold delete_device_model. rewrite Hid. reflexivity.
  - left. unfold Models.delete, Models.handler, try_catch, bind, count_commands.
    rewrite Hid. reflexivity.
Qed.

Lemma not_commanded (k : Z) (d : db) (c : command) :
  ModelsSpec.commands_of k d = [] -> In c (commands d) -> c_model_id c <> Some k.
Proof.
  unfold ModelsSpec.commands_of. intros Hnone Hin Hk.
  assert (Hc : In c (List.filter
                       (fun c => match c_model_id c with Some m => Z.eqb m k | None => false end)
                       (commands d))).
  { apply filter_In. split; [exact Hin|]. rewrite Hk. apply Z.eqb_refl. }
  rewrite Hnone in Hc. destruct Hc.
Qed.

Lemma not_in_history (k : Z) (d : db) (h : sms_history_row) :
  ModelsSpec.in_history k d = false -> In h (sms_history d) -> model_id h <> Some k.
Proof.
  unfold ModelsSpec.in_history. intros Hnone Hin Hk.
  assert (Hh : existsb (references k) (sms_history d) = true).
  { apply existsb_exists. exists h. split; [exact Hin|].
    unfold references. rewrite Hk. apply Z.eqb_refl. }
  congruence.
Qed.

Lemma model_stays_but (k : Z) (l : list command)
    (hs : list sms_history_row) (d : db) (x : option Z) :
  x <> Some k -> model_exists d x = true ->
  model_exists {| device_models := base.delete k (device_models d);
                  commands := l; sms_history := hs |} x = true.
Proof.
  destruct x as [x|]; [|reflexivity]. intros Hne. cbn [model_exists device_models].
  rewrite lookup_delete_ne by congruence. auto.
Qed.

(** X11.  The routes that write keep the references of the store: if
    every command and every history row that names a model names one of
    [device_models] before a request to [POST /api/models],
    [PUT /api/models/:id], [DELETE /api/models/:id], [POST /api/commands],
    [PUT /api/commands/:id], [DELETE /api/commands/:id] or
    [POST /api/sms/send], whatever the request, so it is after it. *)
Theorem references_stay_intact `{Postgres} (w : Send.world) (fresh : Z) (id : string)
    (mb : model_body) (cb : command_body) (sb : Send.body) (d : db) :
  intact d ->
  intact (snd (post_model fresh mb d))
  /\ intact (snd (put_model id mb d))
  /\ intact (snd (Models.delete id d))
  /\ intact (snd (post_command fresh cb d))
  /\ intact (snd (put_command id cb d))
  /\ intact (snd (delete_command_request id d))
  /\ intact (Send.store (snd (Send.post w sb d))).
Proof.
  intros Hd. pose proof Hd as [Hc Hh].
  split; [|split; [|split; [|split; [|split; [|split]]]]].
  - destruct (post_model_cases fresh mb d) as [[_ ->]|(s & _ & _ & _ & _ & ->)];
      [exact Hd|]. now apply with_model_intact.
  - destruct (put_model_cases id mb d)
      as [[_ ->]|(s & k & old & _ & _ & _ & _ & _ & ->)]; [exact Hd|].
    now apply with_model_intact.
  - destruct (delete_model_cases id d) as [->|(k & m & _ & Hnone & Hfree & _ & ->)];
      [exact Hd|].
    split; cbn [snd commands sms_history]; apply List.Forall_forall.
    + intros c Hin. apply model_stays_but.
      * exact (not_commanded k d c Hnone Hin).
      * exact (proj1 (List.Forall_forall _ _) Hc c Hin).
    + intros h Hin. apply model_stays_but.
      * exact (not_in_history k d h Hfree Hin).
      * exact (proj1 (List.Forall_forall _ _) Hh h Hin).
  - destruct (post_command_cases fresh cb d)
      as [[_ ->]|(m & s & k & _ & _ & _ & _ & _ & [model Hk] & _ & _ & ->)]; [exact Hd|].
    apply (with_commands_intact _ _ Hd). apply List.Forall_app. split; [exact Hc|].
    constructor; [|constructor]. cbn [command_written c_model_id model_exists].
    now rewrite Hk.
  - destruct (put_command_cases id cb d)
      as [[_ ->]|(s & k & row & rows & _ & _ & _ & _ & _ & ->)]; [exact Hd|].
    apply (with_commands_intact _ _ Hd). unfold rewrite_at. apply List.Forall_map.
    eapply List.Forall_impl; [|exact Hc]. cbn beta. intros c Hexists.
    destruct (has_id k c); exact Hexists.
  - destruct (delete_command_cases id d) as [[_ ->]|(k & row & rows & _ & _ & ->)];
      [exact Hd|].
    apply (with_commands_intact _ _ Hd). unfold without. apply List.Forall_forall.
    intros c Hin. apply filter_In in Hin.
    exact (proj1 (List.Forall_forall _ _) Hc c (proj1 Hin)).
  - destruct (SendCases.post_appends w sb d) as (rows & -> & _ & _ & Hrows).
    apply (add_rows_intact _ _ Hd). eapply List.Forall_impl; [|exact Hrows].
    cbn beta. intros h [Hm _]. exact Hm.
Qed.

(** X12.  A request to one of the five registry routes is carried out
    (answered 201 or 200) or leaves the store as it was. *)
Theorem refused_requests_change_nothing `{Postgres} (fresh : Z) (id : string)
    (mb : model_body) (cb : command_body) (d : db) :
  (refused (fst (post_model fresh mb d)) = false \/ snd (post_model fresh mb d) = d)
  /\ (refused (fst (put_model id mb d)) = false \/ snd (put_model id mb d) = d)
  /\ (refused (fst (post_command fresh cb d)) = false \/ snd (post_command fresh cb d) = d)
  /\ (refused (fst (put_command id cb d)) = false \/ snd (put_command id cb d) = d)
  /\ (refused (fst (delete_command_request id d)) = false
      \/ snd (delete_command_request id d) = d).
Proof.
  split; [|split; [|split; [|split]]].
  - destruct (post_model_cases fresh mb d) as [[_ ->]|(s & _ & _ & _ & _ & ->)]; auto.
  - destruct (put_model_cases id mb d)
      as [[_ ->]|(s & k & old & _ & _ & _ & _ & _ & ->)]; auto.
  - destruct (post_command_cases fresh cb d)
      as [[_ ->]|(m & s & k & _ & _ & _ & _ & _ & _ & _ & _ & ->)]; auto.
  - destruct (put_command_cases id cb d)
      as [[_ ->]|(s & k & row & rows & _ & _ & _ & _ & _ & ->)]; auto.
  - destruct (delete_command_cases id d) as [[_ ->]|(k & row & rows & _ & _ & ->)]; auto.
Qed.

(** *** Answers *)

(** X13.  A model name that is not text: [POST /api/models] and
    [PUT /api/models/:id] answer 400 when it is falsy ([null], [false],
    [0]) and 500 when it is not (a number, [true], an array, an object:
    the call of [trim] throws); the store is as it was. *)
Theorem name_must_be_text `{Postgres} (fresh : Z) (id : string) (b : model_body) (d : db)
    (n : json) :
  name b = Some n -> SendSpec.is_string n = false ->
  post_model fresh b d
  = (if truthy n then InternalError "Failed to add model"
     else BadRequest "Model name is required", d)
  /\ put_model id b d
     = (if truthy n then InternalError "Failed to update model"
        else BadRequest "Model name is required", d).
Proof.
  intros Hn Hs. rewrite post_model_eq, put_model_eq, Hn.
  destruct n as [|[]|z|s|l|l]; try discriminate; try (split; reflexivity).
  destruct (truthy (JNum z)); split; reflexivity.
Qed.

Lemma varchar_fits (n : nat) (s : string) :
  (String.length s <= n)%nat -> varchar n s = Return s.
Proof.
  intros Hlen. unfold varchar. destruct (Nat.leb_spec (String.length s) n); [reflexivity|lia].
Qed.

Lemma not_blank (s : string) : trim s <> "" -> (String.length (trim s) =? 0)%nat = false.
Proof.
  intros Hs. destruct (String.length (trim s) =? 0)%nat eqn:Hlen; [|reflexivity].
  apply length_zero in Hlen. congruence.
Qed.

(** X14.  A model name that is taken: [POST /api/models] answers 409 when
    a model has the name (after trimming) and also when the key the
    sequence hands out is in use; [PUT /api/models/:id] answers 409 when a
    model other than the one updated has the name, and updates a model
    that keeps its name.  A request answered 409 leaves the store as it
    was. *)
Theorem taken_name_is_conflict `{Postgres} (fresh : Z) (id : string) (b : model_body)
    (d : db) (s : string) :
  name b = Some (JStr s) -> trim s <> "" -> (String.length (trim s) <= 100)%nat ->
  (name_taken (trim s) None d = true \/ is_Some (device_models d !! fresh) ->
   post_model fresh b d = (Conflict "Model name already exists", d))
  /\ (forall k, int4_value (JStr id) = Return (Some k) ->
        is_Some (device_models d !! k) -> name_taken (trim s) (Some k) d = true ->
        put_model id b d = (Conflict "Model name already exists", d))
  /\ (forall k old, int4_value (JStr id) = Return (Some k) ->
        device_models d !! k = Some old -> dm_name old = trim s -> unique_names d ->
        put_model id b d
        = (Done "Model updated successfully" (Some (k, model_named s b)),
           with_model k (model_named s b) d)).
Proof.
  intros Hn Hs Hlen. split; [|split].
  - intros Htaken. rewrite post_model_eq, Hn, (not_blank s Hs).
    unfold insert_device_model. rewrite (varchar_fits _ _ Hlen).
    destruct (device_models d !! fresh) as [used|]; [reflexivity|].
    destruct Htaken as [->|[? Hused]]; [reflexivity|discriminate].
  - intros k Hid [old Hk] Htaken. rewrite put_model_eq, Hn, (not_blank s Hs).
    unfold update_device_model. rewrite Hid, (varchar_fits _ _ Hlen), Hk, Htaken.
    reflexivity.
  - intros k old Hid Hk Hname Hu. rewrite put_model_eq, Hn, (not_blank s Hs).
    unfold update_device_model. rewrite Hid, (varchar_fits _ _ Hlen), Hk.
    assert (Hfree : name_taken (trim s) (Some k) d = false).
    { apply name_free. intros j other Hj Hother. f_equal.
      apply (Hu k j old other Hk Hj). congruence. }
    rewrite Hfree. reflexivity.
Qed.

Lemma filter_none {A : Type} (f : A -> bool) (l : list A) :
  existsb f l = false -> List.filter f l = [] /\ List.filter (fun x => negb (f x)) l = l.
Proof.
  induction l as [|x l IH]; [auto|].
  cbn [existsb List.filter]. destruct (f x); [discriminate|]. cbn [orb negb].
  intros Hl. destruct (IH Hl) as [-> ->]. auto.
Qed.

(** X15.  Adding a command and deleting it gives the store back: after a
    [POST /api/commands] answered 201 with the row [c], the request
    [DELETE /api/commands/:id] for the [id] of [c] is answered 200 with
    [c], and the store is the one before the two requests. *)
Theorem command_round_trip `{Postgres} (fresh : Z) (b : command_body) (d d' : db)
    (message id : string) (c : command) :
  post_command fresh b d = (Created message (Some c), d') ->
  int4_value (JStr id) = Return (Some (c_id c)) ->
  delete_command_request id d' = (Done "Command deleted successfully" (Some c), d).
Proof.
  intros Hpost Hid.
  destruct (post_command_cases fresh b d)
    as [[Hrefused _]|(m & s & k & _ & _ & _ & _ & _ & _ & Hfresh & _ & Hrun)].
  - rewrite Hpost in Hrefused. discriminate.
  - rewrite Hrun in Hpost. injection Hpost as _ <- <-.
    cbn [command_written c_id] in Hid.
    unfold delete_command_request, delete_command_handler, try_catch, answer, bind,
      delete_command.
    rewrite Hid. cbn [with_commands commands device_models sms_history].
    rewrite !List.filter_app. destruct (filter_none _ _ Hfresh) as [-> ->].
    cbn [List.filter app].
    assert (Hown : has_id fresh (command_written fresh k s b) = true)
      by apply Z.eqb_refl.
    rewrite Hown. cbn [negb]. rewrite app_nil_r. destruct d; reflexivity.
Qed.

Lemma unreferenced (k : Z) (d : db) :
  intact d -> device_models d !! k = None ->
  ModelsSpec.commands_of k d = [] /\ ModelsSpec.in_history k d = false.
Proof.
  intros [Hc Hh] Hk. split.
  - unfold ModelsSpec.commands_of.
    induction Hc as [|c l Hexists _ IH]; [reflexivity|].
    cbn [List.filter]. rewrite IH. destruct (c_model_id c) as [x|]; [|reflexivity].
    destruct (Z.eqb_spec x k) as [->|_]; [|reflexivity].
    cbn [model_exists] in Hexists. rewrite Hk in Hexists. discriminate.
  - unfold ModelsSpec.in_history.
    induction Hh as [|h l Hexists _ IH]; [reflexivity|].
    cbn [existsb]. rewrite IH, orb_false_r. unfold references.
    destruct (model_id h) as [x|]; [|reflexivity].
    destruct (Z.eqb_spec x k) as [->|_]; [|reflexivity].
    cbn [model_exists] in Hexists. rewrite Hk in Hexists. discriminate.
Qed.

(** X16.  Adding a model and deleting it gives the store back: in a store
    whose references are intact, after a [POST /api/models] answered 201
    with the row [(k, m)], the request [DELETE /api/models/:id] for [k] is
    answered 200 with that row, and the store is the one before the two
    requests. *)
Theorem model_round_trip `{Postgres} (fresh : Z) (b : model_body) (d d' : db)
    (message id : string) (k : Z) (m : device_model) :
  intact d ->
  post_model fresh b d = (Created message (Some (k, m)), d') ->
  int4_value (JStr id) = Return (Some k) ->
  Models.delete id d' = (Models.Deleted "Model deleted successfully" (k, m), d).
Proof.
  intros Hd Hpost Hid.
  destruct (post_model_cases fresh b d) as [[Hrefused _]|(s & _ & _ & Hfresh & _ & Hrun)].
  - rewrite Hpost in Hrefused. discriminate.
  - rewrite Hrun in Hpost. injection Hpost as _ <- <- <-.
    destruct (unreferenced fresh d Hd Hfresh) as [Hnone Hfree].
    rewrite (ModelsFacts.delete_without_commands id fresh
               (with_model fresh (model_named s b) d) Hid Hnone).
    cbn [with_model device_models commands sms_history]. rewrite lookup_insert_eq.
    change (ModelsSpec.in_history fresh (with_model fresh (model_named s b) d))
      with (ModelsSpec.in_history fresh d).
    rewrite Hfree, (delete_insert_id _ _ _ Hfresh). destruct d; reflexivity.
Qed.

(** X17.  A command guards its model: after a [POST /api/commands]
    answered 201 with a row for the model [k], the request
    [DELETE /api/models/:id] for [k] is answered 409, its message counts
    the command added, and the model and the commands stay. *)
Theorem new_command_guards_its_model `{Postgres} (fresh : Z) (b : command_body) (d d' : db)
    (message id : string) (c : command) (k : Z) :
  post_command fresh b d = (Created message (Some c), d') ->
  c_model_id c = Some k ->
  int4_value (JStr id) = Return (Some k) ->
  Models.delete id d'
  = (Models.Conflict
       ("Cannot delete model. It has "
        ++ show (Z.of_nat (S (length (ModelsSpec.commands_of k d))))
        ++ " associated commands.")
       "Delete all commands first or use force delete.", d').
Proof.
  intros Hpost Hmodel Hid.
  destruct (post_command_cases fresh b d)
    as [[Hrefused _]|(m & s & k' & _ & _ & _ & _ & _ & _ & _ & _ & Hrun)].
  - rewrite Hpost in Hrefused. discriminate.
  - rewrite Hrun in Hpost. injection Hpost as _ <- <-.
    cbn [command_written c_model_id] in Hmodel. injection Hmodel as ->.
    assert (Hof : ModelsSpec.commands_of k
                    (with_commands (commands d ++ [command_written fresh k s b])%list d)
                  = (ModelsSpec.commands_of k d ++ [command_written fresh k s b])%list).
    { unfold ModelsSpec.commands_of. cbn [with_commands commands].
      rewrite List.filter_app. cbn [List.filter command_written c_model_id].
      now rewrite Z.eqb_refl. }
    rewrite (ModelsFacts.delete_with_commands id k _ Hid).
    + rewrite Hof, length_app. cbn [length]. now rewrite Nat.add_1_r.
    + rewrite Hof. now destruct (ModelsSpec.commands_of k d).
Qed.

(** X18.  The two command routes answer a duplicate differently: a
    [POST /api/commands] whose text (trimmed) a command of the model has
    is answered 409, a [PUT /api/commands/:id] that would give a command
    the text of another command of its model is answered 500, the [catch]
    of that route having one answer.  Both leave the store as it was. *)
Theorem duplicate_command_answers `{Postgres} (fresh : Z) (id : string) (b : command_body)
    (d : db) (s : string) :
  commandText b = Some (JStr s) -> trim s <> "" -> (String.length (trim s) <= 255)%nat ->
  (forall m k, modelId b = Some m -> truthy m = true ->
     int4_value m = Return (Some k) -> is_Some (device_models d !! k) ->
     existsb (same_key (command_written fresh k s b)) (commands d) = true ->
     post_command fresh b d = (Conflict "Command already exists for this model", d))
  /\ (forall k, int4_value (JStr id) = Return (Some k) ->
        collides k (trim s) (Send.or_null (commandDescription b)) d = true ->
        put_command id b d = (InternalError "Failed to update command", d)).
Proof.
  intros Hc Hs Hlen.
  assert (Htruthy : truthy (JStr s) = true).
  { cbn [truthy]. destruct (String.eqb_spec s "") as [->|_]; [|reflexivity].
    now contradiction Hs. }
  split.
  - intros m k Hm Htm Hid [model Hk] Hdup.
    unfold post_command, post_command_handler, try_catch, answer.
    rewrite Hm, Hc, Htm, Htruthy. cbn [negb orb].
    unfold bind, lift, call_trim, trim_receiver. rewrite (not_blank s Hs).
    unfold select_model_id. rewrite Hid, Hk.
    unfold insert_command. rewrite Hid, (varchar_fits _ _ Hlen).
    fold (command_written fresh k s b).
    destruct (existsb (has_id fresh) (commands d)); [reflexivity|].
    rewrite Hdup. reflexivity.
  - intros k Hid Hcollides.
    unfold put_command, put_command_handler, try_catch, answer.
    rewrite Hc, Htruthy. cbn [negb].
    unfold bind, lift, call_trim, trim_receiver. rewrite (not_blank s Hs).
    unfold update_command. rewrite Hid, (varchar_fits _ _ Hlen).
    fold (collides k (trim s) (Send.or_null (commandDescription b)) d).
    rewrite Hcollides. reflexivity.
Qed.

Lemma unreadable_code `{Postgres} (v : json) (e : exn) :
  int4_value v = Throw e -> is_unique_violation e = false.
Proof.
  unfold int4_value. destruct v as [|?|z|s|?|?]; try discriminate;
    try (intros Hv; injection Hv as <-; reflexivity).
  - destruct (in_int4 z); [discriminate|]. intros Hv. injection Hv as <-. reflexivity.
  - destruct (integer_in s) as [z|]; [destruct (in_int4 z); [discriminate|]|];
      intros Hv; injection Hv as <-; reflexivity.
Qed.

(** X19.  An [id] of the path that the store cannot read as an integer
    (not a number, or out of range) is answered 500, not 404, by
    [PUT /api/models/:id] and [PUT /api/commands/:id] (for a body that
    passes their check) and by [DELETE /api/commands/:id]; the store is as
    it was. *)
Theorem unreadable_id_is_internal_error `{Postgres} (id : string) (mb : model_body)
    (cb : command_body) (d : db) (e : exn) :
  int4_value (JStr id) = Throw e ->
  (forall s, name mb = Some (JStr s) -> trim s <> "" ->
     put_model id mb d = (InternalError "Failed to update model", d))
  /\ (forall s, commandText cb = Some (JStr s) -> trim s <> "" ->
        put_command id cb d = (InternalError "Failed to update command", d))
  /\ delete_command_request id d = (InternalError "Failed to delete command", d).
Proof.
  intros Hid. split; [|split].
  - intros s Hn Hs. rewrite put_model_eq, Hn, (not_blank s Hs).
    unfold update_device_model. rewrite Hid.
    now rewrite (unreadable_code _ _ Hid).
  - intros s Hc Hs.
    assert (Htruthy : truthy (JStr s) = true).
    { cbn [truthy]. destruct (String.eqb_spec s "") as [->|_]; [|reflexivity].
      now contradiction Hs. }
    unfold put_command, put_command_handler, try_catch, answer.
    rewrite Hc, Htruthy. cbn [negb].
    unfold bind, lift, call_trim, trim_receiver. rewrite (not_blank s Hs).
    unfold update_command. rewrite Hid. reflexivity.
  - unfold delete_command_request, delete_command_handler, try_catch, answer, bind,
      delete_command.
    rewrite Hid. reflexivity.
Qed.

End RegistryFacts.

(** ** The sample data of [initializeDatabase] *)
Module SeedFacts.
Import Js Store Registry RegistrySpec Seed SeedSpec RegistryFacts.

(** *** The model statement *)

Lemma more_models_refl (d : db) : more_models d d.
Proof. split; [reflexivity|split; [reflexivity|auto]]. Qed.

Lemma more_models_trans (a b c : db) : more_models a b -> more_models b c -> more_models a c.
Proof.
  intros (Hc & Hh & Hm) (Hc' & Hh' & Hm').
  split; [congruence|split; [congruence|auto]].
Qed.

Lemma more_models_with (k : Z) (m : device_model) (d : db) :
  device_models d !! k = None -> more_models d (with_model k m d).
Proof.
  intros Hk. split; [reflexivity|split; [reflexivity|]].
  intros j other Hj. cbn [with_model device_models].
  rewrite lookup_insert_ne; [exact Hj|]. congruence.
Qed.

Lemma name_stays_taken (n : string) (d d' : db) :
  more_models d d' -> name_taken n None d = true -> name_taken n None d' = true.
Proof.
  intros (_ & _ & Hm) Htaken. apply name_taken_by in Htaken.
  destruct Htaken as (k & m & Hk & Hn & _). apply name_taken_by.
  exists k, m. repeat split; auto; discriminate.
Qed.

Lemma name_taken_with (k : Z) (m : device_model) (d : db) :
  name_taken (dm_name m) None (with_model k m d) = true.
Proof.
  apply name_taken_by. exists k, m. cbn [with_model device_models].
  rewrite lookup_insert_eq. repeat split; auto; discriminate.
Qed.

Lemma values_step (n description : string) (rest : list (string * string)) (i : nat)
    (ids : nat -> Z) (d : db) :
  values_or_nothing ((n, description) :: rest) i ids d
  = if name_taken n None d then values_or_nothing rest (S i) ids d
    else
      match device_models d !! ids i with
      | Some _ => Throw (unique_violation "device_models_pkey")
      | None =>
          values_or_nothing rest (S i) ids
            (with_model (ids i) {| dm_name := n; dm_description := Some description |} d)
      end.
Proof. reflexivity. Qed.

Lemma values_more (rows : list (string * string)) :
  forall (i : nat) (ids : nat -> Z) (d d' : db),
    values_or_nothing rows i ids d = Return d' ->
    more_models d d'
    /\ (forall row, In row rows -> name_taken (fst row) None d' = true)
    /\ (unique_names d -> unique_names d')
    /\ (intact d -> intact d').
Proof.
  induction rows as [|[n description] rest IH]; intros i ids d d' Hrun.
  - cbn in Hrun. injection Hrun as <-.
    split; [apply more_models_refl|split; [intros row []|auto]].
  - rewrite values_step in Hrun. destruct (name_taken n None d) eqn:Htaken.
    + destruct (IH _ _ _ _ Hrun) as (Hmore & Hrows & Hu & Hi).
      split; [exact Hmore|split; [|auto]].
      intros row [<-|Hin]; [|auto]. exact (name_stays_taken _ _ _ Hmore Htaken).
    + destruct (device_models d !! ids i) as [used|] eqn:Hid; [discriminate|].
      destruct (IH _ _ _ _ Hrun) as (Hmore & Hrows & Hu & Hi).
      set (m := {| dm_name := n; dm_description := Some description |}) in *.
      split; [|split; [|split]].
      * apply (more_models_trans _ _ _ (more_models_with _ m _ Hid) Hmore).
      * intros row [<-|Hin]; [|auto].
        exact (name_stays_taken _ _ _ Hmore (name_taken_with (ids i) m d)).
      * intros Hunique. apply Hu. apply (with_model_unique _ _ _ Hunique).
        intros j other Hj Hname. exfalso.
        pose proof (proj1 (name_free _ _ _) Htaken j other Hj Hname). discriminate.
      * intros Hintact. apply Hi. now apply with_model_intact.
Qed.

Lemma values_settled (rows : list (string * string)) :
  forall (i : nat) (ids : nat -> Z) (d : db),
    forallb (fun row => has_model (fst row) d) rows = true ->
    values_or_nothing rows i ids d = Return d.
Proof.
  induction rows as [|[n description] rest IH]; intros i ids d Hall; [reflexivity|].
  cbn [forallb fst] in Hall. apply andb_prop in Hall as [Hn Hrest].
  rewrite values_step. unfold has_model in Hn. rewrite Hn. now apply IH.
Qed.

Lemma values_returns (rows : list (string * string)) :
  forall (i : nat) (ids : nat -> Z) (d : db),
    (forall a, (i <= a)%nat -> device_models d !! ids a = None) ->
    (forall a b, ids a = ids b -> a = b) ->
    exists d', values_or_nothing rows i ids d = Return d'.
Proof.
  induction rows as [|[n description] rest IH]; intros i ids d Hfree Hinj; [now exists d|].
  rewrite values_step. destruct (name_taken n None d).
  - apply IH; [|exact Hinj]. intros a Ha. apply Hfree. lia.
  - rewrite (Hfree i (le_n i)). apply IH; [|exact Hinj].
    intros a Ha. cbn [with_model device_models]. rewrite lookup_insert_ne.
    + apply Hfree. lia.
    + intros Heq. apply Hinj in Heq. lia.
Qed.

(** *** The command statements *)

Lemma more_commands_refl (d : db) : more_commands d d.
Proof.
  split; [reflexivity|split; [reflexivity|]]. exists []. now rewrite app_nil_r.
Qed.

Lemma more_commands_trans (a b c : db) :
  more_commands a b -> more_commands b c -> more_commands a c.
Proof.
  intros (Hm & Hh & x & Hx) (Hm' & Hh' & y & Hy).
  split; [congruence|split; [congruence|]].
  exists (x ++ y)%list. now rewrite Hy, Hx, app_assoc.
Qed.

Lemma command_stays (c : command) (d d' : db) :
  more_commands d d' ->
  existsb (same_key c) (commands d) = true -> existsb (same_key c) (commands d') = true.
Proof.
  intros (_ & _ & added & ->) Hc. rewrite existsb_app, Hc. reflexivity.
Qed.

Lemma model_exists_same (d d' : db) (x : option Z) :
  device_models d' = device_models d -> model_exists d' x = model_exists d x.
Proof. intros Hm. destruct x as [x|]; [|reflexivity]. cbn [model_exists]. now rewrite Hm. Qed.

Lemma insert_or_nothing_cases (fresh k : Z) (text description : string) (d : db) :
  (String.length text <= 255)%nat ->
  (exists e, insert_command_or_nothing fresh k text description d = (Throw e, d))
  \/ (existsb (same_key (keyed k text)) (commands d) = true
      /\ insert_command_or_nothing fresh k text description d = (Return tt, d))
  \/ (existsb (same_key (keyed k text)) (commands d) = false
      /\ existsb (has_id fresh) (commands d) = false
      /\ model_exists d (Some k) = true
      /\ insert_command_or_nothing fresh k text description d
         = (Return tt,
            with_commands
              (commands d ++ [{| c_id := fresh; c_model_id := Some k; c_command_text := text;
                                 c_description := Some description |}])%list d)).
Proof.
  intros Hlen. unfold insert_command_or_nothing. rewrite (varchar_fits _ _ Hlen).
  change (same_key {| c_id := fresh; c_model_id := Some k; c_command_text := text;
                      c_description := Some description |})
    with (same_key (keyed k text)).
  destruct (existsb (same_key (keyed k text)) (commands d)); [right; left; auto|].
  destruct (existsb (has_id fresh) (commands d)); [left; eauto|].
  destruct (model_exists d (Some k)); [|left; eauto].
  right. right. auto.
Qed.

(** What a run of command statements comes to, whatever its outcome, and
    what it leaves when it returns. *)
Lemma seed_commands_more (ids : nat -> Z) (model : string) (k : Z) (texts : list string) :
  Forall (fun text => (String.length text <= 255)%nat) texts ->
  forall (i : nat) (d : db),
    more_commands d (snd (seed_commands ids model k texts i d))
    /\ (intact d -> intact (snd (seed_commands ids model k texts i d)))
    /\ (fst (seed_commands ids model k texts i d) = Return tt ->
        forallb (fun text => existsb (same_key (keyed k text))
                               (commands (snd (seed_commands ids model k texts i d))))
          texts = true).
Proof.
  induction 1 as [|text rest Hlen _ IH]; intros i d.
  - cbn. split; [apply more_commands_refl|auto].
  - cbn [seed_commands]. unfold bind.
    destruct (insert_or_nothing_cases (ids i) k text
                ("Comando " ++ text ++ " para " ++ model) d Hlen)
      as [[e ->]|[[Hthere ->]|(Hnot & Hfresh & Hmodel & ->)]].
    + cbn [fst snd]. split; [apply more_commands_refl|split; [auto|discriminate]].
    + destruct (IH (S i) d) as (Hmore & Hintact & Hall).
      split; [exact Hmore|split; [exact Hintact|]].
      intros Hret. cbn [forallb]. rewrite (Hall Hret), andb_true_r.
      exact (command_stays _ _ _ Hmore Hthere).
    + set (c := {| c_id := ids i; c_model_id := Some k; c_command_text := text;
                   c_description := Some ("Comando " ++ text ++ " para " ++ model) |}).
      set (d1 := with_commands (commands d ++ [c])%list d).
      assert (Hstep : more_commands d d1).
      { split; [reflexivity|split; [reflexivity|]]. now exists [c]. }
      destruct (IH (S i) d1) as (Hmore & Hintact & Hall).
      split; [exact (more_commands_trans _ _ _ Hstep Hmore)|split].
      * intros Hd. apply Hintact. apply (with_commands_intact _ _ Hd).
        apply List.Forall_app. split; [exact (proj1 Hd)|].
        constructor; [exact Hmodel|constructor].
      * intros Hret. cbn [forallb]. rewrite (Hall Hret), andb_true_r.
        apply (command_stays _ d1 _ Hmore). cbn [d1 with_commands commands].
        rewrite existsb_app. cbn [existsb].
        assert (Hown : same_key (keyed k text) c = true).
        { unfold same_key. cbn [keyed c c_command_text c_model_id].
          now rewrite String.eqb_refl, Z.eqb_refl. }
        rewrite Hown. now rewrite orb_true_r.
Qed.

Lemma seed_commands_settled (ids : nat -> Z) (model : string) (k : Z) (texts : list string) :
  Forall (fun text => (String.length text <= 255)%nat) texts ->
  forall (i : nat) (d : db),
    forallb (fun text => existsb (same_key (keyed k text)) (commands d)) texts = true ->
    seed_commands ids model k texts i d = (Return tt, d).
Proof.
  induction 1 as [|text rest Hlen _ IH]; intros i d Hall; [reflexivity|].
  cbn [forallb] in Hall. apply andb_prop in Hall as [Hthere Hrest].
  cbn [seed_commands]. unfold bind.
  destruct (insert_or_nothing_cases (ids i) k text
              ("Comando " ++ text ++ " para " ++ model) d Hlen)
    as [[e He]|[[_ ->]|(Hnot & _)]].
  - unfold insert_command_or_nothing in He. rewrite (varchar_fits _ _ Hlen) in He.
    change (same_key {| c_id := ids i; c_model_id := Some k; c_command_text := text;
                        c_description := Some ("Comando " ++ text ++ " para " ++ model) |})
      with (same_key (keyed k text)) in He.
    rewrite Hthere in He. discriminate.
  - now apply IH.
  - congruence.
Qed.

(** *** The loop over the samples *)

Lemma select_same (n : string) (d d' : db) :
  device_models d' = device_models d ->
  fst (select_id_by_name n d') = fst (select_id_by_name n d).
Proof. intros Hm. unfold select_id_by_name. cbn [fst]. now rewrite Hm. Qed.

Lemma settled_sample_stays (sample : string * list string) (d d' : db) :
  more_commands d d' -> settled_sample d sample = true -> settled_sample d' sample = true.
Proof.
  intros Hmore. unfold settled_sample.
  rewrite (select_same _ _ _ (proj1 Hmore)).
  destruct (fst (select_id_by_name (fst sample) d)) as [[|k l]|e]; auto.
  rewrite !forallb_forall. intros Hall text Hin.
  exact (command_stays _ _ _ Hmore (Hall text Hin)).
Qed.

Lemma seed_samples_step (ids : nat -> nat -> Z) (model : string) (texts : list string)
    (rest : list (string * list string)) (j : nat) (d : db) :
  seed_samples ids ((model, texts) :: rest) j d
  = match fst (select_id_by_name model d) with
    | Return (k :: _) =>
        match seed_commands (ids j) model k texts 0 d with
        | (Return _, d1) => seed_samples ids rest (S j) d1
        | (Throw e, d1) => (Throw e, d1)
        end
    | _ => seed_samples ids rest (S j) d
    end.
Proof.
  cbn [seed_samples]. unfold bind, select_id_by_name. cbn [fst].
  destruct (map fst _) as [|k l]; [reflexivity|].
  destruct (seed_commands (ids j) model k texts 0 d) as [[[]|e] d1]; reflexivity.
Qed.

Lemma seed_samples_more (ids : nat -> nat -> Z) (samples : list (string * list string)) :
  texts_fit samples ->
  forall (j : nat) (d : db),
    more_commands d (snd (seed_samples ids samples j d))
    /\ (intact d -> intact (snd (seed_samples ids samples j d)))
    /\ (fst (seed_samples ids samples j d) = Return tt ->
        forallb (settled_sample (snd (seed_samples ids samples j d))) samples = true).
Proof.
  induction 1 as [|[model texts] rest Hfit _ IH]; intros j d.
  - cbn. split; [apply more_commands_refl|auto].
  - rewrite seed_samples_step. cbn [snd] in Hfit.
    destruct (fst (select_id_by_name model d)) as [[|k l]|e] eqn:Hselect.
    + destruct (IH (S j) d) as (Hmore & Hintact & Hall).
      split; [exact Hmore|split; [exact Hintact|]].
      intros Hret. cbn [forallb]. rewrite (Hall Hret), andb_true_r.
      unfold settled_sample. cbn [fst snd].
      now rewrite (select_same _ _ _ (proj1 Hmore)), Hselect.
    + destruct (seed_commands_more (ids j) model k texts Hfit 0%nat d)
        as (Hstep & Hkeeps & Hthere).
      destruct (seed_commands (ids j) model k texts 0 d) as [[[]|e] d1]; cbn [fst snd] in *.
      * destruct (IH (S j) d1) as (Hmore & Hintact & Hall).
        split; [exact (more_commands_trans _ _ _ Hstep Hmore)|split; [auto|]].
        intros Hret. cbn [forallb]. rewrite (Hall Hret), andb_true_r.
        apply (settled_sample_stays _ d1 _ Hmore).
        unfold settled_sample. cbn [fst snd].
        rewrite (select_same _ _ _ (proj1 Hstep)), Hselect. exact (Hthere eq_refl).
      * split; [exact Hstep|split; [exact Hkeeps|discriminate]].
    + discriminate.
Qed.

Lemma seed_samples_settled (ids : nat -> nat -> Z) (samples : list (string * list string)) :
  texts_fit samples ->
  forall (j : nat) (d : db),
    forallb (settled_sample d) samples = true ->
    seed_samples ids samples j d = (Return tt, d).
Proof.
  induction 1 as [|[model texts] rest Hfit _ IH]; intros j d Hall; [reflexivity|].
  cbn [forallb] in Hall. apply andb_prop in Hall as [Hsample Hrest].
  rewrite seed_samples_step. unfold settled_sample in Hsample. cbn [fst snd] in Hsample, Hfit.
  destruct (fst (select_id_by_name model d)) as [[|k l]|e]; try now apply IH.
  rewrite (seed_commands_settled (ids j) model k texts Hfit 0%nat d Hsample).
  now apply IH.
Qed.

Lemma sample_texts_fit : texts_fit sampleCommands.
Proof.
  unfold texts_fit, sampleCommands. repeat (constructor; try (cbn; lia)).
Qed.

(** *** The run *)

Lemma initializeDatabase_eq (s : sequences) (d : db) :
  initializeDatabase s d
  = match values_or_nothing sample_models 0 (model_ids s) d with
    | Return d1 => seed_samples (command_ids s) sampleCommands 0 d1
    | Throw e => (Throw e, d)
    end.
Proof.
  unfold initializeDatabase, try_catch, bind, insert_sample_models, throw.
  destruct (values_or_nothing sample_models 0 (model_ids s) d) as [d1|e]; [|reflexivity].
  destruct (seed_samples (command_ids s) sampleCommands 0 d1) as [[[]|e] d2]; reflexivity.
Qed.

Lemma more_models_grown (a b c : db) : more_models a b -> more_commands b c -> grown a c.
Proof.
  intros (Hc & Hh & Hm) (Hm' & Hh' & added & Hadded).
  split; [|split].
  - intros k m Hk. rewrite Hm'. auto.
  - exists added. now rewrite Hadded, Hc.
  - congruence.
Qed.

Lemma unique_names_same (d d' : db) :
  device_models d' = device_models d -> unique_names d -> unique_names d'.
Proof. unfold unique_names. intros ->. auto. Qed.

Lemma has_model_same (n : string) (d d' : db) :
  device_models d' = device_models d -> has_model n d' = has_model n d.
Proof. unfold has_model, name_taken. now intros ->. Qed.

(** A run that returns leaves nothing for a run to insert. *)
Lemma initializeDatabase_settles (s : sequences) (d : db) :
  fst (initializeDatabase s d) = Return tt -> settled (snd (initializeDatabase s d)) = true.
Proof.
  rewrite initializeDatabase_eq.
  destruct (values_or_nothing sample_models 0 (model_ids s) d) as [d1|e] eqn:Hvalues;
    [|discriminate].
  destruct (values_more _ _ _ _ _ Hvalues) as (_ & Hnames & _).
  destruct (seed_samples_more (command_ids s) sampleCommands sample_texts_fit 0%nat d1)
    as (Hmore & _ & Hall).
  intros Hret. unfold settled. rewrite (Hall Hret), andb_true_r.
  apply forallb_forall. intros row Hin.
  rewrite (has_model_same _ _ _ (proj1 Hmore)). exact (Hnames row Hin).
Qed.

(** On a store with nothing left to insert, a run returns and leaves the
    store as it is. *)
Lemma initializeDatabase_settled (s : sequences) (d : db) :
  settled d = true -> initializeDatabase s d = (Return tt, d).
Proof.
  unfold settled. intros [Hmodels Hcommands]%andb_prop.
  rewrite initializeDatabase_eq, (values_settled _ _ _ _ Hmodels).
  exact (seed_samples_settled _ _ sample_texts_fit _ _ Hcommands).
Qed.

(** *** The samples are there *)

Lemma select_member (n : string) (d : db) (k : Z) (l : list Z) :
  fst (select_id_by_name n d) = Return (k :: l) ->
  exists m, device_models d !! k = Some m /\ dm_name m = n.
Proof.
  unfold select_id_by_name. cbn [fst]. intros Hselect. injection Hselect as Hselect.
  assert (Hin : In k (map fst (List.filter
                                 (fun row : Z * device_model => String.eqb (dm_name (snd row)) n)
                                 (map_to_list (device_models d)))))
    by (rewrite Hselect; now left).
  apply in_map_iff in Hin. destruct Hin as ([k' m] & Hk & Hin). cbn [fst] in Hk. subst k'.
  apply filter_In in Hin. destruct Hin as [Hin Hname]. cbn [snd] in Hname.
  exists m. split; [|now apply String.eqb_eq].
  apply elem_of_map_to_list, list_elem_of_In. exact Hin.
Qed.

Lemma select_finds (n : string) (d : db) :
  has_model n d = true -> exists k l, fst (select_id_by_name n d) = Return (k :: l).
Proof.
  unfold has_model. intros Htaken. apply name_taken_by in Htaken.
  destruct Htaken as (k & m & Hk & Hn & _).
  assert (Hin : In (k, m) (List.filter
                             (fun row : Z * device_model => String.eqb (dm_name (snd row)) n)
                             (map_to_list (device_models d)))).
  { apply filter_In. split.
    - apply list_elem_of_In, elem_of_map_to_list. exact Hk.
    - cbn [snd]. rewrite Hn. apply String.eqb_refl. }
  unfold select_id_by_name. cbn [fst].
  destruct (List.filter _ (map_to_list (device_models d))) as [|[k' m'] rows]; [destruct Hin|].
  cbn [map fst]. eauto.
Qed.

Lemma settled_sample_seeded (d : db) (sample : string * list string) :
  has_model (fst sample) d = true -> settled_sample d sample = true ->
  forallb (fun text => has_command (fst sample) text d) (snd sample) = true.
Proof.
  intros Hmodel. unfold settled_sample.
  destruct (select_finds _ _ Hmodel) as (k & l & Hselect). rewrite Hselect.
  destruct (select_member _ _ _ _ Hselect) as (m & Hk & Hname).
  rewrite !forallb_forall. intros Hall text Hin. specialize (Hall text Hin).
  apply existsb_exists in Hall. destruct Hall as (c & Hc & Hkey).
  unfold has_command. apply existsb_exists. exists c. split; [exact Hc|].
  unfold same_key in Hkey. cbn [keyed c_command_text c_model_id] in Hkey.
  apply andb_prop in Hkey as [Htext Hk']. apply String.eqb_eq in Htext.
  rewrite <- Htext, String.eqb_refl. cbn [andb].
  destruct (c_model_id c) as [y|]; [|discriminate]. apply Z.eqb_eq in Hk'. subst y.
  rewrite Hk, Hname. apply String.eqb_refl.
Qed.

Lemma settled_seeded (d : db) : settled d = true -> seeded d = true.
Proof.
  unfold settled, seeded. intros [Hmodels Hcommands]%andb_prop.
  rewrite Hmodels. cbn [andb].
  rewrite forallb_forall in Hcommands. apply forallb_forall. intros sample Hin.
  apply settled_sample_seeded; [|exact (Hcommands sample Hin)].
  rewrite forallb_forall in Hmodels.
  cbn [sampleCommands In] in Hin.
  destruct Hin as [<-|[<-|[<-|[<-|[]]]]]; cbn [fst];
    match goal with
    | |- has_model ?n d = true =>
        let H := fresh in
        assert (H : exists description, In (n, description) sample_models)
          by (eexists; cbn [sample_models In]; eauto 10);
        destruct H as [description H]; exact (Hmodels _ H)
    end.
Qed.

(** *** The run returns *)

Lemma insert_or_nothing_returns (fresh k : Z) (text description : string) (d : db) :
  (String.length text <= 255)%nat -> unused fresh d -> model_exists d (Some k) = true ->
  insert_command_or_nothing fresh k text description d = (Return tt, d)
  \/ insert_command_or_nothing fresh k text description d
     = (Return tt,
        with_commands
          (commands d ++ [{| c_id := fresh; c_model_id := Some k; c_command_text := text;
                             c_description := Some description |}])%list d).
Proof.
  intros Hlen Hfresh Hmodel.
  destruct (insert_or_nothing_cases fresh k text description d Hlen)
    as [[e He]|[[_ ->]|(_ & _ & _ & ->)]]; auto.
  exfalso. unfold insert_command_or_nothing in He.
  rewrite (varchar_fits _ _ Hlen), Hfresh, Hmodel in He.
  destruct (existsb _ (commands d)); discriminate.
Qed.

Lemma seed_commands_returns (ids : nat -> Z) (model : string) (k : Z) (texts : list string) :
  Forall (fun text => (String.length text <= 255)%nat) texts ->
  (forall a b, ids a = ids b -> a = b) ->
  forall (i : nat) (d : db),
    (forall a, (i <= a)%nat -> unused (ids a) d) ->
    model_exists d (Some k) = true ->
    fst (seed_commands ids model k texts i d) = Return tt
    /\ (forall z, (forall a, ids a <> z) -> unused z d ->
          unused z (snd (seed_commands ids model k texts i d))).
Proof.
  intros Hfit Hinj. induction Hfit as [|text rest Hlen _ IH]; intros i d Hfree Hmodel.
  - cbn. auto.
  - cbn [seed_commands]. unfold bind.
    destruct (insert_or_nothing_returns (ids i) k text
                ("Comando " ++ text ++ " para " ++ model) d Hlen (Hfree i (le_n i)) Hmodel)
      as [-> | ->].
    + apply IH; [|exact Hmodel]. intros a Ha. apply Hfree. lia.
    + set (c := {| c_id := ids i; c_model_id := Some k; c_command_text := text;
                   c_description := Some ("Comando " ++ text ++ " para " ++ model) |}).
      assert (Hother : forall z, ids i <> z -> unused z d ->
                unused z (with_commands (commands d ++ [c])%list d)).
      { intros z Hz Hd. unfold unused in *. cbn [with_commands commands].
        rewrite existsb_app, Hd. cbn [existsb orb]. unfold has_id. cbn [c c_id].
        rewrite orb_false_r. now apply Z.eqb_neq. }
      destruct (IH (S i) (with_commands (commands d ++ [c])%list d)) as [Hret Hkeeps].
      * intros a Ha. apply Hother; [|apply Hfree; lia].
        intros Heq. apply Hinj in Heq. lia.
      * exact Hmodel.
      * split; [exact Hret|]. intros z Hz Hd. apply Hkeeps; [exact Hz|].
        apply Hother; [apply Hz|exact Hd].
Qed.

Lemma seed_samples_returns (ids : nat -> nat -> Z) (samples : list (string * list string)) :
  texts_fit samples ->
  (forall b a b' a', ids b a = ids b' a' -> b = b' /\ a = a') ->
  forall (j : nat) (d : db),
    (forall b a, (j <= b)%nat -> unused (ids b a) d) ->
    fst (seed_samples ids samples j d) = Return tt.
Proof.
  intros Hfit Hinj. induction Hfit as [|[model texts] rest Hfit _ IH]; intros j d Hfree;
    [reflexivity|].
  rewrite seed_samples_step. cbn [snd] in Hfit.
  destruct (fst (select_id_by_name model d)) as [[|k l]|e] eqn:Hselect.
  - apply IH. intros b a Hb. apply Hfree. lia.
  - destruct (select_member _ _ _ _ Hselect) as (m & Hk & _).
    destruct (seed_commands_returns (ids j) model k texts Hfit
                (fun a b Heq => proj2 (Hinj _ _ _ _ Heq)) 0%nat d) as [Hret Hkeeps].
    + intros a _. apply Hfree. lia.
    + cbn [model_exists]. now rewrite Hk.
    + destruct (seed_commands (ids j) model k texts 0 d) as [[[]|e] d1];
        cbn [fst snd] in *; [|discriminate].
      apply IH. intros b a Hb. apply Hkeeps; [|apply Hfree; lia].
      intros a' Heq. apply Hinj in Heq. lia.
  - apply IH. intros b a Hb. apply Hfree. lia.
Qed.

(** *** What a run does *)

(** X20.  [initializeDatabase] returns when the ids the two sequences hand
    out are new: no model has an [id] that the sequence of [device_models]
    hands out, no command one that the sequence of [commands] hands out,
    and neither sequence hands out an [id] twice. *)
Theorem seeding_returns (s : sequences) (d : db) :
  (forall a, device_models d !! model_ids s a = None) ->
  (forall a b, model_ids s a = model_ids s b -> a = b) ->
  (forall b a, unused (command_ids s b a) d) ->
  (forall b a b' a', command_ids s b a = command_ids s b' a' -> b = b' /\ a = a') ->
  fst (initializeDatabase s d) = Return tt.
Proof.
  intros Hmodels Hinj Hcommands Hpairs. rewrite initializeDatabase_eq.
  destruct (values_returns sample_models 0 (model_ids s) d (fun a _ => Hmodels a) Hinj)
    as [d1 Hvalues].
  rewrite Hvalues. destruct (values_more _ _ _ _ _ Hvalues) as ((Hsame & _) & _).
  apply (seed_samples_returns _ _ sample_texts_fit Hpairs).
  intros b a _. unfold unused. rewrite Hsame. apply Hcommands.
Qed.

(** X21.  Whatever its outcome, a run of [initializeDatabase] only adds:
    every model of the store is there after it, as it was; the commands
    are the ones before it, in their order, with commands appended; and
    [sms_history] is as it was. *)
Theorem seeding_only_adds (s : sequences) (d : db) :
  grown d (snd (initializeDatabase s d)).
Proof.
  rewrite initializeDatabase_eq.
  destruct (values_or_nothing sample_models 0 (model_ids s) d) as [d1|e] eqn:Hvalues.
  - destruct (values_more _ _ _ _ _ Hvalues) as (Hmodels & _).
    destruct (seed_samples_more (command_ids s) sampleCommands sample_texts_fit 0%nat d1)
      as (Hcommands & _).
    exact (more_models_grown _ _ _ Hmodels Hcommands).
  - exact (more_models_grown _ _ _ (more_models_refl d) (more_commands_refl d)).
Qed.

(** X22.  Whatever its outcome, a run of [initializeDatabase] on a store
    with no two models of a name and with its references intact leaves
    such a store. *)
Theorem seeding_keeps_the_invariants (s : sequences) (d : db) :
  unique_names d -> intact d ->
  unique_names (snd (initializeDatabase s d)) /\ intact (snd (initializeDatabase s d)).
Proof.
  intros Hunique Hintact. rewrite initializeDatabase_eq.
  destruct (values_or_nothing sample_models 0 (model_ids s) d) as [d1|e] eqn:Hvalues;
    [|auto].
  destruct (values_more _ _ _ _ _ Hvalues) as (_ & _ & Hu & Hi).
  destruct (seed_samples_more (command_ids s) sampleCommands sample_texts_fit 0%nat d1)
    as (Hcommands & Hkeeps & _).
  split; [|auto]. exact (unique_names_same _ _ (proj1 Hcommands) (Hu Hunique)).
Qed.

(** X23.  After a run of [initializeDatabase] that returns, the store has
    a model of each of the six names and, for each of the four models with
    sample commands, a command of each of its four texts. *)
Theorem seeding_provides_the_samples (s : sequences) (d : db) :
  fst (initializeDatabase s d) = Return tt ->
  seeded (snd (initializeDatabase s d)) = true.
Proof.
  intros Hret. apply settled_seeded. now apply initializeDatabase_settles.
Qed.

(** X24.  Seeding twice is seeding once: after a run of
    [initializeDatabase] that returns, a second run, whatever the
    sequences hand out, returns and leaves the store as the first left
    it. *)
Theorem seeding_twice_is_seeding_once (s s' : sequences) (d : db) :
  fst (initializeDatabase s d) = Return tt ->
  initializeDatabase s' (snd (initializeDatabase s d))
  = (Return tt, snd (initializeDatabase s d)).
Proof.
  intros Hret. apply initializeDatabase_settled. now apply initializeDatabase_settles.
Qed.

End SeedFacts.

(** ** The listings of the registry *)
Module ListingsFacts.
Import Js Store Listings ListingsSpec.

(** *** The collation of the examples is a collation *)

Lemma insert_by_permutation {A : Type} (key : A -> list string) (x : A) (l : list A) :
  Permutation (ByteOrder.insert_by key x l) (x :: l).
Proof.
  induction l as [|y r IH]; [reflexivity|].
  cbn [ByteOrder.insert_by]. destruct (ByteOrder.keys_leb (key x) (key y)); [reflexivity|].
  rewrite IH. apply perm_swap.
Qed.

Lemma sort_by_permutation (A : Type) (key : A -> list string) (l : list A) :
  Permutation (ByteOrder.sort_by key l) l.
Proof.
  induction l as [|x r IH]; [reflexivity|].
  cbn [ByteOrder.sort_by fold_right]. fold (ByteOrder.sort_by key r).
  rewrite insert_by_permutation. now constructor.
Qed.

#[export] Instance bytes : Collation := {|
  order_by_text := @ByteOrder.sort_by;
  order_by_text_permutation := sort_by_permutation
|}.

(** *** The decimal text of a count *)

Lemma show_zero (n : nat) : show (Z.of_nat n) = "0" -> n = O.
Proof.
  unfold show. intros Hshow.
  assert (Hz : Z.of_int (Z.to_int (Z.of_nat n)) = Z.of_nat n) by apply DecimalZ.of_to.
  destruct (Z.to_int (Z.of_nat n)) as [u|u]; [|discriminate].
  cbn [NilZero.string_of_int] in Hshow.
  destruct (Decimal.uint_eq_dec u Decimal.Nil) as [->|Hu]; [cbn in Hz; lia|].
  assert (Huint : NilZero.uint_of_string (NilZero.string_of_uint u)
                  = NilZero.uint_of_string "0") by now rewrite Hshow.
  rewrite (NilZero.usu u Hu) in Huint. cbn in Huint. injection Huint as ->.
  cbn in Hz. lia.
Qed.

(** *** The join *)

Lemma joined_commands (d : db) (l : list command) :
  map ci_command (flat_map (join_model d) l) = List.filter (joins d) l.
Proof.
  induction l as [|c r IH]; [reflexivity|].
  cbn [flat_map List.filter]. rewrite map_app, IH. unfold joins, join_model.
  destruct (c_model_id c) as [k|]; [|reflexivity].
  destruct (device_models d !! k); reflexivity.
Qed.

Lemma joined_names (d : db) (l : list command) (it : command_item) :
  In it (flat_map (join_model d) l) ->
  In (ci_command it) l
  /\ exists k m, c_model_id (ci_command it) = Some k /\ device_models d !! k = Some m
                 /\ ci_model_name it = dm_name m.
Proof.
  intros Hin. apply in_flat_map in Hin. destruct Hin as (c & Hc & Hit).
  unfold join_model in Hit. destruct (c_model_id c) as [k|] eqn:Hk; [|destruct Hit].
  destruct (device_models d !! k) as [m|] eqn:Hm; [|destruct Hit].
  destruct Hit as [<-|[]]. cbn [ci_command ci_model_name]. split; [exact Hc|].
  exists k, m. auto.
Qed.

Lemma filter_all {A : Type} (f : A -> bool) (l : list A) :
  (forall x, In x l -> f x = true) -> List.filter f l = l.
Proof.
  induction l as [|x r IH]; intros Hall; [reflexivity|].
  cbn [List.filter]. rewrite (Hall x (or_introl eq_refl)). f_equal.
  apply IH. intros y Hy. apply Hall. now right.
Qed.

Lemma commands_of_eq (k : Z) (d : db) :
  List.filter (of_model k) (commands d) = ModelsSpec.commands_of k d.
Proof. reflexivity. Qed.

Lemma of_model_id (k : Z) (c : command) : of_model k c = true -> c_model_id c = Some k.
Proof.
  unfold of_model. destruct (c_model_id c) as [m|]; [|discriminate].
  intros Hm. apply Z.eqb_eq in Hm. now subst.
Qed.

(** *** The listings *)

Lemma get_models_rows `{Collation} (d : db) :
  exists data,
    get_models d = Listed data (Z.of_nat (length data)) None
    /\ Permutation (map row_of data) (map_to_list (device_models d))
    /\ forall it, In it data ->
         command_count it
         = show (Z.of_nat (length (ModelsSpec.commands_of (mi_id it) d))).
Proof.
  eexists. split; [reflexivity|]. split.
  - rewrite order_by_text_permutation, map_map.
    erewrite map_ext; [rewrite map_id; reflexivity|]. now intros [k m].
  - intros it Hin.
    apply (Permutation_in _ (order_by_text_permutation _ _ _)) in Hin.
    apply in_map_iff in Hin. destruct Hin as ([k m] & <- & _). reflexivity.
Qed.

(** X25.  [GET /api/models] lists every model once, with the number of
    the commands of the model as its [command_count] (in decimal text);
    [count] is the number of models. *)
Theorem every_model_is_listed_once `{Collation} (d : db) :
  exists data,
    get_models d = Listed data (Z.of_nat (length (map_to_list (device_models d)))) None
    /\ Permutation (map row_of data) (map_to_list (device_models d))
    /\ forall it, In it data ->
         command_count it
         = show (Z.of_nat (length (ModelsSpec.commands_of (mi_id it) d))).
Proof.
  destruct (get_models_rows d) as (data & Hget & Hperm & Hcount).
  exists data. split; [|auto].
  rewrite Hget, <- (Permutation_length Hperm), length_map. reflexivity.
Qed.

(** X26.  The count of the listing is the guard of the deletion: for a
    model that [GET /api/models] lists with a [command_count] other than
    "0", [DELETE /api/models/:id] is answered 409 with that count in its
    message and the store is as it was; for one it lists with "0" the
    answer is not 409. *)
Theorem listed_count_is_the_guard `{Postgres} `{Collation} (d : db) (it : model_item)
    (id : string) :
  In it (data_of (get_models d)) ->
  int4_value (JStr id) = Return (Some (mi_id it)) ->
  (command_count it <> "0" ->
   Models.delete id d
   = (Models.Conflict
        ("Cannot delete model. It has " ++ command_count it ++ " associated commands.")
        "Delete all commands first or use force delete.", d))
  /\ (command_count it = "0" -> Models.status_code (fst (Models.delete id d)) <> 409).
Proof.
  intros Hin Hid. destruct (get_models_rows d) as (data & Hget & _ & Hcount).
  rewrite Hget in Hin. cbn [data_of] in Hin. specialize (Hcount it Hin). split.
  - intros Hsome. rewrite Hcount.
    apply (ModelsFacts.delete_with_commands id (mi_id it) d Hid).
    intros Hnone. rewrite Hnone in Hcount. now apply Hsome.
  - intros Hzero. rewrite Hcount in Hzero. apply show_zero in Hzero.
    apply length_zero_iff_nil in Hzero.
    rewrite (ModelsFacts.delete_without_commands id (mi_id it) d Hid Hzero).
    destruct (device_models d !! mi_id it); [|discriminate].
    destruct (ModelsSpec.in_history (mi_id it) d); discriminate.
Qed.

Lemma get_commands_of_rows `{Postgres} `{Collation} (id : string) (k : Z) (d : db) :
  int4_value (JStr id) = Return (Some k) ->
  exists data,
    get_commands_of id d = Listed data (Z.of_nat (length data)) (Some (parseInt id))
    /\ Permutation data
         (flat_map (join_model d) (List.filter (of_model k) (commands d))).
Proof.
  intros Hid. eexists. split.
  - unfold get_commands_of, get_commands_of_handler, try_catch, bind, answer,
      select_commands_of.
    rewrite Hid. reflexivity.
  - apply order_by_text_permutation.
Qed.

(** X27.  [GET /api/models/:modelId/commands], for a [modelId] that the
    store reads as the key [k]: when [device_models] has no model [k] the
    answer is 200 with an empty list, not 404; when it has, the list is
    the commands of the model, each once, each with the name of the model,
    and [count] is their number.  For a [modelId] the store cannot read
    the answer is 500. *)
Theorem commands_of_a_model `{Postgres} `{Collation} (id : string) (d : db) :
  (forall e, int4_value (JStr id) = Throw e ->
     get_commands_of id d = InternalError "Failed to fetch commands")
  /\ (forall k, int4_value (JStr id) = Return (Some k) -> device_models d !! k = None ->
        get_commands_of id d = Listed [] 0 (Some (parseInt id)))
  /\ (forall k m, int4_value (JStr id) = Return (Some k) ->
        device_models d !! k = Some m ->
        exists data,
          get_commands_of id d
          = Listed data (Z.of_nat (length (ModelsSpec.commands_of k d)))
              (Some (parseInt id))
          /\ Permutation (map ci_command data) (ModelsSpec.commands_of k d)
          /\ forall it, In it data -> ci_model_name it = dm_name m).
Proof.
  split; [|split].
  - intros e Hid.
    unfold get_commands_of, get_commands_of_handler, try_catch, bind, answer,
      select_commands_of.
    rewrite Hid. reflexivity.
  - intros k Hid Hk. destruct (get_commands_of_rows id k d Hid) as (data & Hget & Hperm).
    assert (Hnone : flat_map (join_model d) (List.filter (of_model k) (commands d)) = []).
    { clear Hperm. induction (commands d) as [|c r IH]; [reflexivity|].
      cbn [List.filter]. destruct (of_model k c) eqn:Hc; [|exact IH].
      cbn [flat_map]. rewrite IH. unfold join_model.
      rewrite (of_model_id k c Hc), Hk. reflexivity. }
    rewrite Hnone in Hperm. apply Permutation_sym, Permutation_nil in Hperm.
    subst data. exact Hget.
  - intros k m Hid Hk. destruct (get_commands_of_rows id k d Hid) as (data & Hget & Hperm).
    assert (Hall : map ci_command
                     (flat_map (join_model d) (List.filter (of_model k) (commands d)))
                   = ModelsSpec.commands_of k d).
    { rewrite joined_commands, <- commands_of_eq. apply filter_all.
      intros c Hc. apply filter_In in Hc. destruct Hc as [_ Hc].
      unfold joins, join_model. now rewrite (of_model_id k c Hc), Hk. }
    exists data. split; [|split].
    + rewrite Hget. do 2 f_equal.
      rewrite <- Hall, length_map. now rewrite (Permutation_length Hperm).
    + rewrite <- Hall. now apply Permutation_map.
    + intros it Hin. apply (Permutation_in _ Hperm) in Hin.
      destruct (joined_names _ _ _ Hin) as (Hc & k' & m' & Hk' & Hm' & ->).
      apply filter_In in Hc. destruct Hc as [_ Hc]. apply of_model_id in Hc.
      congruence.
Qed.

(** X28.  [GET /api/commands] lists the commands whose model is in
    [device_models], each once, with the name of its model: a command
    with no model is not listed.  In a store whose references are intact
    every command that names a model is listed. *)
Theorem commands_are_listed_with_their_model `{Collation} (d : db) :
  exists data,
    get_commands d
    = Listed data (Z.of_nat (length (List.filter (joins d) (commands d)))) None
    /\ Permutation (map ci_command data) (List.filter (joins d) (commands d))
    /\ (forall it, In it data ->
          exists k m, c_model_id (ci_command it) = Some k
                      /\ device_models d !! k = Some m /\ ci_model_name it = dm_name m)
    /\ (RegistrySpec.intact d ->
        forall c, In c (commands d) -> c_model_id c <> None -> In c (map ci_command data)).
Proof.
  assert (Hperm : Permutation
                    (order_by_text (fun r => [ci_model_name r; c_command_text (ci_command r)])
                       (flat_map (join_model d) (commands d)))
                    (flat_map (join_model d) (commands d)))
    by apply order_by_text_permutation.
  set (data := order_by_text (fun r => [ci_model_name r; c_command_text (ci_command r)])
                 (flat_map (join_model d) (commands d))) in *.
  exists data. split; [|split; [|split]].
  - rewrite <- joined_commands, length_map, <- (Permutation_length Hperm). reflexivity.
  - rewrite <- joined_commands. now apply Permutation_map.
  - intros it Hin. apply (Permutation_in _ Hperm) in Hin.
    exact (proj2 (joined_names _ _ _ Hin)).
  - intros [Hintact _] c Hc Hmodel.
    apply (Permutation_in _ (Permutation_sym (Permutation_map ci_command Hperm))).
    rewrite joined_commands. apply filter_In. split; [exact Hc|].
    pose proof (proj1 (List.Forall_forall _ _) Hintact c Hc) as Hexists.
    cbn beta in Hexists. unfold joins, join_model. destruct (c_model_id c) as [k|]; [|congruence].
    cbn [model_exists] in Hexists. destruct (device_models d !! k); [reflexivity|discriminate].
Qed.

End ListingsFacts.

(** ** The legacy table *)
Module LegacyFacts.
Import Js Store Legacy.




(** One run of the script, with two ids that are new. *)
Lemma initDatabase_adds (ids : nat -> Z) (t : list sms_message) :
  existsb (has_id (ids 0%nat)) t = false -> existsb (has_id (ids 1%nat)) t = false ->
  ids 0%nat <> ids 1%nat ->
  snd (initDatabase ids t)
  = (t ++ [{| m_id := ids 0%nat; m_phone := "+5511999999999";
              m_message := "Welcome to SMS App!"; m_sender := Some "system";
              m_status := Some "sent" |};
           {| m_id := ids 1%nat; m_phone := "+5511888888888";
              m_message := "Your account has been created successfully.";
              m_sender := Some "system"; m_status := Some "sent" |}])%list.
Proof.
  intros Hzero Hone Hne. unfold initDatabase. cbn [snd sample_messages rows_or_nothing].
  rewrite Hzero, existsb_app, Hone. cbn [existsb orb]. unfold has_id at 1. cbn [m_id].
  destruct (Z.eqb_spec (ids 0%nat) (ids 1%nat)) as [Heq|_]; [contradiction|].
  cbn [orb]. now rewrite <- app_assoc.
Qed.

Lemma runs_add (n : nat) (ids : nat -> nat -> Z) :
  (forall r i r' i', ids r i = ids r' i' -> r = r' /\ i = i') ->
  forall (r : nat) (t : list sms_message),
    (forall r' i, (r <= r')%nat -> existsb (has_id (ids r' i)) t = false) ->
    length (runs n ids r t) = (length t + 2 * n)%nat
    /\ exists added, runs n ids r t = (t ++ added)%list.
Proof.
  intros Hinj. induction n as [|n IH]; intros r t Hfree.
  - cbn [runs]. split; [lia|]. exists []. now rewrite app_nil_r.
  - cbn [runs].
    rewrite (initDatabase_adds (ids r) t (Hfree r 0%nat (le_n r)) (Hfree r 1%nat (le_n r))).
    2:{ intros Heq. apply Hinj in Heq. destruct Heq as [_ Heq]. discriminate. }
    match goal with
    | |- context [runs n ids (S r) (t ++ ?rows)%list] =>
        destruct (IH (S r) (t ++ rows)%list) as [Hlen [added Hadded]]
    end.
    + intros r' i Hr'. rewrite existsb_app, (Hfree r' i) by lia.
      cbn [existsb orb]. unfold has_id at 1 2. cbn [m_id].
      destruct (Z.eqb_spec (ids r 0%nat) (ids r' i)) as [Heq|_];
        [apply Hinj in Heq; lia|].
      destruct (Z.eqb_spec (ids r 1%nat) (ids r' i)) as [Heq|_];
        [apply Hinj in Heq; lia|].
      reflexivity.
    + split.
      * rewrite Hlen, length_app. cbn [length]. lia.
      * rewrite Hadded, <- app_assoc. eauto.
Qed.

(** X30.  The script [init-db.js] is not idempotent: its insert names no
    column that is unique, so that every run whose ids are new appends its
    two sample messages again.  After [n] runs the table has [2 * n] rows
    more, after the rows it had. *)
Theorem every_run_adds_the_samples (n : nat) (ids : nat -> nat -> Z)
    (t : list sms_message) :
  (forall r i, existsb (has_id (ids r i)) t = false) ->
  (forall r i r' i', ids r i = ids r' i' -> r = r' /\ i = i') ->
  length (runs n ids 0 t) = (length t + 2 * n)%nat
  /\ exists added, runs n ids 0 t = (t ++ added)%list.
Proof.
  intros Hfree Hinj. apply (runs_add n ids Hinj). intros r' i _. apply Hfree.
Qed.

End LegacyFacts.

(** * The handlers at work

    The properties above at requests run on the store of [Reference], and
    the requests at which the specification's wording does not hold. *)
Module Examples.
Import Js Double Store Reference ReferenceStore ReferenceEngine.
Import SendSpec ModelsSpec HistorySpec SendFacts ModelsFacts HistoryFacts.

(** ** Requests *)

Lemma two_numbers_pass :
  passes (request (map JStr two_numbers) "STATUS123456") sample two_numbers
    (JNum 1) "STATUS123456" 1 tk103.
Proof. unfold passes. repeat split; try reflexivity; discriminate. Qed.

(** ** The send workflow *)

(** C5 at a request of two numbers, on a store that loses the connection
    during the first insert: the first number is in [errors], the second
    was processed all the same. *)
Lemma per_number_errors_witness :
  passes (request (map JStr two_numbers) "STATUS123456") sample two_numbers
    (JNum 1) "STATUS123456" 1 tk103 /\
  exists ok summary_text total sent failed results errs after,
    Send.post flaky (request (map JStr two_numbers) "STATUS123456") sample
    = (Send.Completed ok summary_text total sent failed results
         (if (0 <? length errs)%nat then Some errs else None), after) /\
    (length results + length errs)%nat = 2%nat /\
    In {| Send.e_phone := "+5511999999999";
          Send.e_error := "Connection terminated unexpectedly" |} errs.
Proof.
  split; [exact two_numbers_pass|].
  destruct (per_number_errors flaky _ _ _ _ _ _ _ two_numbers_pass)
    as (ok & summary_text & total & sent & failed & results & errs & after
        & Hpost & _ & _ & Hlen & _ & Hfault & _).
  exists ok, summary_text, total, sent, failed, results, errs, after.
  split; [exact Hpost|]. split; [exact Hlen|].
  apply (Hfault 0%nat "+5511999999999"
           {| Dispatch.success := true;
              Dispatch.details := "Command " ++ dquote ++ "STATUS123456" ++ dquote
                                  ++ " sent successfully to TK103 device";
              Dispatch.messageId := Some "msg_1700000000000_4fzyo82mv";
              Dispatch.cost := Some (5 # 100);
              Dispatch.errorCode := None |}); reflexivity.
Defined.

(** C9 at the same request, on a store that takes every insert. *)
Lemma summary_adds_up_witness :
  passes (request (map JStr two_numbers) "STATUS123456") sample two_numbers
    (JNum 1) "STATUS123456" 1 tk103 /\
  exists ok summary_text total sent failed results errors after,
    Send.post calm (request (map JStr two_numbers) "STATUS123456") sample
    = (Send.Completed ok summary_text total sent failed results errors, after) /\
    sent + failed = total /\ total = 2.
Proof.
  split; [exact two_numbers_pass|].
  destruct (summary_adds_up calm _ _ _ _ _ _ _ two_numbers_pass)
    as (ok & summary_text & total & sent & failed & results & errors & after
        & Hpost & Hsum & Htotal & _).
  exists ok, summary_text, total, sent, failed, results, errors, after.
  split; [exact Hpost|]. split; [exact Hsum|exact Htotal].
Defined.

(** C1 (amended) at a batch of two valid numbers: two rows. *)
Lemma rows_created_by_send_witness :
  (Send.phoneNumbers (request (map JStr two_numbers) "STATUS123456")
   = Some (JArr (map JStr two_numbers)) /\
   truthy (JNum 1) = true /\ trim "STATUS123456" <> "" /\
   int4_value (JNum 1) = Return (Some 1) /\ device_models sample !! 1 = Some tk103 /\
   forallb valid two_numbers = true) /\
  rows_created sample
    (snd (Send.post calm (request (map JStr two_numbers) "STATUS123456") sample))
  = 2 - errors_reported
          (fst (Send.post calm (request (map JStr two_numbers) "STATUS123456") sample)).
Proof.
  split; [repeat split; try reflexivity; discriminate|].
  apply (proj1 (rows_created_by_send calm
                  (request (map JStr two_numbers) "STATUS123456") sample two_numbers
                  (JNum 1) "STATUS123456" 1 tk103
                  eq_refl eq_refl eq_refl eq_refl ltac:(discriminate) eq_refl eq_refl)).
  reflexivity.
Defined.

(** C2 (amended) at a batch with two invalid numbers. *)
Lemma invalid_number_rejects_request_witness :
  (Send.phoneNumbers (request (map JStr one_bad) "STATUS123456")
   = Some (JArr (map JStr one_bad)) /\
   truthy (JNum 1) = true /\ trim "STATUS123456" <> "" /\
   In "abc" one_bad /\ valid "abc" = false) /\
  Send.post calm (request (map JStr one_bad) "STATUS123456") sample
  = (Send.BadRequest "Invalid phone numbers detected" (Some [JStr "abc"; JStr "12"]),
     {| Send.store := sample; Send.dispatched := [] |}).
Proof.
  split; [repeat split; try reflexivity; try discriminate; right; now left|].
  apply (proj1 (invalid_number_rejects_request calm
                  (request (map JStr one_bad) "STATUS123456") sample one_bad
                  (JNum 1) "STATUS123456"
                  eq_refl eq_refl eq_refl eq_refl ltac:(discriminate)
                  (ex_intro _ "abc" (conj (or_intror (or_introl eq_refl)) eq_refl)))).
Defined.

(** C1 as worded fails twice.  A batch with one valid and one invalid
    number creates no row, not one; and a batch of one valid number sent
    with a command text that [command_text VARCHAR(255)] refuses creates no
    row either: the number is reported in [errors]. *)
Lemma mixed_batch_creates_no_row :
  (Z.of_nat (length (List.filter valid ["+5511999999999"; "abc"])) = 1 /\
   rows_created sample
     (snd (Send.post calm (request [JStr "+5511999999999"; JStr "abc"] "STATUS123456")
             sample)) = 0) /\
  (Z.of_nat (length (List.filter valid ["+5511999999999"])) = 1 /\
   rows_created sample
     (snd (Send.post calm (request [JStr "+5511999999999"] long_command) sample)) = 0 /\
   errors_reported
     (fst (Send.post calm (request [JStr "+5511999999999"] long_command) sample)) = 1).
Proof. vm_compute. repeat split; reflexivity. Qed.

(** C2 as worded fails at a request with an invalid number and a blank
    command text: the check of the command text comes first, and its 400
    answer lists no number. *)
Lemma blank_command_rejects_without_list :
  valid "abc" = false /\
  Send.post calm (request [JStr "abc"] "   ") sample
  = (Send.BadRequest "Model ID and command text are required" None,
     {| Send.store := sample; Send.dispatched := [] |}).
Proof. split; reflexivity. Qed.

(** ** Deleting a model *)

(** C6 (amended) at a model that nothing references: it is removed. *)
Lemma delete_model_guarded_witness :
  (int4_value (JStr "7") = Return (Some 7) /\ commands_of 7 fresh = [] /\
   device_models fresh !! 7 = Some tk103 /\ in_history 7 fresh = false) /\
  Models.delete "7" fresh
  = (Models.Deleted "Model deleted successfully" (7, tk103),
     {| device_models := base.delete 7 (device_models fresh);
        commands := commands fresh; sms_history := sms_history fresh |}) /\
  device_models (snd (Models.delete "7" fresh)) !! 7 = None.
Proof.
  assert (Hid : int4_value (JStr "7") = Return (Some 7)) by reflexivity.
  split; [repeat split; reflexivity|].
  apply (proj1 (proj2 (proj2 (delete_model_guarded "7" 7 fresh Hid))) tk103);
    reflexivity.
Defined.

(** C6 as worded fails at a model without commands that [sms_history]
    references: the store refuses the delete, the answer is 500 and the
    model stays. *)
Lemma referenced_model_is_not_deleted :
  commands_of 2 sample = [] /\
  device_models sample !! 2 = Some gt06 /\
  Models.delete "2" sample = (Models.InternalError "Failed to delete model", sample).
Proof. repeat split; reflexivity. Qed.

(** ** The history listing *)

(** The clause and the parameters of a request with every filter, and of a
    request with none. *)
Lemma clause_of_every_filter :
  History.whereClause (History.build failed_of_model_2_page_2)
  = "WHERE h.status = $1 AND h.model_id = $2 AND h.phone_number ILIKE $3 AND h.sent_at >= $4 AND h.sent_at <= $5 AND (h.command_text ILIKE $6 OR h.notes ILIKE $6 OR m.name ILIKE $6)" /\
  History.params (History.build failed_of_model_2_page_2)
  = [PText "failed"; PText "2"; PText "%5511%"; PText "1970-01-01"; PText "1970-01-02";
     PText "%status%"] /\
  History.whereClause (History.build (paged None None None)) = "" /\
  History.params (History.build (paged None None None)) = [].
Proof. repeat split; reflexivity. Qed.

(** C4 at [?status=failed] and at [?status=failed&modelId=2]: two rows,
    then no more than two. *)
Lemma total_counts_matching_rows_witness :
  History.get failed_only sample = listing failed_only sample [BStatus "failed"] 50 0 /\
  History.get failed_of_model_2 sample
  = listing failed_of_model_2 sample [BStatus "failed"; BModelId 2] 50 0 /\
  extends failed_only failed_of_model_2 /\
  Z.of_nat (length (matching [BStatus "failed"] sample)) = 2 /\
  Z.of_nat (length (matching [BStatus "failed"; BModelId 2] sample))
  <= Z.of_nat (length (matching [BStatus "failed"] sample)).
Proof.
  assert (Hget : History.get failed_only sample
                 = listing failed_only sample [BStatus "failed"] 50 0) by reflexivity.
  assert (Hget' : History.get failed_of_model_2 sample
                  = listing failed_of_model_2 sample [BStatus "failed"; BModelId 2] 50 0)
    by reflexivity.
  assert (Hextends : extends failed_only failed_of_model_2).
  { intros f Hf. cbn in Hf. destruct Hf as [<-|[]]. cbn. now left. }
  split; [exact Hget|]. split; [exact Hget'|]. split; [exact Hextends|].
  split; [reflexivity|].
  exact (proj2 (proj2 (total_counts_matching_rows failed_only sample _ _ _ Hget))
           failed_of_model_2 _ _ _ Hextends Hget').
Defined.

(** C8 (amended) at a request with every filter, for the page 2 of 2 rows,
    on the store of eight rows: of the five failed rows of the model 2, in
    descending order of [sent_at], the page has the third and the fourth. *)
Lemma history_page_witness :
  (page_is failed_of_model_2_page_2 2 /\ limit_is failed_of_model_2_page_2 2 /\
   1 <= 2 /\ 2 * 2 < 9007199254740992 /\
   integer_in (show ((2 - 1) * 2)) = Some ((2 - 1) * 2) /\
   Z.of_nat (length (sms_history archive)) < 9007199254740992 /\
   readable failed_of_model_2_page_2) /\
  exists data pg,
    History.get failed_of_model_2_page_2 archive
    = History.Listing data pg failed_of_model_2_page_2 /\
    map (fun it => (h_id (item it), sent_at (item it))) data = [(4, 400); (2, 200)] /\
    Z.of_nat (length data) <= 2 /\
    (forall it, In it data ->
                status (item it) = "failed" /\ model_id (item it) = Some 2 /\
                0 <= sent_at (item it) <= 86400000000) /\
    StronglySorted latest_first data /\
    History.p_page pg = Finite 2 /\ History.p_limit pg = Finite 2 /\
    History.total pg = 5 /\ History.pages pg = integer 3 /\
    History.hasPrev pg = true /\ History.hasNext pg = true.
Proof.
  assert (Hpage : page_is failed_of_model_2_page_2 2) by (split; reflexivity).
  assert (Hlimit : limit_is failed_of_model_2_page_2 2) by (repeat split; reflexivity).
  assert (Hoffset : integer_in (show ((2 - 1) * 2)) = Some ((2 - 1) * 2)) by reflexivity.
  assert (Hrows : Z.of_nat (length (sms_history archive)) < 9007199254740992)
    by reflexivity.
  assert (Hreadable : readable failed_of_model_2_page_2).
  { repeat split; intros s Hs; cbn in Hs;
      repeat (destruct Hs as [Heq|Hs];
              [try discriminate Heq; injection Heq as <-; eexists; repeat split|]);
      destruct Hs. }
  assert (Hone : 1 <= 2) by lia.
  assert (Hsafe : 2 * 2 < 9007199254740992) by lia.
  split; [exact (conj Hpage (conj Hlimit (conj Hone (conj Hsafe
                   (conj Hoffset (conj Hrows Hreadable))))))|].
  destruct (history_page failed_of_model_2_page_2 archive 2 2
              Hpage Hlimit Hone Hone Hsafe Hoffset Hrows Hreadable) as
    (data & pg & Hget & Hlen & Hmeets & Hsorted & Hp & Hl & Hprev & Hnext & c & Hpages & Hc).
  assert (Hrun : History.get failed_of_model_2_page_2 archive
                 = listing failed_of_model_2_page_2 archive
                     [BStatus "failed"; BModelId 2; BPhone "%5511%"; BFrom 0;
                      BTo 86400000000; BSearch "%status%"] 2 2) by reflexivity.
  rewrite Hget in Hrun. unfold listing in Hrun. injection Hrun as Hdata Hpg.
  assert (Htotal : History.total pg = 5) by (rewrite Hpg; reflexivity).
  exists data, pg. split; [exact Hget|]. split; [rewrite Hdata; reflexivity|].
  split; [exact Hlen|]. split.
  { intros it Hit. split; [|split].
    - apply (Hmeets it (StatusEq, "failed") Hit). now left.
    - destruct (Hmeets it (ModelIdEq, "2") Hit) as (k & Hk & Hmodel); [right; now left|].
      cbn in Hk. injection Hk as <-. exact Hmodel.
    - destruct (Hmeets it (SentFrom, "1970-01-01") Hit) as (t & Ht & Hfrom);
        [do 3 right; now left|].
      destruct (Hmeets it (SentTo, "1970-01-02") Hit) as (t' & Ht' & Hto);
        [do 4 right; now left|].
      vm_compute in Ht, Ht'. injection Ht as <-. injection Ht' as <-. split; [exact Hfrom|exact Hto]. }
  split; [exact Hsorted|]. split; [exact Hp|]. split; [exact Hl|]. split; [exact Htotal|].
  rewrite Htotal in Hnext, Hc.
  split; [|split; [exact Hprev|exact Hnext]].
  rewrite Hpages. replace c with 3 by lia. reflexivity.
Defined.

(** C8 as worded fails at [?page=0&limit=10], which the store refuses (the
    offset is negative), at [?modelId=abc], which it cannot read, and at
    [?limit=20.0] and [?limit=1e1], whose texts the arithmetic of the
    engine reads as 20 and 10 and [parseInt] as 20 and 1, and in which the
    store reads no integer: the four are answered 500; and at [?limit=0],
    whose page count is no number. *)
Lemma history_requests_without_a_page :
  History.get (paged (Some "0") (Some "10") None) sample
  = History.InternalError "Failed to fetch SMS history" /\
  History.get (paged None None (Some "abc")) sample
  = History.InternalError "Failed to fetch SMS history" /\
  (toString (StringToNumber "20.0") = "20" /\ Listings.parseInt "20.0" = Finite 20 /\
   integer_in "20.0" = None /\
   History.get (paged None (Some "20.0") None) sample
   = History.InternalError "Failed to fetch SMS history") /\
  (StringToNumber "1e1" = of_integer 10 /\ Listings.parseInt "1e1" = Finite 1 /\
   integer_in "1e1" = None /\
   History.get (paged None (Some "1e1") None) sample
   = History.InternalError "Failed to fetch SMS history") /\
  History.get (paged None (Some "0") None) sample
  = History.Listing []
      {| History.p_page := Finite 1; History.p_limit := Finite 0; History.total := 3;
         History.pages := infinity; History.hasNext := true; History.hasPrev := false |}
      (paged None (Some "0") None).
Proof. repeat split; reflexivity. Qed.

End Examples.

(** * The other routes at work *)
Module Walkthrough.
Import Js Store Reference ReferenceStore Samples.
Import SendSpec RegistrySpec SendCases RegistryFacts ListingsFacts.

(** ** The send workflow *)

(** X5 at a request with two numbers the pattern refuses: nothing is
    dispatched and nothing is stored. *)
Lemma refused_send_has_no_effect_witness :
  snd (Send.post calm (request (map JStr one_bad) "STATUS123456") sample)
  = {| Send.store := sample; Send.dispatched := [] |}.
Proof.
  apply refused_send_has_no_effect. vm_compute. discriminate.
Defined.

(** X7 at a request for the model 9, which the store does not have, and at
    a request for the model "abc". *)
Lemma send_resolves_the_model_first_witness :
  Send.post calm (asking (JNum 9)) sample
  = (Send.NotFound "Model not found", {| Send.store := sample; Send.dispatched := [] |})
  /\ Send.post calm (asking (JStr "abc")) sample
     = (Send.InternalError "Failed to send SMS" invalid_integer,
        {| Send.store := sample; Send.dispatched := [] |}).
Proof.
  assert (Hne : two_numbers <> []) by discriminate.
  assert (Hblank : trim "STATUS123456" <> "") by discriminate.
  split.
  - exact (proj1 (send_resolves_the_model_first calm (asking (JNum 9)) sample two_numbers
                    (JNum 9) "STATUS123456" eq_refl Hne eq_refl eq_refl eq_refl eq_refl
                    Hblank) 9 eq_refl eq_refl).
  - exact (proj2 (send_resolves_the_model_first calm (asking (JStr "abc")) sample
                    two_numbers (JStr "abc") "STATUS123456" eq_refl Hne eq_refl eq_refl
                    eq_refl eq_refl Hblank) invalid_integer eq_refl).
Defined.

(** X8 at the request of two numbers: the call at position 1 does not
    deliver. *)
Lemma untroubled_send_stores_every_number_witness :
  exists results,
    fst (Send.post calm (request (map JStr two_numbers) "STATUS123456") sample)
    = Send.Completed true "SMS processing completed. Sent: 1, Failed: 1" 2 1 1 results None
    /\ length results = 2%nat
    /\ rows_created sample
         (snd (Send.post calm (request (map JStr two_numbers) "STATUS123456") sample)) = 2.
Proof.
  assert (Hlen : (String.length (trim "STATUS123456") <= 255)%nat) by (vm_compute; lia).
  exact (untroubled_send_stores_every_number calm draws_at _ sample two_numbers
           (JNum 1) "STATUS123456" 1 tk103 Examples.two_numbers_pass eq_refl
           (fun i => eq_refl) Hlen).
Defined.

(** ** The registry *)

Lemma sample_unique : unique_names sample.
Proof. apply unique_names_checked. vm_compute. reflexivity. Qed.

Lemma sample_intact : intact sample.
Proof. apply intact_checked. vm_compute. reflexivity. Qed.

(** X9 at a new model and at an update of the model 2. *)
Lemma model_names_stay_unique_witness :
  unique_names (snd (Registry.post_model 3 (model_request (JStr " ST901 ")) sample))
  /\ unique_names (snd (Registry.put_model "2" (model_request (JStr " ST901 ")) sample)).
Proof.
  apply model_names_stay_unique. exact sample_unique.
Defined.

(** X10 at the same requests. *)
Lemma model_names_stay_trimmed_witness :
  trimmed_names (snd (Registry.post_model 3 (model_request (JStr " ST901 ")) sample))
  /\ trimmed_names (snd (Registry.put_model "2" (model_request (JStr " ST901 ")) sample)).
Proof.
  apply model_names_stay_trimmed. apply trimmed_names_checked. vm_compute. reflexivity.
Defined.

(** X11 at a request to each route. *)
Lemma references_stay_intact_witness :
  intact (snd (Registry.post_model 50 (model_request (JStr " ST901 ")) sample))
  /\ intact (snd (Registry.put_model "2" (model_request (JStr " ST901 ")) sample))
  /\ intact (snd (Models.delete "2" sample))
  /\ intact (snd (Registry.post_command 50 (command_request (JNum 2) " STATUS# ") sample))
  /\ intact (snd (Registry.put_command "2" (command_request (JNum 2) " STATUS# ") sample))
  /\ intact (snd (Registry.delete_command_request "2" sample))
  /\ intact (Send.store (snd (Send.post calm (asking (JNum 2)) sample))).
Proof.
  apply references_stay_intact. exact sample_intact.
Defined.

(** X13 at the name 5. *)
Lemma name_must_be_text_witness :
  Registry.post_model 3 (model_request (JNum 5)) sample
  = (Registry.InternalError "Failed to add model", sample)
  /\ Registry.put_model "1" (model_request (JNum 5)) sample
     = (Registry.InternalError "Failed to update model", sample).
Proof.
  exact (name_must_be_text 3 "1" (model_request (JNum 5)) sample (JNum 5) eq_refl eq_refl).
Defined.

(** X14 at the name of the model 2: a new model and the model 1 cannot
    take it, the model 2 keeps it. *)
Lemma taken_name_is_conflict_witness :
  Registry.post_model 3 (model_request (JStr " GT06 ")) sample
  = (Registry.Conflict "Model name already exists", sample)
  /\ Registry.put_model "1" (model_request (JStr " GT06 ")) sample
     = (Registry.Conflict "Model name already exists", sample)
  /\ Registry.put_model "2" (model_request (JStr " GT06 ")) sample
     = (Registry.Done "Model updated successfully"
          (Some (2, model_named " GT06 " (model_request (JStr " GT06 ")))),
        with_model 2 (model_named " GT06 " (model_request (JStr " GT06 "))) sample).
Proof.
  assert (Hblank : trim " GT06 " <> "") by (vm_compute; discriminate).
  assert (Hlen : (String.length (trim " GT06 ") <= 100)%nat) by (vm_compute; lia).
  assert (Htaken : Registry.name_taken (trim " GT06 ") None sample = true) by (vm_compute; reflexivity).
  assert (Hother : Registry.name_taken (trim " GT06 ") (Some 1) sample = true)
    by (vm_compute; reflexivity).
  assert (Hone : is_Some (device_models sample !! 1)) by (vm_compute; eauto).
  assert (Htwo : device_models sample !! 2 = Some gt06) by (vm_compute; reflexivity).
  split; [|split].
  - exact (proj1 (taken_name_is_conflict 3 "1" (model_request (JStr " GT06 ")) sample
                    " GT06 " eq_refl Hblank Hlen) (or_introl Htaken)).
  - exact (proj1 (proj2 (taken_name_is_conflict 3 "1" (model_request (JStr " GT06 ")) sample
                           " GT06 " eq_refl Hblank Hlen)) 1 eq_refl Hone Hother).
  - exact (proj2 (proj2 (taken_name_is_conflict 3 "2" (model_request (JStr " GT06 ")) sample
                           " GT06 " eq_refl Hblank Hlen)) 2 gt06 eq_refl Htwo eq_refl
             sample_unique).
Defined.

(** X15 at a new command for the model 2. *)
Lemma command_round_trip_witness :
  Registry.delete_command_request "50"
    (snd (Registry.post_command 50 (command_request (JNum 2) " STATUS# ") sample))
  = (Registry.Done "Command deleted successfully" (Some status_of_gt06), sample).
Proof.
  assert (Hpost : Registry.post_command 50 (command_request (JNum 2) " STATUS# ") sample
                  = (Registry.Created "Command added successfully" (Some status_of_gt06),
                     snd (Registry.post_command 50 (command_request (JNum 2) " STATUS# ")
                            sample)))
    by (vm_compute; reflexivity).
  assert (Hid : int4_value (JStr "50") = Return (Some (c_id status_of_gt06)))
    by (vm_compute; reflexivity).
  exact (command_round_trip 50 _ sample _ _ "50" status_of_gt06 Hpost Hid).
Defined.

(** X16 at a new model. *)
Lemma model_round_trip_witness :
  Models.delete "3" (snd (Registry.post_model 3 (model_request (JStr " ST901 ")) sample))
  = (Models.Deleted "Model deleted successfully" (3, st901), sample).
Proof.
  assert (Hpost : Registry.post_model 3 (model_request (JStr " ST901 ")) sample
                  = (Registry.Created "Model added successfully" (Some (3, st901)),
                     snd (Registry.post_model 3 (model_request (JStr " ST901 ")) sample)))
    by (vm_compute; reflexivity).
  assert (Hid : int4_value (JStr "3") = Return (Some 3)) by (vm_compute; reflexivity).
  exact (model_round_trip 3 _ sample _ _ "3" 3 st901 sample_intact Hpost Hid).
Defined.

(** X17 at a new command for the model 2, which had none. *)
Lemma new_command_guards_its_model_witness :
  Models.delete "2"
    (snd (Registry.post_command 50 (command_request (JNum 2) " STATUS# ") sample))
  = (Models.Conflict "Cannot delete model. It has 1 associated commands."
       "Delete all commands first or use force delete.",
     snd (Registry.post_command 50 (command_request (JNum 2) " STATUS# ") sample)).
Proof.
  assert (Hpost : Registry.post_command 50 (command_request (JNum 2) " STATUS# ") sample
                  = (Registry.Created "Command added successfully" (Some status_of_gt06),
                     snd (Registry.post_command 50 (command_request (JNum 2) " STATUS# ")
                            sample)))
    by (vm_compute; reflexivity).
  assert (Hid : int4_value (JStr "2") = Return (Some 2)) by (vm_compute; reflexivity).
  exact (new_command_guards_its_model 50 _ sample _ _ "2" status_of_gt06 2 Hpost eq_refl Hid).
Defined.

(** X18 at the text of the first command of the model 1: a new command
    with it is answered 409, the second command of the model cannot take
    it and the answer is 500. *)
Lemma duplicate_command_answers_witness :
  Registry.post_command 50 (command_request (JNum 1) "RESET123456 ") crowded
  = (Registry.Conflict "Command already exists for this model", crowded)
  /\ Registry.put_command "2" (command_request (JNum 1) "RESET123456 ") crowded
     = (Registry.InternalError "Failed to update command", crowded).
Proof.
  assert (Hblank : trim "RESET123456 " <> "") by (vm_compute; discriminate).
  assert (Hlen : (String.length (trim "RESET123456 ") <= 255)%nat) by (vm_compute; lia).
  assert (Hmodel : is_Some (device_models crowded !! 1)) by (vm_compute; eauto).
  assert (Hdup : existsb (Registry.same_key
                            (command_written 50 1 "RESET123456 "
                               (command_request (JNum 1) "RESET123456 ")))
                   (commands crowded) = true) by (vm_compute; reflexivity).
  assert (Hcollides : collides 2 (trim "RESET123456 ") None crowded = true)
    by (vm_compute; reflexivity).
  pose proof (duplicate_command_answers 50 "2" (command_request (JNum 1) "RESET123456 ")
                crowded "RESET123456 " eq_refl Hblank Hlen) as [Hpost Hput].
  split.
  - exact (Hpost (JNum 1) 1 eq_refl eq_refl eq_refl Hmodel Hdup).
  - exact (Hput 2 eq_refl Hcollides).
Defined.

(** X19 at the id "abc". *)
Lemma unreadable_id_is_internal_error_witness :
  Registry.put_model "abc" (model_request (JStr " ST901 ")) sample
  = (Registry.InternalError "Failed to update model", sample)
  /\ Registry.put_command "abc" (command_request (JNum 2) " STATUS# ") sample
     = (Registry.InternalError "Failed to update command", sample)
  /\ Registry.delete_command_request "abc" sample
     = (Registry.InternalError "Failed to delete command", sample).
Proof.
  assert (Hname : trim " ST901 " <> "") by (vm_compute; discriminate).
  assert (Htext : trim " STATUS# " <> "") by (vm_compute; discriminate).
  assert (Hid : int4_value (JStr "abc") = Throw invalid_integer) by (vm_compute; reflexivity).
  pose proof (unreadable_id_is_internal_error "abc" (model_request (JStr " ST901 "))
                (command_request (JNum 2) " STATUS# ") sample invalid_integer Hid)
    as (Hmodel & Hcommand & Hdelete).
  split; [|split].
  - exact (Hmodel " ST901 " eq_refl Hname).
  - exact (Hcommand " STATUS# " eq_refl Htext).
  - exact Hdelete.
Defined.

(** ** The sample data *)

(** X20 at the store of the examples, whose ids are below 100. *)
Lemma seeding_returns_witness : fst (Seed.initializeDatabase pairing sample) = Return tt.
Proof.
  apply SeedFacts.seeding_returns.
  - intros a. unfold pairing, sample. cbn [Seed.model_ids device_models].
    rewrite !lookup_insert_ne by lia. apply lookup_empty.
  - unfold pairing. cbn [Seed.model_ids]. intros a b Heq. lia.
  - intros b a. unfold SeedSpec.unused, pairing, sample, Registry.has_id.
    cbn [Seed.command_ids commands existsb c_id]. rewrite orb_false_r.
    apply Z.eqb_neq. lia.
  - unfold pairing. cbn [Seed.command_ids]. intros b a b' a' Heq.
    assert (Hcode : encode (b, a) = encode (b', a')) by lia.
    apply (inj encode) in Hcode. injection Hcode as -> ->. auto.
Defined.

(** X22 at the store of the examples. *)
Lemma seeding_keeps_the_invariants_witness :
  unique_names (snd (Seed.initializeDatabase counting sample))
  /\ intact (snd (Seed.initializeDatabase counting sample)).
Proof.
  exact (SeedFacts.seeding_keeps_the_invariants counting sample sample_unique sample_intact).
Defined.

Lemma counting_returns : fst (Seed.initializeDatabase counting sample) = Return tt.
Proof. vm_compute. reflexivity. Qed.

(** X23 at the store of the examples, which has two of the models and one
    of the commands. *)
Lemma seeding_provides_the_samples_witness :
  SeedSpec.seeded sample = false
  /\ SeedSpec.seeded (snd (Seed.initializeDatabase counting sample)) = true.
Proof.
  split; [vm_compute; reflexivity|].
  exact (SeedFacts.seeding_provides_the_samples counting sample counting_returns).
Defined.

(** X24 at the store of the examples: a second run, with other ids. *)
Lemma seeding_twice_is_seeding_once_witness :
  Seed.initializeDatabase pairing (snd (Seed.initializeDatabase counting sample))
  = (Return tt, snd (Seed.initializeDatabase counting sample)).
Proof.
  exact (SeedFacts.seeding_twice_is_seeding_once counting pairing sample counting_returns).
Defined.

(** ** The listings *)

(** X26 at the two models of the store of the examples: the first has a
    command, the second has none (and is in the history). *)
Lemma listed_count_is_the_guard_witness :
  Models.delete "1" sample
  = (Models.Conflict "Cannot delete model. It has 1 associated commands."
       "Delete all commands first or use force delete.", sample)
  /\ Models.status_code (fst (Models.delete "2" sample)) <> 409.
Proof.
  assert (Hfirst : In listed_tk103 (ListingsSpec.data_of (Listings.get_models sample)))
    by (vm_compute; auto).
  assert (Hsecond : In listed_gt06 (ListingsSpec.data_of (Listings.get_models sample)))
    by (vm_compute; auto).
  assert (Hone : int4_value (JStr "1") = Return (Some 1)) by (vm_compute; reflexivity).
  assert (Htwo : int4_value (JStr "2") = Return (Some 2)) by (vm_compute; reflexivity).
  split.
  - apply (proj1 (ListingsFacts.listed_count_is_the_guard sample listed_tk103 "1"
                    Hfirst Hone)).
    discriminate.
  - exact (proj2 (ListingsFacts.listed_count_is_the_guard sample listed_gt06 "2"
                    Hsecond Htwo) eq_refl).
Defined.

(** X27 at a model that is not there, at an id that is no integer and at
    the first model. *)
Lemma commands_of_a_model_witness :
  Listings.get_commands_of "abc" sample = Listings.InternalError "Failed to fetch commands"
  /\ Listings.get_commands_of "9" sample = Listings.Listed [] 0 (Some (Finite 9))
  /\ exists data,
       Listings.get_commands_of "1" sample = Listings.Listed data 1 (Some (Finite 1))
       /\ Permutation (map Listings.ci_command data) (ModelsSpec.commands_of 1 sample)
       /\ forall it, In it data -> Listings.ci_model_name it = "TK103".
Proof.
  split; [|split].
  - exact (proj1 (ListingsFacts.commands_of_a_model "abc" sample) invalid_integer eq_refl).
  - exact (proj1 (proj2 (ListingsFacts.commands_of_a_model "9" sample)) 9 eq_refl eq_refl).
  - exact (proj2 (proj2 (ListingsFacts.commands_of_a_model "1" sample)) 1 tk103 eq_refl
             eq_refl).
Defined.

(** ** The legacy table *)


(** X30 at three runs on an empty table. *)
Lemma every_run_adds_the_samples_witness :
  length (Legacy.runs 3 paired 0 []) = 6%nat
  /\ exists added, Legacy.runs 3 paired 0 [] = ([] ++ added)%list.
Proof.
  apply (LegacyFacts.every_run_adds_the_samples 3 paired []).
  - intros r i. reflexivity.
  - unfold paired. intros r i r' i' Heq. injection Heq as Heq.
    apply (inj encode) in Heq. injection Heq as -> ->. auto.
Defined.

End Walkthrough.
